(** * Flowly scheduling backend: scheduling / publishing core

    A shallow embedding of the Supabase edge functions that schedule posts
    and drive their per-platform delivery:

    - [supabase/functions/common/_shared/types.ts]   (backoff policy)
    - [supabase/functions/schedule-worker/index.ts]  and
      [supabase/functions/scheduling/schedule-worker/index.ts]
    - [supabase/functions/publish-post/index.ts]     and
      [supabase/functions/scheduling/publish-post/index.ts]
    - [.../cancel-scheduled-post/index.ts], [.../create-scheduled-post/index.ts]
    - [supabase/migrations/20241216000001_init.sql]  (tables, constraints,
      the [updated_at] trigger)

    Conventions.  Timestamps are epoch milliseconds in [Z] (what
    [new Date(s).getTime()] and [Date.now()] yield); the current time is an
    explicit argument wherever the source calls [new Date()] / [Date.now()].
    The tables are lists of rows in storage order (a query without an
    order clause returns rows in that order); a statement the store accepts
    takes effect, and it refuses a statement only for the constraints of the
    migration or when an oracle says so.  The external publisher and the
    transport between worker and publish endpoint are oracles passed in as
    arguments. *)

From Stdlib Require Import ZArith String List Bool Lia Arith.
From Stdlib Require Import Sorting.Sorted Sorting.Permutation.
Import ListNotations.

Local Open Scope Z_scope.

(** ** Enumerations (migration 0001, [types.ts]) *)

Inductive Platform : Type :=
  | twitter | linkedin | instagram | facebook | threads | tiktok | youtube.

Inductive PostStatus : Type :=
  | PostDraft | PostQueued | PostPublishing | PostPublished
  | PostPartial | PostFailed | PostCancelled.

Inductive TargetStatus : Type :=
  | queued | publishing | sent | failed | retrying | cancelled.

Definition Platform_eqb (a b : Platform) : bool :=
  match a, b with
  | twitter, twitter | linkedin, linkedin | instagram, instagram
  | facebook, facebook | threads, threads | tiktok, tiktok
  | youtube, youtube => true
  | _, _ => false
  end.

Definition PostStatus_eqb (a b : PostStatus) : bool :=
  match a, b with
  | PostDraft, PostDraft | PostQueued, PostQueued
  | PostPublishing, PostPublishing | PostPublished, PostPublished
  | PostPartial, PostPartial | PostFailed, PostFailed
  | PostCancelled, PostCancelled => true
  | _, _ => false
  end.

Definition TargetStatus_eqb (a b : TargetStatus) : bool :=
  match a, b with
  | queued, queued | publishing, publishing | sent, sent
  | failed, failed | retrying, retrying | cancelled, cancelled => true
  | _, _ => false
  end.

(** [xs.includes(s)] on a list of status literals. *)
Definition includes {A} (eqb : A -> A -> bool) (xs : list A) (s : A) : bool :=
  existsb (eqb s) xs.

(** ** Backoff policy ([types.ts], [schedule-worker/index.ts]) *)

Module Backoff.

Definition MAX_RETRY_ATTEMPTS : Z := 3.

(** [getBackoffDelayMs]: [baseDelayMs * Math.pow(2, attemptCount)].
    [Z.pow] is [Math.pow] on the non-negative exponents an attempt counter
    takes. *)
Definition getBackoffDelayMs (attemptCount : Z) : Z :=
  let baseDelayMs := 60 * 1000 in
  baseDelayMs * 2 ^ attemptCount.

(** [shouldRetryTarget] of [types.ts].  [lastAttemptAt] is the nullable
    [last_attempt_at] column, already read as epoch milliseconds; [now] is
    the value of [Date.now()]. *)
Definition shouldRetryTarget
    (attemptCount : Z) (lastAttemptAt : option Z) (now : Z) : bool :=
  if attemptCount >=? MAX_RETRY_ATTEMPTS then false
  else match lastAttemptAt with
       | None => true
       | Some t =>
           let backoffMs := getBackoffDelayMs attemptCount in
           let nextAttemptTime := t + backoffMs in
           now >=? nextAttemptTime
       end.

(** [shouldRetry] of the flat [schedule-worker/index.ts]: the same test with
    the delay written inline. *)
Definition shouldRetry
    (attemptCount : Z) (lastAttemptAt : option Z) (now : Z) : bool :=
  if attemptCount >=? MAX_RETRY_ATTEMPTS then false
  else match lastAttemptAt with
       | None => true
       | Some t =>
           let backoffMs := 60000 * 2 ^ attemptCount in
           let nextAttempt := t + backoffMs in
           now >=? nextAttempt
       end.

End Backoff.

(** ** The store: rows and tables (migration 0001) *)

(** UUID primary keys and user ids. *)
Definition Id := nat.
Bind Scope nat_scope with Id.

Record DbSocialAccount : Type := {
  account_user_id : Id;
  account_platform : Platform;
  access_token : string
}.

(** The [metadata] JSON column of [scheduled_posts], with the keys the
    functions write. *)
Record Metadata : Type := {
  variants : list (string * string);
  cancelledAt : option Z;
  cancelledBy : option Id
}.

Record DbScheduledPost : Type := {
  post_row_id : Id;
  user_id : Id;
  content_raw : string;
  scheduled_at : Z;
  timezone : string;
  post_status : PostStatus;
  media_manifest : list Id;
  metadata : Metadata;
  post_created_at : Z;
  post_updated_at : Z;
  post_published_at : option Z
}.

Record DbScheduledPostTarget : Type := {
  target_id : Id;
  post_id : Id;
  platform : Platform;
  content_final : string;
  status : TargetStatus;
  attempt_count : Z;
  last_error : option string;
  last_attempt_at : option Z;
  platform_post_id : option string;
  platform_post_url : option string;
  created_at : Z;
  updated_at : Z;
  published_at : option Z
}.

Record DbMediaAsset : Type := {
  asset_id : Id;
  asset_user_id : Id
}.

Record Store : Type := {
  social_accounts : list DbSocialAccount;
  scheduled_posts : list DbScheduledPost;
  scheduled_post_targets : list DbScheduledPostTarget;
  media_assets : list DbMediaAsset
}.

Definition with_posts (db : Store) (ps : list DbScheduledPost) : Store :=
  {| social_accounts := social_accounts db;
     scheduled_posts := ps;
     scheduled_post_targets := scheduled_post_targets db;
     media_assets := media_assets db |}.

Definition with_targets (db : Store) (ts : list DbScheduledPostTarget) : Store :=
  {| social_accounts := social_accounts db;
     scheduled_posts := scheduled_posts db;
     scheduled_post_targets := ts;
     media_assets := media_assets db |}.

(** *** Query-builder primitives *)

(** [.single()]: the one matching row, an error when there are none or
    several. *)
Definition single {A} (rows : list A) : option A :=
  match rows with
  | [r] => Some r
  | _ => None
  end.

(** [UPDATE scheduled_post_targets SET ... WHERE sel]: [set] gives the new
    column values, the [BEFORE UPDATE] trigger stamps [updated_at] with the
    statement time [now] on every row it touches. *)
Definition stamp_target (now : Z) (t : DbScheduledPostTarget) : DbScheduledPostTarget :=
  {| target_id := target_id t; post_id := post_id t; platform := platform t;
     content_final := content_final t; status := status t;
     attempt_count := attempt_count t; last_error := last_error t;
     last_attempt_at := last_attempt_at t;
     platform_post_id := platform_post_id t;
     platform_post_url := platform_post_url t;
     created_at := created_at t; updated_at := now;
     published_at := published_at t |}.

Definition update_targets
    (sel : DbScheduledPostTarget -> bool)
    (set : DbScheduledPostTarget -> DbScheduledPostTarget)
    (now : Z) (db : Store) : Store :=
  with_targets db
    (map (fun t => if sel t then stamp_target now (set t) else t)
         (scheduled_post_targets db)).

Definition stamp_post (now : Z) (p : DbScheduledPost) : DbScheduledPost :=
  {| post_row_id := post_row_id p; user_id := user_id p;
     content_raw := content_raw p; scheduled_at := scheduled_at p;
     timezone := timezone p; post_status := post_status p;
     media_manifest := media_manifest p; metadata := metadata p;
     post_created_at := post_created_at p; post_updated_at := now;
     post_published_at := post_published_at p |}.

Definition update_posts
    (sel : DbScheduledPost -> bool)
    (set : DbScheduledPost -> DbScheduledPost)
    (now : Z) (db : Store) : Store :=
  with_posts db
    (map (fun p => if sel p then stamp_post now (set p) else p)
         (scheduled_posts db)).

(** Column setters used in the [.update({...})] payloads. *)
Definition set_status (s : TargetStatus) (t : DbScheduledPostTarget) :=
  {| target_id := target_id t; post_id := post_id t; platform := platform t;
     content_final := content_final t; status := s;
     attempt_count := attempt_count t; last_error := last_error t;
     last_attempt_at := last_attempt_at t;
     platform_post_id := platform_post_id t;
     platform_post_url := platform_post_url t;
     created_at := created_at t; updated_at := updated_at t;
     published_at := published_at t |}.

Definition set_last_error (e : option string) (t : DbScheduledPostTarget) :=
  {| target_id := target_id t; post_id := post_id t; platform := platform t;
     content_final := content_final t; status := status t;
     attempt_count := attempt_count t; last_error := e;
     last_attempt_at := last_attempt_at t;
     platform_post_id := platform_post_id t;
     platform_post_url := platform_post_url t;
     created_at := created_at t; updated_at := updated_at t;
     published_at := published_at t |}.

Definition set_attempt (n : Z) (at_ : Z) (t : DbScheduledPostTarget) :=
  {| target_id := target_id t; post_id := post_id t; platform := platform t;
     content_final := content_final t; status := status t;
     attempt_count := n; last_error := last_error t;
     last_attempt_at := Some at_;
     platform_post_id := platform_post_id t;
     platform_post_url := platform_post_url t;
     created_at := created_at t; updated_at := updated_at t;
     published_at := published_at t |}.

Definition set_published (pid purl : option string) (at_ : Z)
    (t : DbScheduledPostTarget) :=
  {| target_id := target_id t; post_id := post_id t; platform := platform t;
     content_final := content_final t; status := status t;
     attempt_count := attempt_count t; last_error := last_error t;
     last_attempt_at := last_attempt_at t;
     platform_post_id := pid; platform_post_url := purl;
     created_at := created_at t; updated_at := updated_at t;
     published_at := Some at_ |}.

Definition set_post_status (s : PostStatus) (p : DbScheduledPost) :=
  {| post_row_id := post_row_id p; user_id := user_id p;
     content_raw := content_raw p; scheduled_at := scheduled_at p;
     timezone := timezone p; post_status := s;
     media_manifest := media_manifest p; metadata := metadata p;
     post_created_at := post_created_at p;
     post_updated_at := post_updated_at p;
     post_published_at := post_published_at p |}.

Definition set_post_published_at (at_ : option Z) (p : DbScheduledPost) :=
  {| post_row_id := post_row_id p; user_id := user_id p;
     content_raw := content_raw p; scheduled_at := scheduled_at p;
     timezone := timezone p; post_status := post_status p;
     media_manifest := media_manifest p; metadata := metadata p;
     post_created_at := post_created_at p;
     post_updated_at := post_updated_at p;
     post_published_at := at_ |}.

Definition set_post_metadata (m : Metadata) (p : DbScheduledPost) :=
  {| post_row_id := post_row_id p; user_id := user_id p;
     content_raw := content_raw p; scheduled_at := scheduled_at p;
     timezone := timezone p; post_status := post_status p;
     media_manifest := media_manifest p; metadata := m;
     post_created_at := post_created_at p;
     post_updated_at := post_updated_at p;
     post_published_at := post_published_at p |}.

(** [.from("scheduled_posts").select(...).eq("id", id).single()] *)
Definition find_post (db : Store) (id : Id) : option DbScheduledPost :=
  single (filter (fun p => Nat.eqb (post_row_id p) id) (scheduled_posts db)).

(** [.from("scheduled_post_targets").select("*, scheduled_posts(...)")
     .eq("id", id).single()]: the row and its embedded parent ([null] when
    the parent row is missing). *)
Definition fetch_target (db : Store) (id : Id)
  : option (DbScheduledPostTarget * option DbScheduledPost) :=
  match single (filter (fun t => Nat.eqb (target_id t) id)
                       (scheduled_post_targets db)) with
  | Some t => Some (t, find_post db (post_id t))
  | None => None
  end.

(** [.from("social_accounts").select(...).eq("user_id", u)
     .eq("platform", p).single()] *)
Definition fetch_account (db : Store) (u : Id) (p : Platform)
  : option DbSocialAccount :=
  single (filter (fun a => Nat.eqb (account_user_id a) u
                           && Platform_eqb (account_platform a) p)
                 (social_accounts db)).

(** The two handler generations in the repository: the self-contained
    functions at [supabase/functions/<name>] and the ones under
    [supabase/functions/scheduling/<name>] built on [common/_shared]. *)
Inductive Variant : Type := Flat | Scheduling.

(** ** HTTP envelope *)

Inductive Method : Type := OPTIONS | POST | PATCH | OtherMethod.

Definition Method_eqb (a b : Method) : bool :=
  match a, b with
  | OPTIONS, OPTIONS | POST, POST | PATCH, PATCH
  | OtherMethod, OtherMethod => true
  | _, _ => false
  end.

(** The failure named by an error body.  The [scheduling/] functions send it
    as [error.code]; the flat ones send only the matching message. *)
Inductive ErrorCode : Type :=
  | METHOD_NOT_ALLOWED | UNAUTHORIZED | VALIDATION_ERROR | NOT_FOUND
  | FORBIDDEN | INVALID_STATUS | MAX_RETRIES_EXCEEDED | NO_ACCOUNT
  | INVALID_SCHEDULE_TIME | MISSING_CONNECTIONS | INVALID_MEDIA_ASSETS
  | CREATE_FAILED | CANCEL_FAILED | WORKER_ERROR | INTERNAL_ERROR.

(** One entry of the worker's [results] array. *)
Record WorkerResult : Type := {
  result_targetId : Id;
  result_platform : Platform;
  result_success : bool
}.

Inductive Payload : Type :=
  | PError (code : ErrorCode)
  | PSent (targetId : Id) (platformPostId platformPostUrl : option string)
  | PNotSent (targetId : Id) (newStatus : TargetStatus)
             (error : option string) (attemptCount : Z) (willRetry : bool)
  | PCancelled (postId : Id) (targetsUpdated : nat)
  | PCreated (post : DbScheduledPost) (targets : list DbScheduledPostTarget)
  | PNoTargets
  | PCycle (processed succeeded failed : nat) (results : list WorkerResult).

(** [Preflight] is the plain-text answer to OPTIONS; [Json st s p] is a JSON
    body sent with HTTP status [st] whose [success] key is [s] ([None] when
    the body has no such key). *)
Inductive Response : Type :=
  | Preflight
  | Json (http_status : Z) (success : option bool) (payload : Payload).

Definition errorResponse (st : Z) (code : ErrorCode) : Response :=
  Json st (Some false) (PError code).

Definition successResponse (st : Z) (p : Payload) : Response :=
  Json st (Some true) p.

(** ** Status aggregator ([updatePostStatus], [updatePostStatusIfComplete]) *)

Definition count_status (s : TargetStatus) (statuses : list TargetStatus) : nat :=
  length (filter (TargetStatus_eqb s) statuses).

(** [statuses.some((s) => ["queued","retrying","publishing"].includes(s))] *)
Definition hasPending (statuses : list TargetStatus) : bool :=
  existsb (includes TargetStatus_eqb [queued; retrying; publishing]) statuses.

(** The [if / else if] chain that picks [newStatus]. *)
Definition newPostStatus (statuses : list TargetStatus) : PostStatus :=
  let sentCount := count_status sent statuses in
  let failedCount := count_status failed statuses in
  if Nat.eqb sentCount (length statuses) then PostPublished
  else if Nat.eqb failedCount (length statuses) then PostFailed
  else if Nat.ltb 0 sentCount then PostPartial
  else PostFailed.

(** [published_at: sent > 0 ? new Date().toISOString() : null] *)
Definition newPublishedAt (statuses : list TargetStatus) (now : Z) : option Z :=
  if Nat.ltb 0 (count_status sent statuses) then Some now else None.

(** [updatePostStatus(supabase, postId)] of [publish-post/index.ts]; [now]
    is the clock when the post row is written. *)
Definition updatePostStatus (db : Store) (postId : Id) (now : Z) : Store :=
  let targets :=
    filter (fun t => Nat.eqb (post_id t) postId) (scheduled_post_targets db) in
  match targets with
  | [] => db
  | _ :: _ =>
      let statuses := map status targets in
      if hasPending statuses then db
      else
        update_posts
          (fun p => Nat.eqb (post_row_id p) postId)
          (fun p => set_post_published_at (newPublishedAt statuses now)
                      (set_post_status (newPostStatus statuses) p))
          now db
  end.

(** [updatePostStatusIfComplete] of [scheduling/publish-post/index.ts]: the
    same statements, plus logging. *)
Definition updatePostStatusIfComplete (db : Store) (postId : Id) (now : Z) : Store :=
  let targets :=
    filter (fun t => Nat.eqb (post_id t) postId) (scheduled_post_targets db) in
  if Nat.eqb (length targets) 0 then db
  else
    let statuses := map status targets in
    if hasPending statuses then db
    else
      let sentCount := count_status sent statuses in
      let failedCount := count_status failed statuses in
      let newStatus :=
        if Nat.eqb sentCount (length statuses) then PostPublished
        else if Nat.eqb failedCount (length statuses) then PostFailed
        else if Nat.ltb 0 sentCount then PostPartial
        else PostFailed in
      update_posts
        (fun p => Nat.eqb (post_row_id p) postId)
        (fun p => set_post_published_at
                    (if Nat.ltb 0 sentCount then Some now else None)
                    (set_post_status newStatus p))
        now db.

Definition aggregate (v : Variant) : Store -> Id -> Z -> Store :=
  match v with
  | Flat => updatePostStatus
  | Scheduling => updatePostStatusIfComplete
  end.

(** ** Delivery executor ([publish-post/index.ts]) *)

(** What [publishToPlatform] resolves to. *)
Record PublishResult : Type := {
  publish_success : bool;
  postId : option string;
  postUrl : option string;
  publish_error : option string
}.

(** What one run of the handler takes from outside the store: the
    publisher's answer and the clock at the places the handler reads it. *)
Record PublishOracle : Type := {
  platform_answer : PublishResult;
  clock_no_account : Z;   (* [new Date()] in the no-account update *)
  clock_mark : Z;         (* statement time of the [publishing] update *)
  clock_attempt : Z;      (* [const now = new Date()] after the publisher returns *)
  clock_aggregate : Z     (* [new Date()] inside the aggregator *)
}.

Record PublishRequest : Type := {
  publish_method : Method;
  internal_key_ok : bool;          (* [internalKey === serviceKey] *)
  publish_body : option Id         (* [targetId] when the body validates *)
}.

Definition no_account_message (v : Variant) : string :=
  match v with
  | Flat => "No connected account"
  | Scheduling => "No connected social account for this platform"
  end.

(** The payload of the no-account update. *)
Definition mark_no_account (v : Variant) (target : DbScheduledPostTarget) (now : Z)
    (t : DbScheduledPostTarget) : DbScheduledPostTarget :=
  set_attempt (attempt_count target + 1) now
    (set_last_error (Some (no_account_message v)) (set_status failed t)).

(** The payload of the update after a successful publish. *)
Definition mark_sent (target : DbScheduledPostTarget) (result : PublishResult)
    (now : Z) (t : DbScheduledPostTarget) : DbScheduledPostTarget :=
  set_last_error None
    (set_published (postId result) (postUrl result) now
       (set_attempt (attempt_count target + 1) now (set_status sent t))).

(** The payload of the update after a failed publish. *)
Definition mark_not_sent (newStatus : TargetStatus) (result : PublishResult)
    (newAttempt : Z) (now : Z) (t : DbScheduledPostTarget) : DbScheduledPostTarget :=
  set_attempt newAttempt now
    (set_last_error (publish_error result) (set_status newStatus t)).

Definition by_target_id (id : Id) (t : DbScheduledPostTarget) : bool :=
  Nat.eqb (target_id t) id.

(** The handler passed to [serve], run without interruption. *)
Definition publishPost (v : Variant) (o : PublishOracle)
    (db : Store) (req : PublishRequest) : Store * Response :=
  if Method_eqb (publish_method req) OPTIONS then (db, Preflight)
  else if negb (Method_eqb (publish_method req) POST) then
    (db, errorResponse 405 METHOD_NOT_ALLOWED)
  else if negb (internal_key_ok req) then (db, errorResponse 401 UNAUTHORIZED)
  else
    match publish_body req with
    | None => (db, errorResponse 400 VALIDATION_ERROR)
    | Some targetId =>
        match fetch_target db targetId with
        | None => (db, errorResponse 404 NOT_FOUND)
        | Some (target, parent) =>
            if negb (includes TargetStatus_eqb [queued; retrying] (status target))
            then (db, errorResponse 400 INVALID_STATUS)
            else if attempt_count target >=? Backoff.MAX_RETRY_ATTEMPTS
            then (db, errorResponse 400 MAX_RETRIES_EXCEEDED)
            else
              match parent with
              | None =>
                  (* [target.scheduled_posts.user_id] throws on [null] *)
                  (db, errorResponse 500 INTERNAL_ERROR)
              | Some post =>
                  match fetch_account db (user_id post) (platform target) with
                  | None =>
                      let db1 :=
                        update_targets (by_target_id targetId)
                          (mark_no_account v target (clock_no_account o))
                          (clock_no_account o) db in
                      (db1, errorResponse 400 NO_ACCOUNT)
                  | Some account =>
                      let db1 :=
                        update_targets (by_target_id targetId)
                          (set_status publishing) (clock_mark o) db in
                      let result := platform_answer o in
                      let now := clock_attempt o in
                      let newAttempt := attempt_count target + 1 in
                      if publish_success result then
                        let db2 :=
                          update_targets (by_target_id targetId)
                            (mark_sent target result now) now db1 in
                        let db3 :=
                          aggregate v db2 (post_row_id post) (clock_aggregate o) in
                        (db3, successResponse 200
                                (PSent targetId (postId result) (postUrl result)))
                      else
                        let newStatus :=
                          if newAttempt <? Backoff.MAX_RETRY_ATTEMPTS
                          then retrying else failed in
                        let db2 :=
                          update_targets (by_target_id targetId)
                            (mark_not_sent newStatus result newAttempt now)
                            now db1 in
                        let db3 :=
                          aggregate v db2 (post_row_id post) (clock_aggregate o) in
                        (db3, successResponse 200
                                (PNotSent targetId newStatus (publish_error result)
                                   newAttempt
                                   (TargetStatus_eqb newStatus retrying)))
                  end
              end
        end
    end.

(** *** The same handler, one awaited call at a time

    Each constructor is a point at which the handler is suspended on an
    [await]; [attempt_step] performs the store call (or the publisher call)
    it is waiting for and moves to the next suspension point.  The values
    carried along are the handler's local variables: [target] is the row as
    it was read by the first query. *)

Inductive Attempt : Type :=
  | AStart (targetId : Id)
  | AChecked (targetId : Id) (target : DbScheduledPostTarget)
             (post : DbScheduledPost)
  | ANoAccount (targetId : Id) (target : DbScheduledPostTarget)
  | AReady (targetId : Id) (target : DbScheduledPostTarget)
           (post : DbScheduledPost) (account : DbSocialAccount)
  | AMarked (targetId : Id) (target : DbScheduledPostTarget)
            (post : DbScheduledPost) (account : DbSocialAccount)
  | APublished (targetId : Id) (target : DbScheduledPostTarget)
               (post : DbScheduledPost) (result : PublishResult)
  | ARecorded (postId : Id) (r : Response)
  | ADone (r : Response).

Definition attempt_step (v : Variant) (o : PublishOracle)
    (db : Store) (a : Attempt) : Store * Attempt :=
  match a with
  | AStart targetId =>
      match fetch_target db targetId with
      | None => (db, ADone (errorResponse 404 NOT_FOUND))
      | Some (target, parent) =>
          if negb (includes TargetStatus_eqb [queued; retrying] (status target))
          then (db, ADone (errorResponse 400 INVALID_STATUS))
          else if attempt_count target >=? Backoff.MAX_RETRY_ATTEMPTS
          then (db, ADone (errorResponse 400 MAX_RETRIES_EXCEEDED))
          else match parent with
               | None => (db, ADone (errorResponse 500 INTERNAL_ERROR))
               | Some post => (db, AChecked targetId target post)
               end
      end
  | AChecked targetId target post =>
      match fetch_account db (user_id post) (platform target) with
      | None => (db, ANoAccount targetId target)
      | Some account => (db, AReady targetId target post account)
      end
  | ANoAccount targetId target =>
      (update_targets (by_target_id targetId)
         (mark_no_account v target (clock_no_account o))
         (clock_no_account o) db,
       ADone (errorResponse 400 NO_ACCOUNT))
  | AReady targetId target post account =>
      (update_targets (by_target_id targetId)
         (set_status publishing) (clock_mark o) db,
       AMarked targetId target post account)
  | AMarked targetId target post account =>
      (db, APublished targetId target post (platform_answer o))
  | APublished targetId target post result =>
      let now := clock_attempt o in
      let newAttempt := attempt_count target + 1 in
      if publish_success result then
        (update_targets (by_target_id targetId)
           (mark_sent target result now) now db,
         ARecorded (post_row_id post)
           (successResponse 200
              (PSent targetId (postId result) (postUrl result))))
      else
        let newStatus :=
          if newAttempt <? Backoff.MAX_RETRY_ATTEMPTS
          then retrying else failed in
        (update_targets (by_target_id targetId)
           (mark_not_sent newStatus result newAttempt now) now db,
         ARecorded (post_row_id post)
           (successResponse 200
              (PNotSent targetId newStatus (publish_error result) newAttempt
                 (TargetStatus_eqb newStatus retrying))))
  | ARecorded postId r =>
      (aggregate v db postId (clock_aggregate o), ADone r)
  | ADone r => (db, ADone r)
  end.

Fixpoint attempt_run (v : Variant) (o : PublishOracle) (n : nat)
    (db : Store) (a : Attempt) : Store * Attempt :=
  match n with
  | O => (db, a)
  | S n' =>
      let '(db1, a1) := attempt_step v o db a in
      attempt_run v o n' db1 a1
  end.

(** Two invocations of the handler against one store.  The schedule says
    whose pending call the store serves next. *)
Inductive Who : Type := First | Second.

Fixpoint interleave (v : Variant) (o1 o2 : PublishOracle) (sched : list Who)
    (db : Store) (a1 a2 : Attempt) : Store * Attempt * Attempt :=
  match sched with
  | [] => (db, a1, a2)
  | First :: rest =>
      let '(db', a1') := attempt_step v o1 db a1 in
      interleave v o1 o2 rest db' a1' a2
  | Second :: rest =>
      let '(db', a2') := attempt_step v o2 db a2 in
      interleave v o1 o2 rest db' a1 a2'
  end.

(** ** Scheduling worker ([schedule-worker/index.ts]) *)

Definition BATCH_SIZE : nat := 50.

(** A target row with its embedded parent ([scheduled_posts!inner(...)]). *)
Definition TargetWithPost : Type := DbScheduledPostTarget * DbScheduledPost.

(** The inner join behind both worker queries: target rows in storage
    order, each with its parent; rows without a parent drop out. *)
Definition inner_join (db : Store) : list TargetWithPost :=
  flat_map
    (fun t => match find_post db (post_id t) with
              | Some p => [(t, p)]
              | None => []
              end)
    (scheduled_post_targets db).

(** [.order("scheduled_posts(scheduled_at)", { ascending: true })] *)
Fixpoint insert_by_scheduled_at (x : TargetWithPost) (rows : list TargetWithPost)
  : list TargetWithPost :=
  match rows with
  | [] => [x]
  | y :: rest =>
      if scheduled_at (snd x) <=? scheduled_at (snd y)
      then x :: y :: rest
      else y :: insert_by_scheduled_at x rest
  end.

Fixpoint order_by_scheduled_at (rows : list TargetWithPost) : list TargetWithPost :=
  match rows with
  | [] => []
  | x :: rest => insert_by_scheduled_at x (order_by_scheduled_at rest)
  end.

(** The [WHERE] part of the first query. *)
Definition is_due (now : Z) (r : TargetWithPost) : bool :=
  TargetStatus_eqb (status (fst r)) queued
  && PostStatus_eqb (post_status (snd r)) PostQueued
  && (scheduled_at (snd r) <=? now).

(** Query 1.  Only the [scheduling/] worker has the [.order(...)] call. *)
Definition queuedTargets (v : Variant) (db : Store) (now : Z) : list TargetWithPost :=
  let matching := filter (is_due now) (inner_join db) in
  match v with
  | Scheduling => firstn BATCH_SIZE (order_by_scheduled_at matching)
  | Flat => firstn BATCH_SIZE matching
  end.

(** Query 2. *)
Definition retryingTargets (db : Store) : list TargetWithPost :=
  firstn BATCH_SIZE
    (filter
       (fun r => TargetStatus_eqb (status (fst r)) retrying
                 && (attempt_count (fst r) <? Backoff.MAX_RETRY_ATTEMPTS)
                 && includes PostStatus_eqb
                      [PostQueued; PostPublishing; PostPartial]
                      (post_status (snd r)))
       (inner_join db)).

(** [[...new Set(ids)]] *)
Fixpoint unique_from (seen ids : list Id) : list Id :=
  match ids with
  | [] => []
  | x :: rest =>
      if existsb (Nat.eqb x) seen then unique_from seen rest
      else x :: unique_from (x :: seen) rest
  end.

Definition unique (ids : list Id) : list Id := unique_from [] ids.

(** What one [fetch] to the publish endpoint meets: a transport failure
    ([fetch] or [res.json()] throws and the endpoint is not run), or a run of
    the endpoint under its own oracle. *)
Record Call : Type := {
  fetch_throws : bool;
  endpoint : PublishOracle
}.

Record WorkerOracle : Type := {
  cycle_now : Z;            (* [const now = new Date()] used in query 1 *)
  backoff_now : Z;          (* [Date.now()] in the backoff filter *)
  claim_now : Z;            (* statement time of the post update *)
  call : Id -> Call
}.

Record WorkerRequest : Type := {
  worker_method : Method;
  authorization_has_key : bool;   (* [authHeader.includes(serviceKey)] *)
  worker_internal_key_ok : bool   (* [internalKey === serviceKey] *)
}.

(** [res.ok] *)
Definition response_ok (http_status : Z) : bool :=
  (200 <=? http_status) && (http_status <=? 299).

(** [res.ok && json.success], read as a condition. *)
Definition envelope_success (r : Response) : bool :=
  match r with
  | Preflight => false        (* [res.json()] throws on the plain body *)
  | Json st s _ =>
      response_ok st && match s with Some b => b | None => false end
  end.

(** The request the worker sends for one target. *)
Definition publish_request (targetId : Id) : PublishRequest :=
  {| publish_method := POST; internal_key_ok := true;
     publish_body := Some targetId |}.

(** The [for (const target of allTargets)] loop. *)
Fixpoint dispatch (v : Variant) (calls : Id -> Call) (db : Store)
    (targets : list TargetWithPost) : Store * list WorkerResult :=
  match targets with
  | [] => (db, [])
  | r :: rest =>
      let target := fst r in
      let c := calls (target_id target) in
      let '(db1, ok) :=
        if fetch_throws c then (db, false)
        else
          let '(db', res) :=
            publishPost v (endpoint c) db (publish_request (target_id target)) in
          (db', envelope_success res) in
      let '(db2, results) := dispatch v calls db1 rest in
      (db2,
       {| result_targetId := target_id target;
          result_platform := platform target;
          result_success := ok |} :: results)
  end.

Definition worker_authorized (v : Variant) (req : WorkerRequest) : bool :=
  match v with
  | Flat => authorization_has_key req || worker_internal_key_ok req
  | Scheduling =>
      (* the key is only looked at for non-cron, non-POST requests *)
      if negb (authorization_has_key req)
         && negb (Method_eqb (worker_method req) POST)
      then worker_internal_key_ok req
      else true
  end.

Definition backoff_filter (v : Variant) : Z -> option Z -> Z -> bool :=
  match v with
  | Flat => Backoff.shouldRetry
  | Scheduling => Backoff.shouldRetryTarget
  end.

Definition runCycle (v : Variant) (o : WorkerOracle)
    (db : Store) (req : WorkerRequest) : Store * Response :=
  if negb (worker_authorized v req) then (db, errorResponse 401 UNAUTHORIZED)
  else
    let queuedRows := queuedTargets v db (cycle_now o) in
    let retryRows := retryingTargets db in
    let eligibleRetries :=
      filter (fun r => backoff_filter v (attempt_count (fst r))
                         (last_attempt_at (fst r)) (backoff_now o))
             retryRows in
    let allTargets := queuedRows ++ eligibleRetries in
    match allTargets with
    | [] => (db, successResponse 200 PNoTargets)
    | _ :: _ =>
        let postIds := unique (map (fun r => post_row_id (snd r)) allTargets) in
        let db1 :=
          update_posts
            (fun p => existsb (Nat.eqb (post_row_id p)) postIds
                      && PostStatus_eqb (post_status p) PostQueued)
            (set_post_status PostPublishing) (claim_now o) db in
        let '(db2, results) := dispatch v (call o) db1 allTargets in
        let succeeded := length (filter result_success results) in
        let failedCount :=
          length (filter (fun r => negb (result_success r)) results) in
        (db2, successResponse 200
                (PCycle (length results) succeeded failedCount results))
    end.

(** ** Cancellation handler ([cancel-scheduled-post/index.ts]) *)

Record CancelRequest : Type := {
  cancel_method : Method;
  cancel_user : option Id;     (* the user the bearer token verifies to *)
  cancel_body : option Id      (* [postId] when the body validates *)
}.

Definition cancellable_target (postId : Id) (t : DbScheduledPostTarget) : bool :=
  Nat.eqb (post_id t) postId
  && includes TargetStatus_eqb [queued; retrying; publishing] (status t).

(** The payload of the target update. *)
Definition mark_cancelled (t : DbScheduledPostTarget) : DbScheduledPostTarget :=
  set_last_error (Some "Post cancelled by user"%string) (set_status cancelled t).

(** The payload of the post update: the [scheduling/] handler also records
    who cancelled and when. *)
Definition cancel_post_payload (v : Variant) (scheduledPost : DbScheduledPost)
    (userId : Id) (now : Z) (p : DbScheduledPost) : DbScheduledPost :=
  match v with
  | Flat => set_post_status PostCancelled p
  | Scheduling =>
      set_post_metadata
        {| variants := variants (metadata scheduledPost);
           cancelledAt := Some now;
           cancelledBy := Some userId |}
        (set_post_status PostCancelled p)
  end.

Definition cancelScheduledPost (v : Variant) (now : Z)
    (db : Store) (req : CancelRequest) : Store * Response :=
  if Method_eqb (cancel_method req) OPTIONS then (db, Preflight)
  else if negb (Method_eqb (cancel_method req) PATCH) then
    (db, errorResponse 405 METHOD_NOT_ALLOWED)
  else
    match cancel_user req with
    | None => (db, errorResponse 401 UNAUTHORIZED)
    | Some userId =>
        match cancel_body req with
        | None => (db, errorResponse 400 VALIDATION_ERROR)
        | Some postId =>
            match find_post db postId with
            | None => (db, errorResponse 404 NOT_FOUND)
            | Some scheduledPost =>
                if negb (Nat.eqb (user_id scheduledPost) userId) then
                  (db, errorResponse 403 FORBIDDEN)
                else if includes PostStatus_eqb [PostPublished; PostCancelled]
                          (post_status scheduledPost) then
                  (db, errorResponse 400 INVALID_STATUS)
                else
                  let db1 :=
                    update_posts
                      (fun p => Nat.eqb (post_row_id p) postId)
                      (cancel_post_payload v scheduledPost userId now)
                      now db in
                  let updatedTargets :=
                    filter (cancellable_target postId)
                           (scheduled_post_targets db1) in
                  let db2 :=
                    update_targets (cancellable_target postId)
                      mark_cancelled now db1 in
                  (db2, successResponse 200
                          (PCancelled postId (length updatedTargets)))
            end
        end
    end.

(** ** Creation handler ([create-scheduled-post/index.ts]) *)

(** The platform names of the [platform_type] enum. *)
Definition platform_of_string (s : string) : option Platform :=
  if String.eqb s "twitter" then Some twitter
  else if String.eqb s "linkedin" then Some linkedin
  else if String.eqb s "instagram" then Some instagram
  else if String.eqb s "facebook" then Some facebook
  else if String.eqb s "threads" then Some threads
  else if String.eqb s "tiktok" then Some tiktok
  else if String.eqb s "youtube" then Some youtube
  else None.

(** The JSON body, with [scheduledAt] already read as a time. *)
Record CreateBody : Type := {
  contentRaw : string;
  platforms : list string;
  scheduledAt : Z;
  body_timezone : string;
  mediaAssetIds : option (list Id);
  body_variants : option (list (string * string))
}.

Record CreateRequest : Type := {
  create_method : Method;
  create_user : option Id;           (* the user the bearer token verifies to *)
  create_body : option CreateBody    (* [None]: not JSON / not of the shape *)
}.

(** What one creation takes from outside the store contents: the handler's
    clock, the keys and the [NOW()] the store fills in for the columns the
    insert payloads leave to their defaults, and whether a statement is
    refused for a reason other than the constraints modelled below. *)
Record CreateOracle : Type := {
  create_now : Z;            (* [new Date()] compared with [scheduledAt] *)
  post_insert_now : Z;       (* the store's [NOW()] at the post insert *)
  targets_insert_now : Z;    (* the store's [NOW()] at the target insert *)
  new_post_id : Id;
  new_target_id : nat -> Id;
  post_insert_fault : bool;
  targets_insert_fault : bool
}.

(** [CreateScheduledPostRequestSchema] / [CreatePostSchema] *)
Definition validate_create (v : Variant) (b : CreateBody) : bool :=
  match v with
  | Scheduling =>
      Nat.leb 1 (String.length (contentRaw b))
      && (Z.of_nat (String.length (contentRaw b)) <=? 50000)
      && Nat.leb 1 (length (platforms b))
      && forallb (fun s => match platform_of_string s with
                           | Some _ => true | None => false end)
                 (platforms b)
  | Flat =>
      Nat.leb 1 (String.length (contentRaw b))
      && Nat.leb 1 (String.length (body_timezone b))
      && Nat.leb 1 (length (platforms b))
  end.

(** [body.variants?.[platform] ?? body.contentRaw] *)
Fixpoint lookup_variant (vs : list (string * string)) (name : string) : option string :=
  match vs with
  | [] => None
  | (k, c) :: rest => if String.eqb k name then Some c else lookup_variant rest name
  end.

Definition content_for (b : CreateBody) (name : string) : string :=
  match body_variants b with
  | Some vs => match lookup_variant vs name with
               | Some c => c
               | None => contentRaw b
               end
  | None => contentRaw b
  end.

(** [INSERT INTO scheduled_posts]: refused on a primary-key clash or an
    empty [content_raw] (the column's CHECK). *)
Definition insert_post (db : Store) (p : DbScheduledPost) : option Store :=
  if existsb (fun q => Nat.eqb (post_row_id q) (post_row_id p)) (scheduled_posts db)
     || Nat.eqb (String.length (content_raw p)) 0
  then None
  else Some (with_posts db (scheduled_posts db ++ [p])).

(** A row of the bulk target insert before the store has accepted it: the
    platform is still the request's string. *)
Record TargetInsert : Type := {
  ins_id : Id;
  ins_post_id : Id;
  ins_platform : string;
  ins_content_final : string
}.

(** The row the store makes of an accepted payload row: [now] is the
    store's [NOW()], the default of [created_at] and [updated_at]. *)
Definition new_target (now : Z) (r : TargetInsert) (p : Platform)
  : DbScheduledPostTarget :=
  {| target_id := ins_id r; post_id := ins_post_id r; platform := p;
     content_final := ins_content_final r; status := queued;
     attempt_count := 0; last_error := None; last_attempt_at := None;
     platform_post_id := None; platform_post_url := None;
     created_at := now; updated_at := now; published_at := None |}.

(** One row at a time against the table built so far; the statement as a
    whole is refused when any row is: a name outside [platform_type], a
    primary-key clash, a second row for the same (post, platform), or a
    parent that does not exist. *)
Fixpoint insert_target_rows (now : Z) (posts : list DbScheduledPost)
    (table : list DbScheduledPostTarget) (rows : list TargetInsert)
  : option (list DbScheduledPostTarget) :=
  match rows with
  | [] => Some table
  | r :: rest =>
      match platform_of_string (ins_platform r) with
      | None => None
      | Some p =>
          if existsb (fun t => Nat.eqb (target_id t) (ins_id r)) table
             || existsb (fun t => Nat.eqb (post_id t) (ins_post_id r)
                                  && Platform_eqb (platform t) p) table
             || negb (existsb (fun q => Nat.eqb (post_row_id q) (ins_post_id r))
                              posts)
          then None
          else insert_target_rows now posts (table ++ [new_target now r p]) rest
      end
  end.

Definition insert_targets (now : Z) (db : Store) (rows : list TargetInsert)
  : option Store :=
  match insert_target_rows now (scheduled_posts db)
          (scheduled_post_targets db) rows with
  | Some table => Some (with_targets db table)
  | None => None
  end.

(** [DELETE FROM scheduled_posts WHERE id = ...], with the
    [ON DELETE CASCADE] of [scheduled_post_targets.post_id]. *)
Definition delete_post (db : Store) (id : Id) : Store :=
  with_targets
    (with_posts db
       (filter (fun p => negb (Nat.eqb (post_row_id p) id)) (scheduled_posts db)))
    (filter (fun t => negb (Nat.eqb (post_id t) id)) (scheduled_post_targets db)).

(** [body.platforms.map((platform) => ({ post_id, platform, content_final,
    status: "queued", ... }))], each row with the key the store will give
    it.  The payload carries no timestamp. *)
Fixpoint targetInserts_from (o : CreateOracle) (postId : Id) (b : CreateBody)
    (i : nat) (names : list string) : list TargetInsert :=
  match names with
  | [] => []
  | name :: rest =>
      {| ins_id := new_target_id o i; ins_post_id := postId;
         ins_platform := name; ins_content_final := content_for b name |}
      :: targetInserts_from o postId b (S i) rest
  end.

Definition targetInserts (o : CreateOracle) (postId : Id) (b : CreateBody)
  : list TargetInsert :=
  targetInserts_from o postId b 0%nat (platforms b).

Definition new_post (v : Variant) (o : CreateOracle) (userId : Id)
    (b : CreateBody) : DbScheduledPost :=
  {| post_row_id := new_post_id o; user_id := userId;
     content_raw := contentRaw b; scheduled_at := scheduledAt b;
     timezone := body_timezone b; post_status := PostQueued;
     media_manifest :=
       match v, mediaAssetIds b with
       | Scheduling, Some ids => ids
       | _, _ => []
       end;
     metadata :=
       {| variants :=
            match v, body_variants b with
            | Scheduling, Some vs => vs
            | _, _ => []
            end;
          cancelledAt := None; cancelledBy := None |};
     post_created_at := post_insert_now o;
     post_updated_at := post_insert_now o;
     post_published_at := None |}.

(** The connected-account check of the [scheduling/] handler:
    [body.platforms.filter((p) => !connectedPlatforms.has(p))]. *)
Definition missingPlatforms (db : Store) (userId : Id) (names : list string)
  : list string :=
  filter
    (fun name =>
       negb (existsb
               (fun a => Nat.eqb (account_user_id a) userId
                         && match platform_of_string name with
                            | Some p => Platform_eqb (account_platform a) p
                            | None => false
                            end)
               (social_accounts db)))
    names.

(** The media-ownership check of the [scheduling/] handler. *)
Definition missingAssets (db : Store) (userId : Id) (ids : list Id) : list Id :=
  filter
    (fun id =>
       negb (existsb (fun m => Nat.eqb (asset_user_id m) userId
                               && Nat.eqb (asset_id m) id)
                     (media_assets db)))
    ids.

(** The part common to both handlers, from the post insert on. *)
Definition insert_post_and_targets (v : Variant) (o : CreateOracle)
    (db : Store) (userId : Id) (b : CreateBody) : Store * Response :=
  let failure_status_post :=
    match v with Flat => CREATE_FAILED | Scheduling => INTERNAL_ERROR end in
  match (if post_insert_fault o then None
         else insert_post db (new_post v o userId b)) with
  | None => (db, errorResponse 500 failure_status_post)
  | Some db1 =>
      let createdPost := new_post v o userId b in
      let rows := targetInserts o (post_row_id createdPost) b in
      match (if targets_insert_fault o then None
             else insert_targets (targets_insert_now o) db1 rows) with
      | None =>
          (* Rollback: delete the post *)
          let db2 := delete_post db1 (post_row_id createdPost) in
          (db2, errorResponse 500 failure_status_post)
      | Some db2 =>
          let targets :=
            filter (fun t => Nat.eqb (post_id t) (post_row_id createdPost))
                   (scheduled_post_targets db2) in
          (db2, Json 201
                  (match v with Flat => None | Scheduling => Some true end)
                  (PCreated createdPost targets))
      end
  end.

Definition createScheduledPost (v : Variant) (o : CreateOracle)
    (db : Store) (req : CreateRequest) : Store * Response :=
  if Method_eqb (create_method req) OPTIONS then (db, Preflight)
  else if negb (Method_eqb (create_method req) POST) then
    (db, errorResponse 405 METHOD_NOT_ALLOWED)
  else
    match create_user req with
    | None => (db, errorResponse 401 UNAUTHORIZED)
    | Some userId =>
        match create_body req with
        | None => (db, errorResponse 400 VALIDATION_ERROR)
        | Some b =>
            if negb (validate_create v b) then
              (db, errorResponse 400 VALIDATION_ERROR)
            else if scheduledAt b <=? create_now o then
              (db, errorResponse 400 INVALID_SCHEDULE_TIME)
            else
              match v with
              | Flat => insert_post_and_targets v o db userId b
              | Scheduling =>
                  if Nat.ltb 0 (length (missingPlatforms db userId (platforms b)))
                  then (db, errorResponse 400 MISSING_CONNECTIONS)
                  else if
                    match mediaAssetIds b with
                    | Some ids =>
                        Nat.ltb 0 (length ids)
                        && Nat.ltb 0 (length (missingAssets db userId ids))
                    | None => false
                    end
                  then (db, errorResponse 400 INVALID_MEDIA_ASSETS)
                  else insert_post_and_targets v o db userId b
              end
        end
    end.

(** ** Notions used in the statements *)

(** The statuses the aggregator reads for a post: one per child target, in
    storage order. *)
Definition target_statuses (db : Store) (postId : Id) : list TargetStatus :=
  map status
    (filter (fun t => Nat.eqb (post_id t) postId) (scheduled_post_targets db)).

Definition pending (s : TargetStatus) : Prop :=
  s = queued \/ s = publishing \/ s = retrying.

Definition terminal (s : TargetStatus) : Prop :=
  s = sent \/ s = failed \/ s = cancelled.

(** The row of a target, by primary key. *)
Definition find_target (db : Store) (id : Id) : option DbScheduledPostTarget :=
  single (filter (by_target_id id) (scheduled_post_targets db)).

(** Every target row points at an existing post (the foreign key of
    [scheduled_post_targets.post_id]). *)
Definition referential_integrity (db : Store) : Prop :=
  forall t, In t (scheduled_post_targets db) ->
    exists p, In p (scheduled_posts db) /\ post_row_id p = post_id t.

(** How one handler run may change a target row's attempt bookkeeping. *)
Definition counts_one_attempt (t t' : DbScheduledPostTarget) : Prop :=
  target_id t' = target_id t
  /\ (attempt_count t' = attempt_count t
      \/ attempt_count t' = attempt_count t + 1).

Definition same_attempts (t t' : DbScheduledPostTarget) : Prop :=
  target_id t' = target_id t
  /\ attempt_count t' = attempt_count t
  /\ last_attempt_at t' = last_attempt_at t.

Definition attempts_not_decreased (t t' : DbScheduledPostTarget) : Prop :=
  target_id t' = target_id t /\ attempt_count t <= attempt_count t'.

(** What a cancellation of [postId] does to one target row: a child that
    is still queued, retrying or publishing becomes cancelled with the note,
    keeping its other columns; any other row is the same row afterwards. *)
Definition cancel_effect (postId : Id) (t t' : DbScheduledPostTarget) : Prop :=
  (post_id t = postId -> pending (status t) ->
     status t' = cancelled
     /\ last_error t' = Some "Post cancelled by user"%string
     /\ target_id t' = target_id t /\ post_id t' = post_id t
     /\ platform t' = platform t /\ content_final t' = content_final t
     /\ attempt_count t' = attempt_count t
     /\ last_attempt_at t' = last_attempt_at t
     /\ platform_post_id t' = platform_post_id t
     /\ platform_post_url t' = platform_post_url t
     /\ published_at t' = published_at t)
  /\ (post_id t <> postId \/ terminal (status t) -> t' = t).

(** A well-formed cancellation request. *)
Definition cancel_request (userId postId : Id) : CancelRequest :=
  {| cancel_method := PATCH; cancel_user := Some userId;
     cancel_body := Some postId |}.

(** Due-date order on the rows of the worker's queries. *)
Definition due_key (r : TargetWithPost) : Z := scheduled_at (snd r).

Definition earlier (r1 r2 : TargetWithPost) : Prop := due_key r1 <= due_key r2.

(** What a successful creation adds for one requested platform name. *)
Definition target_for (postId : Id) (name : string) (t : DbScheduledPostTarget)
  : Prop :=
  platform_of_string name = Some (platform t)
  /\ post_id t = postId /\ status t = queued /\ attempt_count t = 0.

(** ** Sample stores *)

Module Sample.

Definition mk_post (id owner : Id) (at_ : Z) (s : PostStatus) : DbScheduledPost :=
  {| post_row_id := id; user_id := owner; content_raw := "hello"%string;
     scheduled_at := at_; timezone := "UTC"%string; post_status := s;
     media_manifest := [];
     metadata := {| variants := []; cancelledAt := None; cancelledBy := None |};
     post_created_at := 0; post_updated_at := 0; post_published_at := None |}.

Definition mk_target (id parent : Id) (pf : Platform) (s : TargetStatus)
    (attempts : Z) (last : option Z) : DbScheduledPostTarget :=
  {| target_id := id; post_id := parent; platform := pf;
     content_final := "hello"%string; status := s; attempt_count := attempts;
     last_error := None; last_attempt_at := last;
     platform_post_id := None; platform_post_url := None;
     created_at := 0; updated_at := 0; published_at := None |}.

(** User 1 is connected to twitter only. *)
Definition accounts : list DbSocialAccount :=
  [ {| account_user_id := 1%nat; account_platform := twitter;
       access_token := "token"%string |} ].

Definition store (ps : list DbScheduledPost) (ts : list DbScheduledPostTarget)
  : Store :=
  {| social_accounts := accounts; scheduled_posts := ps;
     scheduled_post_targets := ts; media_assets := [] |}.

(** A post whose two deliveries are over: one sent, one failed. *)
Definition delivered : Store :=
  store [mk_post 10 1 1000 PostPublishing]
        [mk_target 100 10 twitter sent 1 (Some 2000);
         mk_target 101 10 linkedin failed 3 (Some 3000)].

(** A post being worked with a single queued twitter target. *)
Definition one_queued : Store :=
  store [mk_post 10 1 1000 PostPublishing]
        [mk_target 100 10 twitter queued 0 None].

(** A post being worked whose only target is for linkedin, to which the
    owner is not connected. *)
Definition unconnected : Store :=
  store [mk_post 10 1 1000 PostPublishing]
        [mk_target 101 10 linkedin queued 0 None].

(** Two due posts: the row stored first is due later. *)
Definition two_due : Store :=
  store [mk_post 10 1 2000 PostQueued; mk_post 11 1 1000 PostQueued]
        [mk_target 100 10 twitter queued 0 None;
         mk_target 101 11 twitter queued 0 None].

(** A post with one delivery done and one still waiting. *)
Definition half_done : Store :=
  store [mk_post 10 1 1000 PostPublishing]
        [mk_target 100 10 twitter sent 1 (Some 2000);
         mk_target 101 10 linkedin queued 0 None].

Definition oracle (answer : PublishResult) (t : Z) : PublishOracle :=
  {| platform_answer := answer; clock_no_account := t; clock_mark := t;
     clock_attempt := t; clock_aggregate := t |}.

Definition published_ok : PublishResult :=
  {| publish_success := true; postId := Some "abc"%string;
     postUrl := Some "https://twitter.com/i/status/abc"%string;
     publish_error := None |}.

Definition rate_limited : PublishResult :=
  {| publish_success := false; postId := None; postUrl := None;
     publish_error := Some "twitter API error: Rate limit exceeded"%string |}.

Definition worker_oracle (answer : PublishResult) (t : Z) : WorkerOracle :=
  {| cycle_now := t; backoff_now := t; claim_now := t;
     call := fun _ => {| fetch_throws := false; endpoint := oracle answer t |} |}.

Definition cron_request : WorkerRequest :=
  {| worker_method := POST; authorization_has_key := true;
     worker_internal_key_ok := true |}.

Definition create_oracle : CreateOracle :=
  {| create_now := 500; post_insert_now := 510; targets_insert_now := 520;
     new_post_id := 20; new_target_id := fun i => (200 + i)%nat;
     post_insert_fault := false; targets_insert_fault := false |}.

Definition create_request (names : list string) : CreateRequest :=
  {| create_method := POST; create_user := Some 1%nat;
     create_body :=
       Some {| contentRaw := "hello"%string; platforms := names;
               scheduledAt := 9000; body_timezone := "UTC"%string;
               mediaAssetIds := None; body_variants := None |} |}.

End Sample.

(** ** Bearer tokens ([common/_shared/auth.ts]) *)

Module Auth.

Definition space : Ascii.ascii := Ascii.ascii_of_nat 32.

(** [s.split(" ")]: the pieces between single spaces; never empty. *)
Fixpoint split_space (s : string) : list string :=
  match s with
  | EmptyString => [EmptyString]
  | String c rest =>
      if Ascii.eqb c space then EmptyString :: split_space rest
      else match split_space rest with
           | first :: others => String c first :: others
           | [] => [String c EmptyString]
           end
  end.

(** [toLowerCase] on the letters A-Z; other characters are kept.  (No
    character outside A-Z lower-cases to a letter of the names compared
    against below.) *)
Definition lower_ascii (c : Ascii.ascii) : Ascii.ascii :=
  let n := Ascii.nat_of_ascii c in
  if Nat.leb 65 n && Nat.leb n 90 then Ascii.ascii_of_nat (n + 32) else c.

Fixpoint toLowerCase (s : string) : string :=
  match s with
  | EmptyString => EmptyString
  | String c rest => String (lower_ascii c) (toLowerCase rest)
  end.

(** [extractToken(request)], on the value of the Authorization header
    ([None] when the header is absent). *)
Definition extractToken (authHeader : option string) : option string :=
  match authHeader with
  | None => None
  | Some h =>
      if String.eqb h "" then None
      else
        match split_space h with
        | scheme :: token :: _ =>
            if negb (String.eqb (toLowerCase scheme) "bearer")
               || String.eqb token ""
            then None
            else Some token
        | _ => None
        end
  end.

Fixpoint has_space (s : string) : bool :=
  match s with
  | EmptyString => false
  | String c rest => Ascii.eqb c space || has_space rest
  end.

End Auth.

(** ** Log levels ([common/_shared/logger.ts]) *)

Module Logger.







End Logger.

(** ** Further notions used in the statements *)

(** The rows one worker cycle goes on to dispatch ([allTargets]). *)
Definition cycle_targets (v : Variant) (o : WorkerOracle) (db : Store)
  : list TargetWithPost :=
  queuedTargets v db (cycle_now o)
  ++ filter (fun r => backoff_filter v (attempt_count (fst r))
                        (last_attempt_at (fst r)) (backoff_now o))
            (retryingTargets db).

(** A reply is a success envelope when it is JSON sent with a 2xx status
    whose [success] key is true. *)
Definition success_envelope (r : Response) : Prop :=
  exists st payload, r = Json st (Some true) payload /\ 200 <= st <= 299.

(** The store a cycle hands to its loop: the posts of the selected rows
    that are still queued have been marked [publishing]. *)
Definition claim_posts (o : WorkerOracle) (db : Store)
    (targets : list TargetWithPost) : Store :=
  update_posts
    (fun p => existsb (Nat.eqb (post_row_id p))
                (unique (map (fun r => post_row_id (snd r)) targets))
              && PostStatus_eqb (post_status p) PostQueued)
    (set_post_status PostPublishing) (claim_now o) db.

(** The store the loop has reached when the rows [before] have had their
    turn. *)
Definition store_at_turn (v : Variant) (o : WorkerOracle) (db : Store)
    (before : list TargetWithPost) : Store :=
  fst (dispatch v (call o) (claim_posts o db (cycle_targets v o db)) before).

(** The entry the loop pushes for a row whose turn comes after [before]:
    a failure when [fetch] throws, otherwise [res.ok && json.success] of the
    endpoint's reply. *)
Definition entry_at_turn (v : Variant) (o : WorkerOracle) (db : Store)
    (before : list TargetWithPost) (x : TargetWithPost) : WorkerResult :=
  let c := call o (target_id (fst x)) in
  {| result_targetId := target_id (fst x);
     result_platform := platform (fst x);
     result_success :=
       negb (fetch_throws c)
       && envelope_success
            (snd (publishPost v (endpoint c) (store_at_turn v o db before)
                    (publish_request (target_id (fst x))))) |}.

(** The bookkeeping a target row is expected to show: the count is between
    0 and the limit, a queued row has not been attempted, and a retrying row
    has been attempted and has attempts left. *)
Definition attempts_in_range (t : DbScheduledPostTarget) : Prop :=
  0 <= attempt_count t <= Backoff.MAX_RETRY_ATTEMPTS
  /\ (status t = queued -> attempt_count t = 0)
  /\ (status t = retrying ->
      1 <= attempt_count t < Backoff.MAX_RETRY_ATTEMPTS).

(** The statuses of the other targets of a post. *)
Definition sibling_statuses (db : Store) (postId targetId : Id)
  : list TargetStatus :=
  map status
    (filter (fun t => Nat.eqb (post_id t) postId
                      && negb (Nat.eqb (target_id t) targetId))
            (scheduled_post_targets db)).

(** Primary keys: no two target rows, and no two post rows, share an id. *)
Definition unique_keys (db : Store) : Prop :=
  NoDup (map target_id (scheduled_post_targets db))
  /\ NoDup (map post_row_id (scheduled_posts db)).

(** How a run of the publish handler may change a row: not at all, or, for
    the requested row when it was queued or retrying with attempts left, to
    sent, failed or retrying with one more attempt counted. *)
Definition attempted (req : PublishRequest) (y y' : DbScheduledPostTarget)
  : Prop :=
  publish_body req = Some (target_id y)
  /\ includes TargetStatus_eqb [queued; retrying] (status y) = true
  /\ attempt_count y < Backoff.MAX_RETRY_ATTEMPTS
  /\ target_id y' = target_id y /\ post_id y' = post_id y
  /\ platform y' = platform y /\ content_final y' = content_final y
  /\ attempt_count y' = attempt_count y + 1
  /\ (status y' = sent \/ status y' = failed
      \/ (status y' = retrying
          /\ attempt_count y + 1 < Backoff.MAX_RETRY_ATTEMPTS)).

(** ** Further sample stores *)

Module Scenario.

(** A post being worked whose only target has failed twice. *)
Definition last_try : Store :=
  Sample.store [Sample.mk_post 10 1 1000 PostPublishing]
    [Sample.mk_target 100 10 twitter retrying 2 (Some 1000)].

(** A queued post with two queued targets, due at 1000. *)
Definition fresh : Store :=
  Sample.store [Sample.mk_post 10 1 1000 PostQueued]
    [Sample.mk_target 100 10 twitter queued 0 None;
     Sample.mk_target 101 10 linkedin queued 0 None].

Definition twitter_account : DbSocialAccount :=
  {| account_user_id := 1%nat; account_platform := twitter;
     access_token := "token"%string |}.

End Scenario.

(** The request's [variants] object holds [text] under the key [name]. *)
Definition variant_given (b : CreateBody) (name text : string) : Prop :=
  exists vs, body_variants b = Some vs /\ In (name, text) vs.

(** The request has no [variants], or [variants] has no key [name]. *)
Definition no_variant (b : CreateBody) (name : string) : Prop :=
  match body_variants b with
  | None => True
  | Some vs => ~ In name (map fst vs)
  end.

(** An object holds each of its keys once. *)
Definition variant_keys_distinct (b : CreateBody) : Prop :=
  match body_variants b with
  | None => True
  | Some vs => NoDup (map fst vs)
  end.

(** What a successful creation stores in the target row for one requested
    platform name, beyond [target_for]; [now] is the store's clock at the
    insert. *)
Definition fresh_target (b : CreateBody) (now : Z) (name : string)
    (t : DbScheduledPostTarget) : Prop :=
  (forall text, variant_given b name text -> content_final t = text)
  /\ (no_variant b name -> content_final t = contentRaw b)
  /\ created_at t = now /\ updated_at t = now
  /\ last_error t = None /\ last_attempt_at t = None
  /\ platform_post_id t = None /\ platform_post_url t = None
  /\ published_at t = None.

(** * Properties *)

(** ** Generic facts about the query primitives *)

Lemma Platform_eqb_eq a b : Platform_eqb a b = true <-> a = b.
Proof. destruct a, b; simpl; split; congruence. Qed.

Lemma PostStatus_eqb_eq a b : PostStatus_eqb a b = true <-> a = b.
Proof. destruct a, b; simpl; split; congruence. Qed.

Lemma TargetStatus_eqb_eq a b : TargetStatus_eqb a b = true <-> a = b.
Proof. destruct a, b; simpl; split; congruence. Qed.

Lemma filter_map_commute {A} (sel : A -> bool) (f : A -> A) (l : list A) :
  (forall x, sel (f x) = sel x) ->
  filter sel (map f l) = map f (filter sel l).
Proof.
  intros Hsel. induction l as [|x l IH]; simpl; [reflexivity|].
  rewrite Hsel. destruct (sel x); simpl; now rewrite IH.
Qed.

Lemma single_map {A B} (f : A -> B) (l : list A) :
  single (map f l) = option_map f (single l).
Proof. destruct l as [|x [|y l]]; reflexivity. Qed.

Lemma find_post_update_posts sel set now db id :
  (forall p, post_row_id (set p) = post_row_id p) ->
  find_post (update_posts sel set now db) id =
  option_map (fun p => if sel p then stamp_post now (set p) else p)
             (find_post db id).
Proof.
  intros Hid. unfold find_post, update_posts; simpl.
  rewrite filter_map_commute, single_map; [reflexivity|].
  intros p. destruct (sel p); simpl; [now rewrite Hid | reflexivity].
Qed.

Lemma find_post_id db id p : find_post db id = Some p -> post_row_id p = id.
Proof.
  unfold find_post. intros H.
  assert (Hin : In p (filter (fun q => Nat.eqb (post_row_id q) id)
                             (scheduled_posts db))).
  { destruct (filter _ _) as [|x [|y l]]; simpl in H; try discriminate.
    injection H as ->. now left. }
  apply filter_In in Hin. now apply Nat.eqb_eq.
Qed.

(** ** Backoff policy *)

Module BackoffFacts.
Import Backoff.

Lemma shouldRetry_same a t now :
  shouldRetry a t now = shouldRetryTarget a t now.
Proof. reflexivity. Qed.

Example delay_after_0 : getBackoffDelayMs 0 = 60000.
Proof. reflexivity. Qed.
Example delay_after_1 : getBackoffDelayMs 1 = 120000.
Proof. reflexivity. Qed.
Example delay_after_2 : getBackoffDelayMs 2 = 240000.
Proof. reflexivity. Qed.

Lemma exhausted a last now :
  a >= MAX_RETRY_ATTEMPTS -> shouldRetryTarget a last now = false.
Proof.
  intros H. unfold shouldRetryTarget.
  destruct (Z.geb_spec a MAX_RETRY_ATTEMPTS); [reflexivity | lia].
Qed.

Lemma first_attempt a now :
  a < MAX_RETRY_ATTEMPTS -> shouldRetryTarget a None now = true.
Proof.
  intros H. unfold shouldRetryTarget.
  destruct (Z.geb_spec a MAX_RETRY_ATTEMPTS); [lia | reflexivity].
Qed.

Lemma after_delay a t now :
  a < MAX_RETRY_ATTEMPTS ->
  (shouldRetryTarget a (Some t) now = true <-> now >= t + 60000 * 2 ^ a).
Proof.
  intros H. unfold shouldRetryTarget, getBackoffDelayMs.
  destruct (Z.geb_spec a MAX_RETRY_ATTEMPTS); [lia|].
  change (60 * 1000) with 60000. cbv zeta.
  destruct (Z.geb_spec now (t + 60000 * 2 ^ a)); split; intros; try lia; congruence.
Qed.

(** C1. For every attempt count [a], last-attempt time and clock value,
    [shouldRetryTarget] (and the worker's own copy [shouldRetry]) is false
    once [a >= 3]; true when [a < 3] and there is no last attempt; and for an
    attempt count [0 <= a < 3] with last attempt at [t] it is true exactly
    when [now >= t + 60000 * 2^a], so false one millisecond before that
    instant and true at it. *)
Theorem shouldRetryTarget_backoff (a : Z) (last : option Z) (now : Z) :
  shouldRetry a last now = shouldRetryTarget a last now
  /\ (a >= 3 -> shouldRetryTarget a last now = false)
  /\ (a < 3 -> last = None -> shouldRetryTarget a last now = true)
  /\ (0 <= a < 3 -> forall t, last = Some t ->
        (shouldRetryTarget a last now = true <-> now >= t + 60000 * 2 ^ a))
  /\ (0 <= a < 3 -> forall t,
        shouldRetryTarget a (Some t) (t + 60000 * 2 ^ a - 1) = false
        /\ shouldRetryTarget a (Some t) (t + 60000 * 2 ^ a) = true).
Proof.
  split; [reflexivity|].
  split; [intros H; apply exhausted; unfold MAX_RETRY_ATTEMPTS; lia|].
  split; [intros H ->; apply first_attempt; unfold MAX_RETRY_ATTEMPTS; lia|].
  split.
  - intros [_ H] t ->. apply after_delay. unfold MAX_RETRY_ATTEMPTS; lia.
  - intros [_ H] t.
    assert (Hlt : a < MAX_RETRY_ATTEMPTS) by (unfold MAX_RETRY_ATTEMPTS; lia).
    split.
    + destruct (shouldRetryTarget a (Some t) (t + 60000 * 2 ^ a - 1)) eqn:E;
        [|reflexivity].
      apply (after_delay a t _ Hlt) in E. lia.
    + apply (after_delay a t _ Hlt). lia.
Qed.

(** The backoff boundaries after the second attempt ([a = 1], 120 s). *)
Lemma shouldRetryTarget_backoff_witness :
  shouldRetryTarget 1 (Some 1000) 120999 = false
  /\ shouldRetryTarget 1 (Some 1000) 121000 = true
  /\ shouldRetryTarget 2 None 0 = true
  /\ shouldRetryTarget 3 (Some 0) 999999999 = false.
Proof.
  destruct (shouldRetryTarget_backoff 1 (Some 1000) 0) as (_ & _ & _ & _ & Hb).
  destruct (Hb ltac:(lia) 1000) as [Hlo Hhi].
  destruct (shouldRetryTarget_backoff 2 None 0) as (_ & _ & Hnone & _).
  destruct (shouldRetryTarget_backoff 3 (Some 0) 999999999) as (_ & Hmax & _).
  split; [exact Hlo|].
  split; [exact Hhi|].
  split; [apply Hnone; [lia | reflexivity] | apply Hmax; lia].
Defined.

End BackoffFacts.

(** ** Status aggregator *)

Module AggregatorFacts.

Lemma variants_agree db postId now :
  updatePostStatusIfComplete db postId now = updatePostStatus db postId now.
Proof.
  unfold updatePostStatusIfComplete, updatePostStatus.
  destruct (filter _ (scheduled_post_targets db)); reflexivity.
Qed.

Lemma aggregate_flat v db postId now :
  aggregate v db postId now = updatePostStatus db postId now.
Proof. destruct v; [reflexivity | apply variants_agree]. Qed.

(** The aggregator as a function of the statuses it reads. *)
Lemma aggregate_cases v db postId now :
  aggregate v db postId now =
  match target_statuses db postId with
  | [] => db
  | _ :: _ =>
      if hasPending (target_statuses db postId) then db
      else update_posts
             (fun p => Nat.eqb (post_row_id p) postId)
             (fun p => set_post_published_at
                         (newPublishedAt (target_statuses db postId) now)
                         (set_post_status
                            (newPostStatus (target_statuses db postId)) p))
             now db
  end.
Proof.
  rewrite aggregate_flat. unfold updatePostStatus, target_statuses.
  destruct (filter _ (scheduled_post_targets db)); reflexivity.
Qed.

Lemma aggregate_targets v db postId now :
  scheduled_post_targets (aggregate v db postId now) = scheduled_post_targets db.
Proof.
  rewrite aggregate_cases.
  destruct (target_statuses db postId) as [|s l]; [reflexivity|].
  destruct (hasPending (s :: l)); reflexivity.
Qed.

Lemma aggregate_statuses v db postId now id :
  target_statuses (aggregate v db postId now) id = target_statuses db id.
Proof. unfold target_statuses. now rewrite aggregate_targets. Qed.

Lemma hasPending_true statuses :
  hasPending statuses = true <-> exists s, In s statuses /\ pending s.
Proof.
  unfold hasPending, pending. rewrite existsb_exists. split.
  - intros (s & Hin & Hs). exists s. split; [assumption|].
    destruct s; simpl in Hs; try discriminate; auto.
  - intros (s & Hin & Hs). exists s. split; [assumption|].
    destruct Hs as [-> | [-> | ->]]; reflexivity.
Qed.

Lemma hasPending_false statuses :
  (forall s, In s statuses -> terminal s) -> hasPending statuses = false.
Proof.
  intros Hall. destruct (hasPending statuses) eqn:E; [|reflexivity].
  apply (proj1 (hasPending_true _)) in E. destruct E as (s & Hin & Hp).
  destruct (Hall s Hin) as [-> | [-> | ->]];
    destruct Hp as [Hp | [Hp | Hp]]; discriminate.
Qed.

Lemma count_status_all s statuses :
  count_status s statuses = length statuses <-> (forall x, In x statuses -> x = s).
Proof.
  unfold count_status. induction statuses as [|y l IH]; simpl.
  - split; [intros _ x [] | reflexivity].
  - destruct (TargetStatus_eqb s y) eqn:E; simpl.
    + apply TargetStatus_eqb_eq in E. subst y. split.
      * intros H x [<- | Hin]; [reflexivity|]. apply IH; [lia | assumption].
      * intros H. f_equal. apply IH. intros; apply H; now right.
    + split.
      * intros H. pose proof (filter_length_le (TargetStatus_eqb s) l). lia.
      * intros H. specialize (H y (or_introl eq_refl)). subst y.
        destruct s; discriminate.
Qed.

Lemma count_status_pos s statuses :
  Nat.ltb 0 (count_status s statuses) = true <-> In s statuses.
Proof.
  unfold count_status. rewrite Nat.ltb_lt. induction statuses as [|y l IH]; simpl.
  - split; [lia | intros []].
  - destruct (TargetStatus_eqb s y) eqn:E; simpl.
    + apply TargetStatus_eqb_eq in E. subst y. split; [now left | lia].
    + split.
      * intros H. right. now apply IH.
      * intros [-> | H]; [destruct s; discriminate | now apply IH].
Qed.

Lemma newPostStatus_all_sent statuses :
  (forall s, In s statuses -> s = sent) -> newPostStatus statuses = PostPublished.
Proof.
  intros H. unfold newPostStatus.
  rewrite (proj2 (count_status_all _ _) H), Nat.eqb_refl. reflexivity.
Qed.

Lemma newPostStatus_no_sent statuses :
  statuses <> [] -> ~ In sent statuses -> newPostStatus statuses = PostFailed.
Proof.
  intros Hne Hno. unfold newPostStatus.
  assert (Hpos : Nat.ltb 0 (count_status sent statuses) = false).
  { destruct (Nat.ltb 0 (count_status sent statuses)) eqn:E; [|reflexivity].
    apply (proj1 (count_status_pos _ _)) in E. contradiction. }
  apply Nat.ltb_ge in Hpos.
  destruct (Nat.eqb_spec (count_status sent statuses) (length statuses)) as [E|E].
  - destruct statuses; [congruence | simpl in E; lia].
  - destruct (Nat.eqb (count_status failed statuses) (length statuses));
      [reflexivity|].
    destruct (Nat.ltb_spec 0 (count_status sent statuses)); [lia | reflexivity].
Qed.

Lemma newPostStatus_mixed statuses :
  In sent statuses -> (exists s, In s statuses /\ s <> sent) ->
  newPostStatus statuses = PostPartial.
Proof.
  intros Hs (x & Hx & Hne). unfold newPostStatus.
  destruct (Nat.eqb_spec (count_status sent statuses) (length statuses)) as [E|E].
  { now pose proof (proj1 (count_status_all _ _) E x Hx). }
  destruct (Nat.eqb_spec (count_status failed statuses) (length statuses)) as [F|F].
  { pose proof (proj1 (count_status_all _ _) F sent Hs). discriminate. }
  apply (proj2 (count_status_pos _ _)) in Hs. now rewrite Hs.
Qed.

Example aggregate_sent_sent :
  hasPending [sent; sent] = false /\ newPostStatus [sent; sent] = PostPublished.
Proof. split; reflexivity. Qed.

Example aggregate_sent_failed :
  hasPending [sent; failed] = false /\ newPostStatus [sent; failed] = PostPartial.
Proof. split; reflexivity. Qed.

Example aggregate_failed_failed :
  hasPending [failed; failed] = false
  /\ newPostStatus [failed; failed] = PostFailed.
Proof. split; reflexivity. Qed.

Example aggregate_sent_queued :
  aggregate Scheduling Sample.half_done 10 5000 = Sample.half_done.
Proof. reflexivity. Qed.

(** C2. For a post with at least one target: while some target is queued,
    publishing or retrying the aggregator leaves the store as it is; once
    every target is sent, failed or cancelled it rewrites the post row,
    with status published if all targets are sent, failed if none is, and
    partial if some but not all are. *)
Theorem aggregate_derives_status (v : Variant) (db : Store) (postId : Id) (now : Z) :
  target_statuses db postId <> [] ->
  ((exists s, In s (target_statuses db postId) /\ pending s) ->
     aggregate v db postId now = db)
  /\ ((forall s, In s (target_statuses db postId) -> terminal s) ->
      forall p, find_post db postId = Some p ->
      exists p',
        find_post (aggregate v db postId now) postId = Some p'
        /\ ((forall s, In s (target_statuses db postId) -> s = sent) ->
              post_status p' = PostPublished)
        /\ (~ In sent (target_statuses db postId) ->
              post_status p' = PostFailed)
        /\ (In sent (target_statuses db postId) ->
            (exists s, In s (target_statuses db postId) /\ s <> sent) ->
              post_status p' = PostPartial)).
Proof.
  intros Hne. rewrite aggregate_cases.
  destruct (target_statuses db postId) as [|s0 l] eqn:Est; [congruence|].
  rewrite <- Est in *. split.
  - intros Hp. apply (proj2 (hasPending_true _)) in Hp. now rewrite Hp.
  - intros Hterm p Hp. rewrite (hasPending_false _ Hterm).
    rewrite find_post_update_posts by reflexivity. rewrite Hp. simpl option_map.
    rewrite (find_post_id _ _ _ Hp), Nat.eqb_refl.
    eexists. split; [reflexivity|]. simpl post_status.
    split; [apply newPostStatus_all_sent|].
    split; [now apply newPostStatus_no_sent|].
    apply newPostStatus_mixed.
Qed.

(** The partial outcome on the sample post with one sent and one failed
    target. *)
Lemma aggregate_derives_status_witness :
  exists p',
    find_post (aggregate Flat Sample.delivered 10 5000) 10 = Some p'
    /\ post_status p' = PostPartial.
Proof.
  destruct (aggregate_derives_status Flat Sample.delivered 10%nat 5000)
    as [_ Hterm]; [discriminate|].
  destruct (Hterm
              ltac:(intros s [<- | [<- | []]]; unfold terminal; auto)
              (Sample.mk_post 10 1 1000 PostPublishing) eq_refl)
    as (p' & Hfind & _ & _ & Hpartial).
  exists p'. split; [exact Hfind|].
  apply Hpartial; [now left|].
  exists failed. split; [right; now left | discriminate].
Defined.

Lemma update_posts_twice sel set now db :
  (forall p, sel (stamp_post now (set p)) = sel p) ->
  (forall p, stamp_post now (set (stamp_post now (set p))) = stamp_post now (set p)) ->
  update_posts sel set now (update_posts sel set now db) =
  update_posts sel set now db.
Proof.
  intros Hsel Hset. unfold update_posts, with_posts; simpl. f_equal.
  rewrite map_map. apply map_ext. intros p.
  destruct (sel p) eqn:E.
  - now rewrite Hsel, E, Hset.
  - now rewrite E.
Qed.

(** C7 (as amended). Two aggregator runs over the same all-terminal targets
    write the same post status.  The published-at value is null both times
    when no target is sent; when some target is sent each run writes its own
    clock reading, so the two values coincide only if the readings do (in
    which case the second run leaves the store as the first left it). *)
Theorem aggregate_twice (v : Variant) (db : Store) (postId : Id)
    (now1 now2 : Z) (p : DbScheduledPost) :
  target_statuses db postId <> [] ->
  (forall s, In s (target_statuses db postId) -> terminal s) ->
  find_post db postId = Some p ->
  exists p1 p2,
    find_post (aggregate v db postId now1) postId = Some p1
    /\ find_post (aggregate v (aggregate v db postId now1) postId now2) postId
       = Some p2
    /\ post_status p2 = post_status p1
    /\ (~ In sent (target_statuses db postId) ->
          post_published_at p1 = None /\ post_published_at p2 = None)
    /\ (In sent (target_statuses db postId) ->
          post_published_at p1 = Some now1 /\ post_published_at p2 = Some now2)
    /\ (now2 = now1 ->
          aggregate v (aggregate v db postId now1) postId now2
          = aggregate v db postId now1).
Proof.
  intros Hne Hterm Hp.
  rewrite (aggregate_cases v (aggregate v db postId now1)).
  rewrite aggregate_statuses. rewrite !aggregate_cases.
  destruct (target_statuses db postId) as [|s0 l] eqn:Est; [congruence|].
  rewrite <- Est in *. rewrite (hasPending_false _ Hterm).
  rewrite !find_post_update_posts by reflexivity. rewrite Hp.
  pose proof (find_post_id _ _ _ Hp) as Hid.
  cbn [option_map]. rewrite Hid, Nat.eqb_refl.
  cbn [post_row_id stamp_post set_post_published_at set_post_status].
  rewrite Hid, Nat.eqb_refl.
  eexists. eexists. split; [reflexivity|]. split; [reflexivity|].
  cbn [post_status post_published_at stamp_post set_post_published_at
       set_post_status].
  split; [reflexivity|]. unfold newPublishedAt.
  split; [|split].
  - intros Hno.
    destruct (Nat.ltb 0 (count_status sent (target_statuses db postId))) eqn:E;
      [|now split].
    now apply (proj1 (count_status_pos _ _)) in E.
  - intros Hs. apply (proj2 (count_status_pos _ _)) in Hs. rewrite Hs. now split.
  - intros ->. apply update_posts_twice; intros q; destruct q; reflexivity.
Qed.

(** Two runs, ten seconds apart, over the sample post with one sent and
    one failed target. *)
Lemma aggregate_twice_witness :
  exists p1 p2,
    find_post (aggregate Flat Sample.delivered 10 5000) 10 = Some p1
    /\ find_post (aggregate Flat (aggregate Flat Sample.delivered 10 5000)
                    10 15000) 10 = Some p2
    /\ post_status p2 = post_status p1.
Proof.
  destruct (aggregate_twice Flat Sample.delivered 10%nat 5000 15000
              (Sample.mk_post 10 1 1000 PostPublishing))
    as (p1 & p2 & H1 & H2 & Hs & _).
  - discriminate.
  - intros s [<- | [<- | []]]; unfold terminal; auto.
  - reflexivity.
  - exists p1, p2. auto.
Defined.

(** C7 (as stated) fails: on the sample post with a sent target, a second
    run ten seconds after the first replaces the published-at value the
    first one wrote, although no target changed in between. *)
Lemma aggregate_twice_published_at_differs :
  let db1 := aggregate Flat Sample.delivered 10 5000 in
  let db2 := aggregate Flat db1 10 15000 in
  scheduled_post_targets db2 = scheduled_post_targets Sample.delivered
  /\ target_statuses Sample.delivered 10 = [sent; failed]
  /\ option_map post_published_at (find_post db1 10) = Some (Some 5000)
  /\ option_map post_published_at (find_post db2 10) = Some (Some 15000)
  /\ option_map post_published_at (find_post db2 10)
     <> option_map post_published_at (find_post db1 10).
Proof.
  cbv zeta. split; [reflexivity|]. split; [reflexivity|].
  split; [reflexivity|]. split; [reflexivity|]. discriminate.
Qed.

End AggregatorFacts.

(** ** Delivery executor *)

Module DeliveryFacts.

Lemma map_if_filter {A} (sel : A -> bool) (g : A -> A) (l : list A) :
  map (fun x => if sel x then g x else x) (filter sel l) = map g (filter sel l).
Proof.
  apply map_ext_in. intros x Hin. apply filter_In in Hin.
  destruct Hin as [_ ->]. reflexivity.
Qed.

Lemma find_target_update_same id set now db :
  (forall t, target_id (set t) = target_id t) ->
  find_target (update_targets (by_target_id id) set now db) id =
  option_map (fun t => stamp_target now (set t)) (find_target db id).
Proof.
  intros Hid. unfold find_target, update_targets; simpl.
  rewrite filter_map_commute.
  - rewrite map_if_filter. apply single_map.
  - intros t. unfold by_target_id.
    destruct (Nat.eqb (target_id t) id) eqn:E; [|exact E].
    cbn [stamp_target target_id]. now rewrite Hid.
Qed.

Lemma find_target_aggregate v db postId now id :
  find_target (aggregate v db postId now) id = find_target db id.
Proof. unfold find_target. now rewrite AggregatorFacts.aggregate_targets. Qed.

Lemma fetch_target_find db id t parent :
  fetch_target db id = Some (t, parent) ->
  find_target db id = Some t /\ parent = find_post db (post_id t).
Proof.
  unfold fetch_target, find_target, by_target_id.
  destruct (single _) as [t0|]; [|discriminate].
  intros H. injection H as -> <-. split; reflexivity.
Qed.

Lemma find_post_update_targets sel set now db id :
  find_post (update_targets sel set now db) id = find_post db id.
Proof. reflexivity. Qed.

(** The store after a handler run, and the response. *)
Lemma publishPost_valid_request v o db targetId :
  publishPost v o db (publish_request targetId) =
  match fetch_target db targetId with
  | None => (db, errorResponse 404 NOT_FOUND)
  | Some (target, parent) =>
      if negb (includes TargetStatus_eqb [queued; retrying] (status target))
      then (db, errorResponse 400 INVALID_STATUS)
      else if attempt_count target >=? Backoff.MAX_RETRY_ATTEMPTS
      then (db, errorResponse 400 MAX_RETRIES_EXCEEDED)
      else
        match parent with
        | None => (db, errorResponse 500 INTERNAL_ERROR)
        | Some post =>
            match fetch_account db (user_id post) (platform target) with
            | None =>
                (update_targets (by_target_id targetId)
                   (mark_no_account v target (clock_no_account o))
                   (clock_no_account o) db,
                 errorResponse 400 NO_ACCOUNT)
            | Some account =>
                let db1 :=
                  update_targets (by_target_id targetId)
                    (set_status publishing) (clock_mark o) db in
                let result := platform_answer o in
                let now := clock_attempt o in
                let newAttempt := attempt_count target + 1 in
                if publish_success result then
                  (aggregate v
                     (update_targets (by_target_id targetId)
                        (mark_sent target result now) now db1)
                     (post_row_id post) (clock_aggregate o),
                   successResponse 200
                     (PSent targetId (postId result) (postUrl result)))
                else
                  let newStatus :=
                    if newAttempt <? Backoff.MAX_RETRY_ATTEMPTS
                    then retrying else failed in
                  (aggregate v
                     (update_targets (by_target_id targetId)
                        (mark_not_sent newStatus result newAttempt now) now db1)
                     (post_row_id post) (clock_aggregate o),
                   successResponse 200
                     (PNotSent targetId newStatus (publish_error result)
                        newAttempt (TargetStatus_eqb newStatus retrying)))
            end
        end
  end.
Proof. reflexivity. Qed.

(** Run sequentially, the step-by-step handler is the handler. *)
Lemma attempt_run_sequential v o db targetId :
  attempt_run v o 6 db (AStart targetId) =
  let '(db', r) := publishPost v o db (publish_request targetId) in
  (db', ADone r).
Proof.
  rewrite publishPost_valid_request. cbn [attempt_run attempt_step].
  destruct (fetch_target db targetId) as [[target parent]|]; [|reflexivity].
  destruct (negb _); [reflexivity|].
  destruct (attempt_count target >=? Backoff.MAX_RETRY_ATTEMPTS); [reflexivity|].
  destruct parent as [post|]; [|reflexivity].
  cbn [attempt_step].
  destruct (fetch_account db (user_id post) (platform target));
    [|reflexivity].
  cbn [attempt_step]. cbv zeta.
  destruct (publish_success (platform_answer o)); reflexivity.
Qed.

(** Two runs for one target whose calls the store serves alternately:
    both read the row before either writes, so both pass the checks made on
    what they read, and both go on to write [publishing]. *)
Lemma alternating_runs_both_marked v o1 o2 db targetId target post account :
  fetch_target db targetId = Some (target, Some post) ->
  includes TargetStatus_eqb [queued; retrying] (status target) = true ->
  attempt_count target < Backoff.MAX_RETRY_ATTEMPTS ->
  fetch_account db (user_id post) (platform target) = Some account ->
  interleave v o1 o2 [First; Second; First; Second; First; Second]
    db (AStart targetId) (AStart targetId)
  = (update_targets (by_target_id targetId) (set_status publishing)
       (clock_mark o2)
       (update_targets (by_target_id targetId) (set_status publishing)
          (clock_mark o1) db),
     AMarked targetId target post account,
     AMarked targetId target post account).
Proof.
  intros Hf Hs Ha Hacc.
  assert (Hstart : forall o, attempt_step v o db (AStart targetId)
                             = (db, AChecked targetId target post)).
  { intros o. cbn [attempt_step]. rewrite Hf, Hs. cbn [negb].
    destruct (Z.geb_spec (attempt_count target) Backoff.MAX_RETRY_ATTEMPTS);
      [lia | reflexivity]. }
  assert (Haccount : forall o, attempt_step v o db (AChecked targetId target post)
                               = (db, AReady targetId target post account)).
  { intros o. cbn [attempt_step]. now rewrite Hacc. }
  cbn [interleave]. rewrite !Hstart, !Haccount. reflexivity.
Qed.

(** *** The three paths that record an attempt *)

Section Paths.

Variables (v : Variant) (o : PublishOracle) (db : Store) (targetId : Id).
Variables (target : DbScheduledPostTarget) (post : DbScheduledPost).

Hypothesis Hfetch : fetch_target db targetId = Some (target, Some post).
Hypothesis Hstate :
  includes TargetStatus_eqb [queued; retrying] (status target) = true.
Hypothesis Hattempts : attempt_count target < Backoff.MAX_RETRY_ATTEMPTS.

Let run := publishPost v o db (publish_request targetId).

Lemma no_account_path :
  fetch_account db (user_id post) (platform target) = None ->
  snd run = errorResponse 400 NO_ACCOUNT
  /\ scheduled_posts (fst run) = scheduled_posts db
  /\ find_target (fst run) targetId =
     Some (stamp_target (clock_no_account o)
             (mark_no_account v target (clock_no_account o) target)).
Proof.
  intros Hacc. unfold run. rewrite publishPost_valid_request, Hfetch, Hstate.
  destruct (Z.geb_spec (attempt_count target) Backoff.MAX_RETRY_ATTEMPTS); [lia|].
  cbn [negb]. rewrite Hacc. cbn [fst snd].
  split; [reflexivity|]. split; [reflexivity|].
  rewrite find_target_update_same by reflexivity.
  destruct (fetch_target_find _ _ _ _ Hfetch) as [-> _]. reflexivity.
Qed.

Lemma success_path account :
  fetch_account db (user_id post) (platform target) = Some account ->
  publish_success (platform_answer o) = true ->
  snd run = successResponse 200
              (PSent targetId (postId (platform_answer o))
                 (postUrl (platform_answer o)))
  /\ find_target (fst run) targetId =
     Some (stamp_target (clock_attempt o)
             (mark_sent target (platform_answer o) (clock_attempt o)
                (stamp_target (clock_mark o) (set_status publishing target)))).
Proof.
  intros Hacc Hok. unfold run. rewrite publishPost_valid_request, Hfetch, Hstate.
  destruct (Z.geb_spec (attempt_count target) Backoff.MAX_RETRY_ATTEMPTS); [lia|].
  cbn [negb]. rewrite Hacc. cbv zeta. rewrite Hok. cbn [fst snd].
  split; [reflexivity|].
  rewrite find_target_aggregate.
  rewrite !find_target_update_same by reflexivity.
  destruct (fetch_target_find _ _ _ _ Hfetch) as [-> _]. reflexivity.
Qed.

Lemma failure_path account :
  fetch_account db (user_id post) (platform target) = Some account ->
  publish_success (platform_answer o) = false ->
  let newAttempt := attempt_count target + 1 in
  let newStatus :=
    if newAttempt <? Backoff.MAX_RETRY_ATTEMPTS then retrying else failed in
  snd run = Json 200 (Some true)
              (PNotSent targetId newStatus (publish_error (platform_answer o))
                 newAttempt (TargetStatus_eqb newStatus retrying))
  /\ find_target (fst run) targetId =
     Some (stamp_target (clock_attempt o)
             (mark_not_sent newStatus (platform_answer o) newAttempt
                (clock_attempt o)
                (stamp_target (clock_mark o) (set_status publishing target)))).
Proof.
  intros Hacc Hko. unfold run. rewrite publishPost_valid_request, Hfetch, Hstate.
  destruct (Z.geb_spec (attempt_count target) Backoff.MAX_RETRY_ATTEMPTS); [lia|].
  cbn [negb]. rewrite Hacc. cbv zeta. rewrite Hko. cbn [fst snd].
  split; [reflexivity|].
  rewrite find_target_aggregate.
  rewrite !find_target_update_same by reflexivity.
  destruct (fetch_target_find _ _ _ _ Hfetch) as [-> _]. reflexivity.
Qed.

End Paths.

(** *** Attempt bookkeeping *)

Lemma Forall2_map_self {A} (R : A -> A -> Prop) (f : A -> A) (l : list A) :
  (forall x, In x l -> R x (f x)) -> Forall2 R l (map f l).
Proof.
  induction l as [|x l IH]; simpl; intros H; constructor.
  - apply H. now left.
  - apply IH. intros; apply H; now right.
Qed.

Lemma Forall2_same {A} (R : A -> A -> Prop) (l : list A) :
  (forall x, R x x) -> Forall2 R l l.
Proof. intros H. induction l; constructor; auto. Qed.

Lemma Forall2_chain {A} (R S T : A -> A -> Prop) (l1 l2 l3 : list A) :
  (forall x y z, R x y -> S y z -> T x z) ->
  Forall2 R l1 l2 -> Forall2 S l2 l3 -> Forall2 T l1 l3.
Proof.
  intros H H12. revert l3. induction H12; intros l3 H23; inversion H23; subst;
    constructor; eauto.
Qed.

Lemma single_filter_unique {A} (sel : A -> bool) (l : list A) (x y : A) :
  single (filter sel l) = Some x -> In y l -> sel y = true -> y = x.
Proof.
  intros Hs Hin Hy.
  assert (Hf : In y (filter sel l)) by (apply filter_In; now split).
  destruct (filter sel l) as [|a [|b l']]; simpl in Hs; try discriminate.
  injection Hs as ->. destruct Hf as [-> | []]. reflexivity.
Qed.

Lemma fetch_target_row db id t parent y :
  fetch_target db id = Some (t, parent) ->
  In y (scheduled_post_targets db) -> by_target_id id y = true -> y = t.
Proof.
  intros Hf. destruct (fetch_target_find _ _ _ _ Hf) as [Hfind _].
  unfold find_target in Hfind. now apply single_filter_unique.
Qed.

Lemma counts_one_attempt_refl t : counts_one_attempt t t.
Proof. split; [reflexivity | now left]. Qed.

Lemma update_twice_counts db id target g1 g2 n1 n2 :
  (forall y, In y (scheduled_post_targets db) -> by_target_id id y = true ->
             y = target) ->
  (forall t, target_id (g1 t) = target_id t /\
             attempt_count (g1 t) = attempt_count t) ->
  (forall t, target_id (g2 t) = target_id t /\
             attempt_count (g2 t) = attempt_count target + 1) ->
  Forall2 counts_one_attempt (scheduled_post_targets db)
    (scheduled_post_targets
       (update_targets (by_target_id id) g2 n2
          (update_targets (by_target_id id) g1 n1 db))).
Proof.
  intros Huniq H1 H2. unfold update_targets; simpl. rewrite map_map.
  apply Forall2_map_self. intros y Hin. unfold by_target_id at 2.
  destruct (Nat.eqb (target_id y) id) eqn:E.
  - unfold by_target_id. cbn [stamp_target target_id].
    rewrite (proj1 (H1 y)), E. unfold counts_one_attempt.
    cbn [stamp_target target_id attempt_count].
    rewrite (proj1 (H2 _)), (proj2 (H2 _)).
    cbn [stamp_target target_id attempt_count].
    split; [apply H1 | right]. now rewrite (Huniq y Hin E).
  - unfold by_target_id. rewrite E. apply counts_one_attempt_refl.
Qed.

Lemma publishPost_counts v o db req :
  Forall2 counts_one_attempt (scheduled_post_targets db)
    (scheduled_post_targets (fst (publishPost v o db req))).
Proof.
  pose proof (Forall2_same counts_one_attempt (scheduled_post_targets db)
                counts_one_attempt_refl) as Hrefl.
  unfold publishPost.
  destruct (Method_eqb (publish_method req) OPTIONS); [exact Hrefl|].
  destruct (negb (Method_eqb (publish_method req) POST)); [exact Hrefl|].
  destruct (negb (internal_key_ok req)); [exact Hrefl|].
  destruct (publish_body req) as [targetId|]; [|exact Hrefl].
  destruct (fetch_target db targetId) as [[target parent]|] eqn:Hf;
    [|exact Hrefl].
  destruct (negb _); [exact Hrefl|].
  destruct (attempt_count target >=? Backoff.MAX_RETRY_ATTEMPTS); [exact Hrefl|].
  destruct parent as [post|]; [|exact Hrefl].
  pose proof (fun y => fetch_target_row db targetId target _ y Hf) as Huniq.
  destruct (fetch_account db (user_id post) (platform target)).
  - cbv zeta. destruct (publish_success (platform_answer o)); cbn [fst];
      rewrite AggregatorFacts.aggregate_targets;
      apply (update_twice_counts db targetId target); auto;
      intros t; split; reflexivity.
  - cbn [fst]. unfold update_targets; simpl.
    apply Forall2_map_self. intros y Hin.
    destruct (by_target_id targetId y) eqn:E; [|apply counts_one_attempt_refl].
    split; [reflexivity | right]. cbn. now rewrite (Huniq y Hin E).
Qed.

End DeliveryFacts.

(** ** Cancellation handler *)

Module CancelFacts.

Lemma includes_pending s :
  includes TargetStatus_eqb [queued; retrying; publishing] s = true <-> pending s.
Proof.
  unfold pending. destruct s; simpl; split; intros H; try discriminate; auto;
    destruct H as [H | [H | H]]; discriminate.
Qed.

Lemma terminal_not_pending s : terminal s -> ~ pending s.
Proof. intros [-> | [-> | ->]] [H | [H | H]]; discriminate. Qed.

Lemma cancelScheduledPost_accepted v now db userId postId p :
  find_post db postId = Some p ->
  user_id p = userId ->
  post_status p <> PostPublished -> post_status p <> PostCancelled ->
  cancelScheduledPost v now db (cancel_request userId postId) =
  (update_targets (cancellable_target postId) mark_cancelled now
     (update_posts (fun q => Nat.eqb (post_row_id q) postId)
        (cancel_post_payload v p userId now) now db),
   successResponse 200
     (PCancelled postId
        (length (filter (cancellable_target postId)
                        (scheduled_post_targets db))))).
Proof.
  intros Hp Hown Hnp Hnc. unfold cancelScheduledPost, cancel_request; simpl.
  rewrite Hp, Hown, Nat.eqb_refl. simpl.
  destruct (post_status p); try congruence; reflexivity.
Qed.

Lemma cancel_targets_effect postId now l :
  Forall2 (cancel_effect postId) l
    (map (fun t => if cancellable_target postId t
                   then stamp_target now (mark_cancelled t) else t) l).
Proof.
  apply DeliveryFacts.Forall2_map_self. intros t _.
  unfold cancellable_target, cancel_effect.
  destruct (Nat.eqb_spec (post_id t) postId) as [Hid | Hid]; cbn [andb].
  - destruct (includes TargetStatus_eqb [queued; retrying; publishing] (status t))
      eqn:E.
    + split; [intros _ _; cbn; repeat split|].
      intros [Hne | Hterm]; [contradiction|].
      apply includes_pending in E. now apply terminal_not_pending in Hterm.
    + split; [|reflexivity].
      intros _ Hp. apply includes_pending in Hp. congruence.
  - split; [contradiction | reflexivity].
Qed.

(** C5. When the post exists, belongs to the requester and is neither
    published nor cancelled, the cancellation answers success, the post
    row becomes cancelled, every child target that was queued, retrying or
    publishing becomes cancelled with the note "Post cancelled by user", and
    every other target row, in particular a sent or failed child, is
    left exactly as it was. *)
Theorem cancel_frame (v : Variant) (now : Z) (db : Store)
    (userId postId : Id) (p : DbScheduledPost) :
  find_post db postId = Some p ->
  user_id p = userId ->
  post_status p <> PostPublished -> post_status p <> PostCancelled ->
  let run := cancelScheduledPost v now db (cancel_request userId postId) in
  (exists n, snd run = successResponse 200 (PCancelled postId n))
  /\ (exists p', find_post (fst run) postId = Some p'
                 /\ post_status p' = PostCancelled)
  /\ Forall2 (cancel_effect postId)
       (scheduled_post_targets db) (scheduled_post_targets (fst run)).
Proof.
  intros Hp Hown Hnp Hnc. cbv zeta.
  rewrite (cancelScheduledPost_accepted v now db userId postId p) by assumption.
  cbn [fst snd]. split; [eexists; reflexivity|]. split.
  - rewrite DeliveryFacts.find_post_update_targets.
    rewrite find_post_update_posts by (intros q; destruct v; reflexivity).
    rewrite Hp. cbn [option_map].
    rewrite (find_post_id _ _ _ Hp), Nat.eqb_refl.
    eexists. split; [reflexivity|]. destruct v; reflexivity.
  - apply cancel_targets_effect.
Qed.

(** The cancellation scenario: one sent and one queued target. *)
Lemma cancel_frame_witness :
  let run :=
    cancelScheduledPost Scheduling 7000 Sample.half_done (cancel_request 1 10) in
  (exists p', find_post (fst run) 10 = Some p' /\ post_status p' = PostCancelled)
  /\ Forall2 (cancel_effect 10)
       (scheduled_post_targets Sample.half_done)
       (scheduled_post_targets (fst run)).
Proof.
  destruct (cancel_frame Scheduling 7000 Sample.half_done 1%nat 10%nat
              (Sample.mk_post 10 1 1000 PostPublishing))
    as (_ & Hpost & Htargets);
    [reflexivity | reflexivity | discriminate | discriminate |].
  split; [exact Hpost | exact Htargets].
Defined.

Example cancel_scenario :
  map status
    (scheduled_post_targets
       (fst (cancelScheduledPost Flat 7000 Sample.half_done (cancel_request 1 10))))
  = [sent; cancelled].
Proof. reflexivity. Qed.

Lemma cancel_same_attempts v now db req :
  Forall2 same_attempts (scheduled_post_targets db)
    (scheduled_post_targets (fst (cancelScheduledPost v now db req))).
Proof.
  assert (Hrefl : Forall2 same_attempts (scheduled_post_targets db)
                    (scheduled_post_targets db)).
  { apply DeliveryFacts.Forall2_same. intros t. repeat split. }
  unfold cancelScheduledPost.
  destruct (Method_eqb (cancel_method req) OPTIONS); [exact Hrefl|].
  destruct (negb (Method_eqb (cancel_method req) PATCH)); [exact Hrefl|].
  destruct (cancel_user req) as [userId|]; [|exact Hrefl].
  destruct (cancel_body req) as [postId|]; [|exact Hrefl].
  destruct (find_post db postId) as [p|]; [|exact Hrefl].
  destruct (negb (Nat.eqb (user_id p) userId)); [exact Hrefl|].
  destruct (includes PostStatus_eqb _ (post_status p)); [exact Hrefl|].
  cbn [fst]. unfold update_targets; simpl.
  apply DeliveryFacts.Forall2_map_self. intros t _.
  destruct (cancellable_target postId t); repeat split.
Qed.

End CancelFacts.

(** ** Scheduling worker: the query for fresh work *)

Module QueryFacts.

Lemma insert_perm x rows :
  Permutation (insert_by_scheduled_at x rows) (x :: rows).
Proof.
  induction rows as [|y rows IH]; simpl; [reflexivity|].
  destruct (scheduled_at (snd x) <=? scheduled_at (snd y)); [reflexivity|].
  rewrite IH. apply perm_swap.
Qed.

Lemma order_perm rows : Permutation (order_by_scheduled_at rows) rows.
Proof.
  induction rows as [|x rows IH]; simpl; [reflexivity|].
  rewrite insert_perm. now constructor.
Qed.

Lemma insert_sorted x rows :
  StronglySorted earlier rows ->
  StronglySorted earlier (insert_by_scheduled_at x rows).
Proof.
  induction 1 as [|y rows Hs IH Hall]; simpl.
  - constructor; constructor.
  - destruct (Z.leb_spec (scheduled_at (snd x)) (scheduled_at (snd y))) as [Hle|Hgt].
    + constructor; [now constructor|].
      constructor; [exact Hle|].
      eapply Forall_impl; [|exact Hall].
      intros z Hz. unfold earlier, due_key in *. lia.
    + constructor; [exact IH|].
      eapply Permutation_Forall; [symmetry; apply insert_perm|].
      constructor; [unfold earlier, due_key; lia | exact Hall].
Qed.

Lemma order_sorted rows : StronglySorted earlier (order_by_scheduled_at rows).
Proof.
  induction rows as [|x rows IH]; simpl; [constructor | now apply insert_sorted].
Qed.

Lemma in_firstn {A} n (l : list A) x : In x (firstn n l) -> In x l.
Proof.
  revert n. induction l as [|a l IH]; intros [|n]; simpl; try tauto.
  intros [-> | H]; [now left | right; eauto].
Qed.

Lemma in_skipn {A} n (l : list A) x : In x (skipn n l) -> In x l.
Proof.
  revert n. induction l as [|a l IH]; intros [|n]; simpl; try tauto.
  intros H. right. eauto.
Qed.

Lemma firstn_sorted {A} (R : A -> A -> Prop) n (l : list A) :
  StronglySorted R l -> StronglySorted R (firstn n l).
Proof.
  intros H. revert n. induction H as [|x l Hs IH Hall]; intros [|n]; simpl;
    try constructor; auto.
  apply Forall_forall. intros y Hy. apply in_firstn in Hy.
  revert y Hy. now apply Forall_forall.
Qed.

Lemma sorted_split {A} (R : A -> A -> Prop) n (l : list A) :
  StronglySorted R l ->
  forall x y, In x (firstn n l) -> In y (skipn n l) -> R x y.
Proof.
  intros H. revert n. induction H as [|a l Hs IH Hall]; intros [|n] x y Hx Hy;
    simpl in *; try contradiction.
  destruct Hx as [<- | Hx].
  - rewrite Forall_forall in Hall. apply Hall. eapply in_skipn; eassumption.
  - eapply IH; eassumption.
Qed.

Lemma in_firstn_or_skipn {A} n (l : list A) x :
  In x l -> In x (firstn n l) \/ In x (skipn n l).
Proof.
  intros H. rewrite <- (firstn_skipn n l) in H. now apply in_app_or in H.
Qed.

(** The query of the [scheduling/] worker: what it returns is due, is at
    most one batch, comes earliest-due first, and whatever due row it leaves
    out is due no earlier than every row it returns. *)
Lemma queuedTargets_scheduling db now :
  let rows := queuedTargets Scheduling db now in
  (forall r, In r rows -> In r (inner_join db) /\ is_due now r = true)
  /\ (length rows <= BATCH_SIZE)%nat
  /\ StronglySorted earlier rows
  /\ (forall r, In r (inner_join db) -> is_due now r = true ->
        In r rows \/ (forall r', In r' rows -> earlier r' r))
  /\ (forall r, (length (filter (is_due now) (inner_join db)) <= BATCH_SIZE)%nat ->
        In r (inner_join db) -> is_due now r = true -> In r rows).
Proof.
  cbv zeta. unfold queuedTargets.
  set (matching := filter (is_due now) (inner_join db)).
  assert (Hmem : forall r, In r (order_by_scheduled_at matching) <->
                           In r (inner_join db) /\ is_due now r = true).
  { intros r. unfold matching. rewrite <- filter_In. split; intros H.
    - eapply Permutation_in; [apply order_perm | exact H].
    - eapply Permutation_in; [symmetry; apply order_perm | exact H]. }
  split; [intros r Hr; apply Hmem; eapply in_firstn; exact Hr|].
  split; [apply firstn_le_length|].
  split; [apply firstn_sorted, order_sorted|].
  split.
  - intros r Hin Hdue.
    destruct (in_firstn_or_skipn BATCH_SIZE (order_by_scheduled_at matching) r)
      as [H | H]; [apply Hmem; now split | now left |].
    right. intros r' Hr'.
    eapply sorted_split; [apply order_sorted | exact Hr' | exact H].
  - intros r Hlen Hin Hdue.
    rewrite firstn_all2.
    + apply Hmem. now split.
    + rewrite (Permutation_length (order_perm matching)). exact Hlen.
Qed.

(** C9 on the flat worker. Two due targets, the one stored first belonging
    to the post that is due later: the flat worker's query, which has no
    order clause, returns them in storage order, latest due first; the
    [scheduling/] worker's query returns the earliest due first. *)
Theorem flat_query_not_ordered :
  map (fun r => (target_id (fst r), scheduled_at (snd r)))
      (queuedTargets Flat Sample.two_due 5000)
  = [(100%nat, 2000); (101%nat, 1000)]
  /\ ~ StronglySorted earlier (queuedTargets Flat Sample.two_due 5000)
  /\ map (fun r => (target_id (fst r), scheduled_at (snd r)))
         (queuedTargets Scheduling Sample.two_due 5000)
     = [(101%nat, 1000); (100%nat, 2000)].
Proof.
  split; [reflexivity|]. split; [|reflexivity].
  intros H. change (queuedTargets Flat Sample.two_due 5000)
    with [ (Sample.mk_target 100 10 twitter queued 0 None,
            Sample.mk_post 10 1 2000 PostQueued);
           (Sample.mk_target 101 11 twitter queued 0 None,
            Sample.mk_post 11 1 1000 PostQueued) ] in H.
  inversion H as [|? ? _ Hall]; subst.
  inversion Hall as [|? ? Hle _]; subst.
  unfold earlier, due_key in Hle. simpl in Hle. lia.
Qed.

End QueryFacts.

(** ** Scheduling worker: dispatch and the cycle report *)

Module WorkerFacts.

Lemma dispatch_app v calls db l1 l2 :
  dispatch v calls db (l1 ++ l2) =
  let '(db1, r1) := dispatch v calls db l1 in
  let '(db2, r2) := dispatch v calls db1 l2 in
  (db2, r1 ++ r2).
Proof.
  revert db. induction l1 as [|r l1 IH]; intros db; simpl.
  - destruct (dispatch v calls db l2); reflexivity.
  - destruct (fetch_throws (calls (target_id (fst r)))).
    + rewrite IH. destruct (dispatch v calls db l1) as [db1 r1].
      destruct (dispatch v calls db1 l2); reflexivity.
    + destruct (publishPost v _ db _) as [db' res].
      rewrite IH. destruct (dispatch v calls db' l1) as [db1 r1].
      destruct (dispatch v calls db1 l2); reflexivity.
Qed.

Lemma dispatch_length v calls db l :
  length (snd (dispatch v calls db l)) = length l.
Proof.
  revert db. induction l as [|r l IH]; intros db; simpl; [reflexivity|].
  destruct (fetch_throws _).
  - specialize (IH db). destruct (dispatch v calls db l). simpl in *. now rewrite IH.
  - destruct (publishPost v _ db _) as [db' res].
    specialize (IH db'). destruct (dispatch v calls db' l). simpl in *.
    now rewrite IH.
Qed.

(** The entry the loop records for a target, in terms of the store the loop
    has reached when the target's turn comes. *)
Lemma dispatch_entry v calls db before r after :
  let db_r := fst (dispatch v calls db before) in
  let c := calls (target_id (fst r)) in
  let res := snd (publishPost v (endpoint c) db_r
                    (publish_request (target_id (fst r)))) in
  nth_error (snd (dispatch v calls db (before ++ r :: after))) (length before)
  = Some {| result_targetId := target_id (fst r);
            result_platform := platform (fst r);
            result_success := negb (fetch_throws c) && envelope_success res |}.
Proof.
  cbv zeta. rewrite dispatch_app.
  pose proof (dispatch_length v calls db before) as Hlen.
  destruct (dispatch v calls db before) as [db1 r1]. cbn [fst snd] in *.
  destruct (dispatch v calls db1 (r :: after)) as [db2 r2] eqn:E. cbn [snd].
  rewrite nth_error_app2 by lia. rewrite Hlen, Nat.sub_diag.
  simpl in E. destruct (fetch_throws (calls (target_id (fst r)))).
  - destruct (dispatch v calls db1 after). injection E as _ <-. reflexivity.
  - destruct (publishPost v _ db1 _) as [db' res]. cbn [snd].
    destruct (dispatch v calls db' after). injection E as _ <-. reflexivity.
Qed.

Lemma filter_split_length {A} (f : A -> bool) (l : list A) :
  (length (filter f l) + length (filter (fun x => negb (f x)) l))%nat = length l.
Proof.
  induction l as [|x l IH]; simpl; [reflexivity|].
  destruct (f x); simpl; lia.
Qed.

Lemma attempts_not_decreased_refl t : attempts_not_decreased t t.
Proof. split; [reflexivity | lia]. Qed.

Lemma dispatch_attempts v calls db l :
  Forall2 attempts_not_decreased (scheduled_post_targets db)
    (scheduled_post_targets (fst (dispatch v calls db l))).
Proof.
  revert db. induction l as [|r l IH]; intros db; simpl.
  - apply DeliveryFacts.Forall2_same, attempts_not_decreased_refl.
  - destruct (fetch_throws _).
    + specialize (IH db). destruct (dispatch v calls db l). exact IH.
    + pose proof (DeliveryFacts.publishPost_counts v
                    (endpoint (calls (target_id (fst r)))) db
                    (publish_request (target_id (fst r)))) as Hone.
      destruct (publishPost v _ db _) as [db' res]. cbn [fst] in Hone.
      specialize (IH db'). destruct (dispatch v calls db' l). cbn [fst] in *.
      eapply DeliveryFacts.Forall2_chain; [|exact Hone|exact IH].
      intros x y z [Hid [Hc | Hc]] [Hid' Hle]; split; try congruence; lia.
Qed.

Lemma runCycle_attempts v o db req :
  Forall2 attempts_not_decreased (scheduled_post_targets db)
    (scheduled_post_targets (fst (runCycle v o db req))).
Proof.
  unfold runCycle.
  destruct (negb (worker_authorized v req));
    [apply DeliveryFacts.Forall2_same, attempts_not_decreased_refl|].
  cbv zeta. destruct (_ ++ _) as [|r l] eqn:E;
    [apply DeliveryFacts.Forall2_same, attempts_not_decreased_refl|].
  match goal with
  | |- context [dispatch v (call o) ?d ?ts] =>
      pose proof (dispatch_attempts v (call o) d ts) as H;
      destruct (dispatch v (call o) d ts) as [db2 results]
  end.
  exact H.
Qed.

Lemma envelope_success_iff r :
  envelope_success r = true <-> success_envelope r.
Proof.
  unfold success_envelope. destruct r as [|st s payload]; simpl.
  - split; [discriminate | intros (st & payload & H & _); discriminate].
  - unfold response_ok. rewrite !andb_true_iff, !Z.leb_le. split.
    + intros [Hst Hs]. destruct s as [[|]|]; try discriminate.
      exists st, payload. split; [reflexivity | exact Hst].
    + intros (st' & payload' & H & Hst). injection H as -> -> _.
      split; [exact Hst | reflexivity].
Qed.

Lemma in_filter_nth {A} (f : A -> bool) (l : list A) n x :
  nth_error l n = Some x -> f x = true -> In x (filter f l).
Proof.
  intros Hn Hf. apply filter_In. split; [|exact Hf].
  eapply nth_error_In. exact Hn.
Qed.

(** An authorized cycle that selects something answers with a report whose
    entries are those of the loop, one per selected row. *)
Lemma runCycle_report v o db req :
  worker_authorized v req = true ->
  cycle_targets v o db <> [] ->
  exists db' results,
    runCycle v o db req
    = (db', Json 200 (Some true)
              (PCycle (length results)
                 (length (filter result_success results))
                 (length (filter (fun r => negb (result_success r)) results))
                 results))
    /\ length results = length (cycle_targets v o db)
    /\ forall before x after,
         cycle_targets v o db = before ++ x :: after ->
         nth_error results (length before)
         = Some (entry_at_turn v o db before x).
Proof.
  intros Hauth Hsome.
  assert (Hrun : runCycle v o db req =
    let '(db2, results) :=
      dispatch v (call o) (claim_posts o db (cycle_targets v o db))
        (cycle_targets v o db) in
    (db2, Json 200 (Some true)
            (PCycle (length results)
               (length (filter result_success results))
               (length (filter (fun r => negb (result_success r)) results))
               results))).
  { unfold runCycle. rewrite Hauth. cbn [negb]. cbv zeta.
    change (queuedTargets v db (cycle_now o) ++
            filter (fun r => backoff_filter v (attempt_count (fst r))
                               (last_attempt_at (fst r)) (backoff_now o))
                   (retryingTargets db))
      with (cycle_targets v o db).
    destruct (cycle_targets v o db) as [|r l] eqn:E; [contradiction|].
    reflexivity. }
  rewrite Hrun.
  pose proof (dispatch_length v (call o)
                (claim_posts o db (cycle_targets v o db))
                (cycle_targets v o db)) as Hlen.
  assert (Hentry : forall before x after,
            cycle_targets v o db = before ++ x :: after ->
            nth_error
              (snd (dispatch v (call o)
                      (claim_posts o db (cycle_targets v o db))
                      (cycle_targets v o db))) (length before)
            = Some (entry_at_turn v o db before x)).
  { intros before x after Hsplit.
    pose proof (dispatch_entry v (call o)
                  (claim_posts o db (cycle_targets v o db)) before x after)
      as H.
    cbv zeta in H.
    set (d := claim_posts o db (cycle_targets v o db)) in H |- *.
    rewrite Hsplit. exact H. }
  destruct (dispatch v (call o) (claim_posts o db (cycle_targets v o db))
              (cycle_targets v o db)) as [db2 results].
  cbn [snd] in *. exists db2, results.
  split; [reflexivity|]. split; [exact Hlen | exact Hentry].
Qed.

End WorkerFacts.

(** ** The pipeline: what an attempt records and how it is reported *)

Module PipelineFacts.
Import DeliveryFacts.

(** C10. When the publisher reports failure the endpoint still answers
    HTTP 200 with [success: true]; the new target status (retrying or failed),
    the error and [willRetry] travel in the data.  An authorized cycle that
    selects something answers with a report that has one entry per selected
    row, in order, and whose tallies are the numbers of entries marked
    succeeded and failed.  The entry of an attempt that ended in a publisher
    failure is marked succeeded and so counted in the succeeded tally; an
    entry is marked failed exactly when the call threw or the reply was not
    a success envelope, as every error reply of the endpoint is. *)
Theorem external_failure_reported_as_success (v : Variant) :
  (forall o db targetId target post account,
     fetch_target db targetId = Some (target, Some post) ->
     includes TargetStatus_eqb [queued; retrying] (status target) = true ->
     attempt_count target < Backoff.MAX_RETRY_ATTEMPTS ->
     fetch_account db (user_id post) (platform target) = Some account ->
     publish_success (platform_answer o) = false ->
     let run := publishPost v o db (publish_request targetId) in
     exists newStatus,
       (newStatus = retrying \/ newStatus = failed)
       /\ snd run = Json 200 (Some true)
                      (PNotSent targetId newStatus
                         (publish_error (platform_answer o))
                         (attempt_count target + 1)
                         (TargetStatus_eqb newStatus retrying))
       /\ option_map status (find_target (fst run) targetId) = Some newStatus
       /\ success_envelope (snd run))
  /\ (forall o db req,
       worker_authorized v req = true ->
       cycle_targets v o db <> [] ->
       exists db' results,
         runCycle v o db req
         = (db', Json 200 (Some true)
                   (PCycle (length results)
                      (length (filter result_success results))
                      (length (filter (fun r => negb (result_success r))
                                 results))
                      results))
         /\ length results = length (cycle_targets v o db)
         /\ forall before x after,
              cycle_targets v o db = before ++ x :: after ->
              let db_x := store_at_turn v o db before in
              let c := call o (target_id (fst x)) in
              let res := snd (publishPost v (endpoint c) db_x
                                (publish_request (target_id (fst x)))) in
              exists e,
                nth_error results (length before) = Some e
                /\ result_targetId e = target_id (fst x)
                /\ (forall target post account,
                      fetch_throws c = false ->
                      fetch_target db_x (target_id (fst x))
                      = Some (target, Some post) ->
                      includes TargetStatus_eqb [queued; retrying]
                        (status target) = true ->
                      attempt_count target < Backoff.MAX_RETRY_ATTEMPTS ->
                      fetch_account db_x (user_id post) (platform target)
                      = Some account ->
                      publish_success (platform_answer (endpoint c)) = false ->
                      result_success e = true
                      /\ In e (filter result_success results))
                /\ (result_success e = false <->
                      fetch_throws c = true \/ ~ success_envelope res)
                /\ (result_success e = false ->
                      In e (filter (fun r => negb (result_success r)) results))
                /\ (forall st code,
                      res = errorResponse st code -> result_success e = false)).
Proof.
  assert (Hendpoint :
    forall o db targetId target post account,
      fetch_target db targetId = Some (target, Some post) ->
      includes TargetStatus_eqb [queued; retrying] (status target) = true ->
      attempt_count target < Backoff.MAX_RETRY_ATTEMPTS ->
      fetch_account db (user_id post) (platform target) = Some account ->
      publish_success (platform_answer o) = false ->
      exists newStatus,
        (newStatus = retrying \/ newStatus = failed)
        /\ snd (publishPost v o db (publish_request targetId))
           = Json 200 (Some true)
               (PNotSent targetId newStatus (publish_error (platform_answer o))
                  (attempt_count target + 1)
                  (TargetStatus_eqb newStatus retrying))
        /\ option_map status
             (find_target (fst (publishPost v o db (publish_request targetId)))
                targetId) = Some newStatus
        /\ success_envelope
             (snd (publishPost v o db (publish_request targetId)))).
  { intros o db targetId target post account Hf Hs Ha Hacc Hko.
    destruct (failure_path v o db targetId target post Hf Hs Ha account Hacc Hko)
      as [Hres Hrow].
    eexists. split; [|split; [exact Hres | split]].
    - destruct (attempt_count target + 1 <? Backoff.MAX_RETRY_ATTEMPTS); auto.
    - rewrite Hrow. reflexivity.
    - rewrite Hres. eexists _, _. split; [reflexivity | lia]. }
  split; [exact Hendpoint|].
  intros o db req Hauth Hsome.
  destruct (WorkerFacts.runCycle_report v o db req Hauth Hsome)
    as (db' & results & Hrun & Hlen & Hentries).
  exists db', results. split; [exact Hrun|]. split; [exact Hlen|].
  intros before x after Hsplit. cbv zeta.
  specialize (Hentries before x after Hsplit).
  exists (entry_at_turn v o db before x).
  split; [exact Hentries|]. split; [reflexivity|].
  unfold entry_at_turn at 2 3 4 6. cbn [result_success].
  set (c := call o (target_id (fst x))).
  set (res := snd (publishPost v (endpoint c) (store_at_turn v o db before)
                     (publish_request (target_id (fst x))))).
  split; [|split; [|split]].
  - intros target post account Hnothrow Hf Hs Ha Hacc Hko.
    assert (Hok : negb (fetch_throws c) && envelope_success res = true).
    { rewrite Hnothrow. cbn [negb andb].
      destruct (Hendpoint _ _ _ _ _ _ Hf Hs Ha Hacc Hko) as (st & _ & _ & _ & H).
      now apply WorkerFacts.envelope_success_iff. }
    split; [exact Hok|].
    eapply WorkerFacts.in_filter_nth; [exact Hentries | exact Hok].
  - destruct (fetch_throws c); cbn [negb andb].
    + split; auto.
    + split.
      * intros H. right. intros Henv.
        apply WorkerFacts.envelope_success_iff in Henv. congruence.
      * intros [H | H]; [discriminate|].
        destruct (envelope_success res) eqn:E; [|reflexivity].
        exfalso. apply H. now apply WorkerFacts.envelope_success_iff.
  - intros Hko. eapply WorkerFacts.in_filter_nth; [exact Hentries|].
    cbn [entry_at_turn result_success]. fold c. fold res.
    now rewrite Hko.
  - intros st code Hres. rewrite Hres. cbn [errorResponse envelope_success].
    now rewrite !andb_false_r.
Qed.

(** A cycle over two due targets, both refused by the platform: the entry
    of the first is marked succeeded. *)
Lemma external_failure_reported_as_success_witness :
  let o := Sample.worker_oracle Sample.rate_limited 5000 in
  exists db' results e,
    runCycle Flat o Sample.two_due Sample.cron_request
    = (db', Json 200 (Some true)
              (PCycle (length results)
                 (length (filter result_success results))
                 (length (filter (fun r => negb (result_success r)) results))
                 results))
    /\ nth_error results 0 = Some e
    /\ result_targetId e = 100%nat
    /\ result_success e = true
    /\ In e (filter result_success results).
Proof.
  cbv zeta.
  destruct (external_failure_reported_as_success Flat) as [_ Hcycle].
  destruct (Hcycle (Sample.worker_oracle Sample.rate_limited 5000)
              Sample.two_due Sample.cron_request eq_refl
              ltac:(discriminate))
    as (db' & results & Hrun & _ & Hentries).
  destruct (Hentries []
              (Sample.mk_target 100 10 twitter queued 0 None,
               Sample.mk_post 10 1 2000 PostQueued)
              [(Sample.mk_target 101 11 twitter queued 0 None,
                Sample.mk_post 11 1 1000 PostQueued)]
              eq_refl)
    as (e & Hnth & Hid & Hrefused & _).
  eassert (Hfetch : fetch_target
                      (store_at_turn Flat
                         (Sample.worker_oracle Sample.rate_limited 5000)
                         Sample.two_due []) 100
                    = Some (_, Some _)) by (vm_compute; reflexivity).
  destruct (Hrefused _ _ Scenario.twitter_account eq_refl Hfetch eq_refl
              ltac:(reflexivity) eq_refl eq_refl) as [Hok Hin].
  exists db', results, e.
  split; [exact Hrun|]. split; [exact Hnth|]. split; [exact Hid|].
  split; [exact Hok | exact Hin].
Defined.

(** A cycle over two due targets whose deliveries both fail at the
    platform reports two processed, two succeeded, none failed, and leaves
    both targets retrying. *)
Example cycle_counts_platform_failures_as_succeeded :
  let run := runCycle Flat (Sample.worker_oracle Sample.rate_limited 5000)
               Sample.two_due Sample.cron_request in
  (exists results, snd run = Json 200 (Some true) (PCycle 2 2 0 results))
  /\ map status (scheduled_post_targets (fst run)) = [retrying; retrying].
Proof. cbv zeta. split; [eexists; reflexivity | reflexivity]. Qed.

(** Attempt counting for handler runs taken one after the other.  An
    attempt that finds its target, finds it queued or retrying and below the
    attempt limit ends on the no-account, the success or the failure path;
    on each of them the target row's attempt count is the count read plus
    one and its last-attempt time is the clock reading of that path.
    Whatever the request, one uninterrupted run of the publish handler
    leaves each row's count as it was or one higher; cancellation and the
    aggregator do not touch the counts; over a worker cycle whose calls run
    one after the other no count decreases. *)
Theorem attempt_count_by_one (v : Variant) (o : PublishOracle) (db : Store) :
  (forall targetId target post,
     fetch_target db targetId = Some (target, Some post) ->
     includes TargetStatus_eqb [queued; retrying] (status target) = true ->
     attempt_count target < Backoff.MAX_RETRY_ATTEMPTS ->
     let run := publishPost v o db (publish_request targetId) in
     exists t',
       find_target (fst run) targetId = Some t'
       /\ attempt_count t' = attempt_count target + 1
       /\ last_attempt_at t' =
          Some (match fetch_account db (user_id post) (platform target) with
                | None => clock_no_account o
                | Some _ => clock_attempt o
                end))
  /\ (forall req,
       Forall2 counts_one_attempt (scheduled_post_targets db)
         (scheduled_post_targets (fst (publishPost v o db req))))
  /\ (forall now req,
       Forall2 same_attempts (scheduled_post_targets db)
         (scheduled_post_targets (fst (cancelScheduledPost v now db req))))
  /\ (forall postId now,
       scheduled_post_targets (aggregate v db postId now)
       = scheduled_post_targets db)
  /\ (forall wo req,
       Forall2 attempts_not_decreased (scheduled_post_targets db)
         (scheduled_post_targets (fst (runCycle v wo db req)))).
Proof.
  split; [|split; [|split; [|split]]].
  - intros targetId target post Hf Hs Ha. cbv zeta.
    destruct (fetch_account db (user_id post) (platform target)) as [account|]
      eqn:Hacc.
    + destruct (publish_success (platform_answer o)) eqn:Hok.
      * destruct (success_path v o db targetId target post Hf Hs Ha account
                    Hacc Hok) as [_ Hrow].
        eexists. split; [exact Hrow|]. split; reflexivity.
      * destruct (failure_path v o db targetId target post Hf Hs Ha account
                    Hacc Hok) as [_ Hrow].
        eexists. split; [exact Hrow|]. split; reflexivity.
    + destruct (no_account_path v o db targetId target post Hf Hs Ha Hacc)
        as (_ & _ & Hrow).
      eexists. split; [exact Hrow|]. split; reflexivity.
  - intros req. apply publishPost_counts.
  - intros now req. apply CancelFacts.cancel_same_attempts.
  - intros postId now. apply AggregatorFacts.aggregate_targets.
  - intros wo req. apply WorkerFacts.runCycle_attempts.
Qed.

(** The first attempt on the sample queued target, answered by the
    platform at time 5000. *)
Lemma attempt_count_by_one_witness :
  exists t',
    find_target
      (fst (publishPost Scheduling (Sample.oracle Sample.published_ok 5000)
              Sample.one_queued (publish_request 100))) 100 = Some t'
    /\ attempt_count t' = 0 + 1
    /\ last_attempt_at t' = Some 5000.
Proof.
  destruct (attempt_count_by_one Scheduling
              (Sample.oracle Sample.published_ok 5000) Sample.one_queued)
    as [Hattempt _].
  exact (Hattempt 100%nat (Sample.mk_target 100 10 twitter queued 0 None)
           (Sample.mk_post 10 1 1000 PostPublishing)
           eq_refl eq_refl ltac:(reflexivity)).
Defined.

(** C8 on the code. Three calls of the publish endpoint for one queued
    target, each refused by the platform.  The first two overlap: both have
    read the row, with count 0, before either writes.  The first ends and
    records count 1.  A third call, made once the backoff has elapsed, runs
    from start to end and records count 2.  When the second call ends it
    writes the count it read plus one, by id alone, and the row goes from 2
    back to 1 with status retrying: three attempts were made, one is
    counted, and the last write decreased the count. *)
Theorem overlapping_attempts_lose_count (v : Variant) :
  let oA := Sample.oracle Sample.rate_limited 5000 in
  let oB := Sample.oracle Sample.rate_limited 140000 in
  let oC := Sample.oracle Sample.rate_limited 130000 in
  let count db := option_map attempt_count (find_target db 100) in
  let refused n :=
    successResponse 200
      (PNotSent 100 retrying (publish_error Sample.rate_limited) n true) in
  let both_read :=
    interleave v oA oB [First; Second; First; Second; First; Second]
      Sample.one_queued (AStart 100) (AStart 100) in
  let first_done :=
    attempt_run v oA 3 (fst (fst both_read)) (snd (fst both_read)) in
  let third_done :=
    publishPost v oC (fst first_done) (publish_request 100) in
  let second_done :=
    attempt_run v oB 3 (fst third_done) (snd both_read) in
  count Sample.one_queued = Some 0
  /\ (snd first_done = ADone (refused 1) /\ count (fst first_done) = Some 1)
  /\ backoff_filter v 1 (Some 5000) 130000 = true
  /\ (snd third_done = refused 2 /\ count (fst third_done) = Some 2)
  /\ (snd second_done = ADone (refused 1)
      /\ count (fst second_done) = Some 1
      /\ option_map status (find_target (fst second_done) 100)
         = Some retrying
      /\ option_map last_attempt_at (find_target (fst second_done) 100)
         = Some (Some 140000)).
Proof. destruct v; vm_compute; repeat split. Qed.

(** C6 on the code. The only target of the sample post is for a platform
    its owner is not connected to.  The attempt answers the no-account
    error and marks the target failed, counting the attempt; the post row
    is still [publishing] afterwards, where a run of the aggregator on
    the same store would have set it to [failed]: the no-account path
    returns without calling the aggregator. *)
Theorem no_account_skips_aggregator (v : Variant) :
  let run := publishPost v (Sample.oracle Sample.published_ok 5000)
               Sample.unconnected (publish_request 101) in
  snd run = errorResponse 400 NO_ACCOUNT
  /\ option_map status (find_target (fst run) 101) = Some failed
  /\ option_map attempt_count (find_target (fst run) 101) = Some 1
  /\ option_map last_attempt_at (find_target (fst run) 101) = Some (Some 5000)
  /\ target_statuses (fst run) 10 = [failed]
  /\ option_map post_status (find_post (fst run) 10) = Some PostPublishing
  /\ option_map post_status (find_post (aggregate v (fst run) 10 5000) 10)
     = Some PostFailed.
Proof. destruct v; vm_compute; repeat split. Qed.

(** C3 on the code. Two runs of the handler for the same queued target.
    When the store serves their calls alternately, both read the target as
    queued, both pass the status check, and both write [publishing]: the
    write is by id alone.  Both then call the publisher and answer
    success, and the row counts one attempt for the two deliveries.  Only
    when the second run starts after the first has written is it turned
    away with the invalid-status error. *)
Theorem concurrent_attempts_both_publish (v : Variant) :
  let o := Sample.oracle Sample.published_ok 5000 in
  let t := Sample.mk_target 100 10 twitter queued 0 None in
  let p := Sample.mk_post 10 1 1000 PostPublishing in
  let a := {| account_user_id := 1%nat; account_platform := twitter;
              access_token := "token"%string |} in
  let alternate := [First; Second; First; Second; First; Second] in
  let sent_ok :=
    successResponse 200
      (PSent 100 (postId Sample.published_ok) (postUrl Sample.published_ok)) in
  let both_marked :=
    interleave v o o alternate Sample.one_queued (AStart 100) (AStart 100) in
  let both_done :=
    interleave v o o
      (alternate ++ [First; First; First; Second; Second; Second])
      Sample.one_queued (AStart 100) (AStart 100) in
  let one_after_the_other :=
    interleave v o o
      ([First; First; First; First; First; First]
       ++ [Second; Second; Second; Second; Second; Second])
      Sample.one_queued (AStart 100) (AStart 100) in
  (snd (fst both_marked) = AMarked 100 t p a
   /\ snd both_marked = AMarked 100 t p a
   /\ option_map status (find_target (fst (fst both_marked)) 100)
      = Some publishing)
  /\ (snd (fst both_done) = ADone sent_ok
      /\ snd both_done = ADone sent_ok
      /\ option_map attempt_count (find_target (fst (fst both_done)) 100)
         = Some 1)
  /\ (snd (fst one_after_the_other) = ADone sent_ok
      /\ snd one_after_the_other = ADone (errorResponse 400 INVALID_STATUS)).
Proof.
  destruct v; vm_compute; repeat split.
Qed.

End PipelineFacts.

(** ** Creation handler *)

Module CreateFacts.

Lemma filter_all {A} (f : A -> bool) (l : list A) :
  (forall x, In x l -> f x = true) -> filter f l = l.
Proof.
  induction l as [|x l IH]; simpl; intros H; [reflexivity|].
  rewrite H by now left. f_equal. apply IH. intros; apply H; now right.
Qed.

Lemma existsb_false {A} (f : A -> bool) (l : list A) x :
  existsb f l = false -> In x l -> f x = false.
Proof.
  intros He Hin. destruct (f x) eqn:E; [|reflexivity].
  assert (existsb f l = true) by (apply existsb_exists; eauto). congruence.
Qed.

Lemma insert_post_some db p db1 :
  insert_post db p = Some db1 ->
  db1 = with_posts db (scheduled_posts db ++ [p])
  /\ existsb (fun q => Nat.eqb (post_row_id q) (post_row_id p))
            (scheduled_posts db) = false.
Proof.
  unfold insert_post.
  destruct (existsb _ (scheduled_posts db)); simpl; [discriminate|].
  destruct (Nat.eqb _ 0); [discriminate|].
  intros H. injection H as <-. split; reflexivity.
Qed.

(** The compensating delete takes the store back to where it was before
    the post insert. *)
Lemma rollback_restores db p db1 :
  referential_integrity db ->
  insert_post db p = Some db1 ->
  delete_post db1 (post_row_id p) = db.
Proof.
  intros Hfk Hins. destruct (insert_post_some _ _ _ Hins) as [-> Hfresh].
  unfold delete_post, with_targets, with_posts; simpl.
  rewrite filter_app; simpl. rewrite Nat.eqb_refl; simpl. rewrite app_nil_r.
  rewrite !filter_all.
  - destruct db; reflexivity.
  - intros t Ht. destruct (Hfk t Ht) as (q & Hq & Hid).
    pose proof (existsb_false _ _ q Hfresh Hq) as Hne. cbv beta in Hne.
    rewrite Hid in Hne. now rewrite Hne.
  - intros q Hq. pose proof (existsb_false _ _ q Hfresh Hq) as Hne.
    cbv beta in Hne. now rewrite Hne.
Qed.

Lemma insert_target_rows_some o postId b now posts names :
  forall i table table',
    insert_target_rows now posts table (targetInserts_from o postId b i names)
    = Some table' ->
    exists news,
      table' = table ++ news /\ Forall2 (target_for postId) names news.
Proof.
  induction names as [|name names IH]; intros i table table'; simpl.
  - intros H. injection H as <-. exists [].
    split; [now rewrite app_nil_r | constructor].
  - destruct (platform_of_string name) as [pf|] eqn:Hpf; [|discriminate].
    destruct (_ || _); [discriminate|].
    intros H. apply IH in H. destruct H as (news & -> & Hall).
    eexists (_ :: news). split; [now rewrite <- app_assoc|].
    constructor; [|exact Hall]. split; [exact Hpf | repeat split].
Qed.

Lemma insert_post_and_targets_atomic v o db userId b :
  referential_integrity db ->
  let run := insert_post_and_targets v o db userId b in
  (fst run = db /\ exists code, snd run = errorResponse 500 code)
  \/ (exists news s payload,
        scheduled_posts (fst run)
        = scheduled_posts db ++ [new_post v o userId b]
        /\ scheduled_post_targets (fst run) = scheduled_post_targets db ++ news
        /\ Forall2 (target_for (new_post_id o)) (platforms b) news
        /\ social_accounts (fst run) = social_accounts db
        /\ media_assets (fst run) = media_assets db
        /\ snd run = Json 201 s payload).
Proof.
  intros Hfk. cbv zeta. unfold insert_post_and_targets.
  destruct (if post_insert_fault o then None
            else insert_post db (new_post v o userId b)) as [db1|] eqn:Hpost;
    [|left; split; [reflexivity | eexists; reflexivity]].
  destruct (post_insert_fault o); [discriminate|].
  destruct (if targets_insert_fault o then None else _) as [db2|] eqn:Htargets.
  - right. destruct (targets_insert_fault o); [discriminate|].
    unfold insert_targets in Htargets.
    destruct (insert_target_rows _ _ _ _) as [table|] eqn:Hrows; [|discriminate].
    injection Htargets as <-.
    apply insert_target_rows_some in Hrows. destruct Hrows as (news & -> & Hall).
    destruct (insert_post_some _ _ _ Hpost) as [-> _].
    exists news. do 2 eexists. cbn [fst snd].
    repeat (split; [reflexivity|]). split; [exact Hall|].
    repeat (split; [reflexivity|]). reflexivity.
  - left. cbn [fst snd]. split; [|eexists; reflexivity].
    now apply rollback_restores.
Qed.

(** C4. From a store whose target rows all point at existing posts, a
    creation request either leaves the store exactly as it was and is
    answered with an error (or the preflight reply), or adds the post row
    together with one queued target row per requested platform and is
    answered 201.  In particular, when the post row has been inserted and
    the target insert is then refused, the post row is deleted again
    before the error is returned. *)
Theorem create_atomic (v : Variant) (o : CreateOracle) (db : Store)
    (req : CreateRequest) :
  referential_integrity db ->
  let run := createScheduledPost v o db req in
  ((fst run = db
    /\ (snd run = Preflight \/ exists st code, snd run = errorResponse st code))
   \/ (exists userId b news s payload,
         create_user req = Some userId /\ create_body req = Some b
         /\ scheduled_posts (fst run)
            = scheduled_posts db ++ [new_post v o userId b]
         /\ scheduled_post_targets (fst run)
            = scheduled_post_targets db ++ news
         /\ Forall2 (target_for (new_post_id o)) (platforms b) news
         /\ social_accounts (fst run) = social_accounts db
         /\ media_assets (fst run) = media_assets db
         /\ snd run = Json 201 s payload))
  /\ (forall userId b db1,
        post_insert_fault o = false ->
        insert_post db (new_post v o userId b) = Some db1 ->
        targets_insert_fault o = true
        \/ insert_targets (targets_insert_now o) db1
             (targetInserts o (new_post_id o) b) = None ->
        In (new_post v o userId b) (scheduled_posts db1)
        /\ fst (insert_post_and_targets v o db userId b) = db
        /\ exists code,
             snd (insert_post_and_targets v o db userId b)
             = errorResponse 500 code).
Proof.
  intros Hfk. cbv zeta. split.
  - assert (Hcore : forall userId b,
              create_user req = Some userId -> create_body req = Some b ->
              let run := insert_post_and_targets v o db userId b in
              (fst run = db
               /\ (snd run = Preflight
                   \/ exists st code, snd run = errorResponse st code))
              \/ (exists userId b news s payload,
                    create_user req = Some userId /\ create_body req = Some b
                    /\ scheduled_posts (fst run)
                       = scheduled_posts db ++ [new_post v o userId b]
                    /\ scheduled_post_targets (fst run)
                       = scheduled_post_targets db ++ news
                    /\ Forall2 (target_for (new_post_id o)) (platforms b) news
                    /\ social_accounts (fst run) = social_accounts db
                    /\ media_assets (fst run) = media_assets db
                    /\ snd run = Json 201 s payload)).
    { intros userId b Hu Hb. cbv zeta.
      destruct (insert_post_and_targets_atomic v o db userId b Hfk)
        as [[Hdb (code & Hres)] | (news & s & payload & H)].
      - left. split; [exact Hdb | right; exists 500, code; exact Hres].
      - right. exists userId, b, news, s, payload. auto. }
    assert (Hrej : forall st code,
              (fst (db, errorResponse st code) = db
               /\ (snd (db, errorResponse st code) = Preflight
                   \/ exists st' code',
                        snd (db, errorResponse st code) = errorResponse st' code'))).
    { intros st code. split; [reflexivity | right; exists st, code; reflexivity]. }
    unfold createScheduledPost.
    destruct (Method_eqb (create_method req) OPTIONS);
      [left; split; [reflexivity | now left]|].
    destruct (negb (Method_eqb (create_method req) POST)); [left; apply Hrej|].
    destruct (create_user req) as [userId|] eqn:Hu; [|left; apply Hrej].
    destruct (create_body req) as [b|] eqn:Hb; [|left; apply Hrej].
    destruct (negb (validate_create v b)); [left; apply Hrej|].
    destruct (scheduledAt b <=? create_now o); [left; apply Hrej|].
    destruct v.
    + now apply Hcore.
    + destruct (Nat.ltb 0 (length (missingPlatforms db userId (platforms b))));
        [left; apply Hrej|].
      destruct (match mediaAssetIds b with Some _ => _ | None => false end);
        [left; apply Hrej|].
      now apply Hcore.
  - intros userId b db1 Hnofault Hpost Htargets.
    split.
    { destruct (insert_post_some _ _ _ Hpost) as [-> _]. simpl.
      apply in_or_app. right. now left. }
    unfold insert_post_and_targets. rewrite Hnofault, Hpost.
    assert (Hnone : (if targets_insert_fault o then None
                     else insert_targets (targets_insert_now o) db1
                            (targetInserts o
                               (post_row_id (new_post v o userId b)) b)) = None).
    { destruct (targets_insert_fault o); [reflexivity|].
      destruct Htargets as [Ht | Ht]; [discriminate | exact Ht]. }
    rewrite Hnone. cbn [fst snd].
    split; [now apply rollback_restores | eexists; reflexivity].
Qed.

Lemma sample_integrity : referential_integrity Sample.one_queued.
Proof.
  intros t [<- | []]. eexists. split; [left; reflexivity | reflexivity].
Defined.

(** A request that names the same platform twice: the post row goes in,
    the second target row is refused (one target per post and platform), and
    the post row is taken out again. *)
Lemma create_atomic_witness :
  let db := Sample.one_queued in
  let b := {| contentRaw := "hello"%string;
              platforms := ["twitter"%string; "twitter"%string];
              scheduledAt := 9000; body_timezone := "UTC"%string;
              mediaAssetIds := None; body_variants := None |} in
  fst (insert_post_and_targets Scheduling Sample.create_oracle db 1%nat b) = db
  /\ exists code,
       snd (insert_post_and_targets Scheduling Sample.create_oracle db 1%nat b)
       = errorResponse 500 code.
Proof.
  cbv zeta.
  destruct (create_atomic Scheduling Sample.create_oracle Sample.one_queued
              (Sample.create_request ["twitter"%string; "twitter"%string])
              sample_integrity) as [_ Hrollback].
  refine (proj2 (Hrollback 1%nat
                   {| contentRaw := "hello"%string;
                      platforms := ["twitter"%string; "twitter"%string];
                      scheduledAt := 9000; body_timezone := "UTC"%string;
                      mediaAssetIds := None; body_variants := None |}
                   (with_posts Sample.one_queued
                      (scheduled_posts Sample.one_queued
                       ++ [new_post Scheduling Sample.create_oracle 1%nat
                             {| contentRaw := "hello"%string;
                                platforms := ["twitter"%string; "twitter"%string];
                                scheduledAt := 9000;
                                body_timezone := "UTC"%string;
                                mediaAssetIds := None;
                                body_variants := None |}]))
                   eq_refl eq_refl (or_intror eq_refl))).
Defined.

Example create_duplicate_platform_rolls_back :
  createScheduledPost Scheduling Sample.create_oracle Sample.one_queued
    (Sample.create_request ["twitter"%string; "twitter"%string])
  = (Sample.one_queued, errorResponse 500 INTERNAL_ERROR).
Proof. vm_compute. reflexivity. Qed.

Example create_unknown_platform_rolls_back :
  createScheduledPost Flat Sample.create_oracle Sample.one_queued
    (Sample.create_request ["twitter"%string; "myspace"%string])
  = (Sample.one_queued, errorResponse 500 CREATE_FAILED).
Proof. vm_compute. reflexivity. Qed.

Example create_one_target :
  let run := createScheduledPost Scheduling Sample.create_oracle
               Sample.one_queued (Sample.create_request ["twitter"%string]) in
  map post_row_id (scheduled_posts (fst run)) = [10; 20]%nat
  /\ map (fun t => (target_id t, post_id t, platform t, status t))
         (scheduled_post_targets (fst run))
     = [(100, 10, twitter, queued); (200, 20, twitter, queued)]%nat.
Proof. vm_compute. split; reflexivity. Qed.

End CreateFacts.

(** ** Scheduling worker: what a cycle selects *)

Module SelectionFacts.

Lemma find_post_in db id p :
  find_post db id = Some p -> In p (scheduled_posts db) /\ post_row_id p = id.
Proof.
  intros H. split; [|now apply (find_post_id db)]. unfold find_post in H.
  assert (Hin : In p (filter (fun q => Nat.eqb (post_row_id q) id)
                             (scheduled_posts db))).
  { destruct (filter _ _) as [|x [|y l]]; simpl in H; try discriminate.
    injection H as ->. now left. }
  now apply filter_In in Hin.
Qed.

Lemma inner_join_in db t p :
  In (t, p) (inner_join db) ->
  In t (scheduled_post_targets db) /\ find_post db (post_id t) = Some p.
Proof.
  unfold inner_join. rewrite in_flat_map. intros (t0 & Hin & Hrow).
  destruct (find_post db (post_id t0)) as [p0|] eqn:E; [|contradiction].
  destruct Hrow as [Heq | []]. injection Heq as -> ->. now split.
Qed.

Lemma filter_none {A} (f : A -> bool) (l : list A) :
  (forall x, In x l -> f x = false) -> filter f l = [].
Proof.
  induction l as [|x l IH]; simpl; intros H; [reflexivity|].
  rewrite H by now left. apply IH. intros; apply H; now right.
Qed.

Lemma queuedTargets_in v db now r :
  In r (queuedTargets v db now) -> In r (inner_join db) /\ is_due now r = true.
Proof.
  destruct v; unfold queuedTargets; intros H; apply QueryFacts.in_firstn in H.
  - now apply filter_In in H.
  - apply filter_In. eapply Permutation_in; [apply QueryFacts.order_perm | exact H].
Qed.

(** The cycle in terms of what it selects. *)
Lemma runCycle_selection v o db req :
  runCycle v o db req =
  if negb (worker_authorized v req) then (db, errorResponse 401 UNAUTHORIZED)
  else
    match cycle_targets v o db with
    | [] => (db, successResponse 200 PNoTargets)
    | _ :: _ =>
        let postIds :=
          unique (map (fun r => post_row_id (snd r)) (cycle_targets v o db)) in
        let db1 :=
          update_posts
            (fun p => existsb (Nat.eqb (post_row_id p)) postIds
                      && PostStatus_eqb (post_status p) PostQueued)
            (set_post_status PostPublishing) (claim_now o) db in
        let '(db2, results) := dispatch v (call o) db1 (cycle_targets v o db) in
        (db2, successResponse 200
                (PCycle (length results)
                   (length (filter result_success results))
                   (length (filter (fun r => negb (result_success r)) results))
                   results))
    end.
Proof. reflexivity. Qed.

Lemma selected_row (v : Variant) (o : WorkerOracle)
    (db : Store) (r : TargetWithPost) :
  In r (cycle_targets v o db) ->
  In (fst r) (scheduled_post_targets db)
  /\ find_post db (post_id (fst r)) = Some (snd r)
  /\ ((status (fst r) = queued
       /\ post_status (snd r) = PostQueued
       /\ scheduled_at (snd r) <= cycle_now o)
      \/ (status (fst r) = retrying
          /\ attempt_count (fst r) < Backoff.MAX_RETRY_ATTEMPTS
          /\ (post_status (snd r) = PostQueued
              \/ post_status (snd r) = PostPublishing
              \/ post_status (snd r) = PostPartial)
          /\ Backoff.shouldRetryTarget (attempt_count (fst r))
               (last_attempt_at (fst r)) (backoff_now o) = true)).
Proof.
  unfold cycle_targets. rewrite in_app_iff. destruct r as [t p]. cbn [fst snd].
  intros [Hq | Hr].
  - apply queuedTargets_in in Hq. destruct Hq as [Hin Hdue].
    destruct (inner_join_in _ _ _ Hin) as [Ht Hp].
    split; [exact Ht|]. split; [exact Hp|]. left.
    unfold is_due in Hdue. cbn [fst snd] in Hdue.
    apply andb_prop in Hdue. destruct Hdue as [Hdue Hat].
    apply andb_prop in Hdue. destruct Hdue as [Hst Hps].
    apply TargetStatus_eqb_eq in Hst. apply PostStatus_eqb_eq in Hps.
    apply Z.leb_le in Hat. auto.
  - apply filter_In in Hr. destruct Hr as [Hr Hback]. cbn [fst] in Hback.
    unfold retryingTargets in Hr. apply QueryFacts.in_firstn in Hr.
    apply filter_In in Hr. destruct Hr as [Hin Hsel]. cbn [fst snd] in Hsel.
    destruct (inner_join_in _ _ _ Hin) as [Ht Hp].
    split; [exact Ht|]. split; [exact Hp|]. right.
    apply andb_prop in Hsel. destruct Hsel as [Hsel Hps].
    apply andb_prop in Hsel. destruct Hsel as [Hst Hcount].
    apply TargetStatus_eqb_eq in Hst. apply Z.ltb_lt in Hcount.
    split; [exact Hst|]. split; [exact Hcount|]. split.
    + destruct (post_status p); simpl in Hps; try discriminate; auto.
    + destruct v; exact Hback.
Qed.

(** X1. Every row a cycle dispatches is a stored target joined with its
    parent post, and is either queued under a queued post that is due, or
    retrying with attempts left, under a post that is queued, publishing or
    partial, with its backoff elapsed.  So a target that is sent, failed,
    cancelled or publishing is never dispatched, nor is any target of a
    cancelled, published or failed post. *)
Theorem cycle_selects_only_eligible (v : Variant) (o : WorkerOracle)
    (db : Store) (r : TargetWithPost) :
  In r (cycle_targets v o db) ->
  In (fst r) (scheduled_post_targets db)
  /\ find_post db (post_id (fst r)) = Some (snd r)
  /\ ((status (fst r) = queued
       /\ post_status (snd r) = PostQueued
       /\ scheduled_at (snd r) <= cycle_now o)
      \/ (status (fst r) = retrying
          /\ attempt_count (fst r) < Backoff.MAX_RETRY_ATTEMPTS
          /\ (post_status (snd r) = PostQueued
              \/ post_status (snd r) = PostPublishing
              \/ post_status (snd r) = PostPartial)
          /\ Backoff.shouldRetryTarget (attempt_count (fst r))
               (last_attempt_at (fst r)) (backoff_now o) = true)).
Proof. apply selected_row. Qed.

Lemma cycle_selects_only_eligible_witness :
  status (Sample.mk_target 101 11 twitter queued 0 None) = queued
  \/ status (Sample.mk_target 101 11 twitter queued 0 None) = retrying.
Proof.
  destruct (cycle_selects_only_eligible Scheduling
              (Sample.worker_oracle Sample.rate_limited 5000) Sample.two_due
              (Sample.mk_target 101 11 twitter queued 0 None,
               Sample.mk_post 11 1 1000 PostQueued)
              ltac:(left; reflexivity))
    as (_ & _ & [(H & _) | (H & _)]); [left | right]; exact H.
Defined.

(** X2. When every post is scheduled after the cycle's clock reading and no
    target is retrying, an authorized cycle changes nothing in the store
    and reports that no targets were due. *)
Theorem cycle_before_due_is_idle (v : Variant) (o : WorkerOracle)
    (db : Store) (req : WorkerRequest) :
  worker_authorized v req = true ->
  (forall p, In p (scheduled_posts db) -> cycle_now o < scheduled_at p) ->
  (forall t, In t (scheduled_post_targets db) -> status t <> retrying) ->
  runCycle v o db req = (db, successResponse 200 PNoTargets).
Proof.
  intros Hauth Hfuture Hnoretry. rewrite runCycle_selection, Hauth. cbn [negb].
  assert (Hdue : filter (is_due (cycle_now o)) (inner_join db) = []).
  { apply filter_none. intros [t p] Hin.
    destruct (inner_join_in _ _ _ Hin) as [_ Hp].
    destruct (find_post_in _ _ _ Hp) as [Hpin _].
    specialize (Hfuture p Hpin). unfold is_due. cbn [fst snd].
    destruct (Z.leb_spec (scheduled_at p) (cycle_now o)); [lia|].
    now rewrite andb_false_r. }
  assert (Hretry : retryingTargets db = []).
  { unfold retryingTargets. rewrite filter_none; [reflexivity|].
    intros [t p] Hin. destruct (inner_join_in _ _ _ Hin) as [Ht _].
    specialize (Hnoretry t Ht). cbn [fst snd].
    destruct (status t); try reflexivity. congruence. }
  unfold cycle_targets, queuedTargets. rewrite Hdue, Hretry.
  destruct v; reflexivity.
Qed.

Lemma cycle_before_due_is_idle_witness :
  runCycle Scheduling (Sample.worker_oracle Sample.published_ok 500)
    Sample.two_due Sample.cron_request
  = (Sample.two_due, successResponse 200 PNoTargets).
Proof.
  apply cycle_before_due_is_idle.
  - reflexivity.
  - intros p [<- | [<- | []]]; simpl; lia.
  - intros t [<- | [<- | []]]; discriminate.
Defined.

End SelectionFacts.

(** ** Scheduling worker: who may trigger it, and what it reports *)

Module CycleFacts.

(** X3. The flat worker runs only for a request that carries the service
    key (in the Authorization header or as the internal key); without it
    the answer is 401 and the store is untouched.  The [scheduling/] worker
    looks at the internal key only when the request is not a POST and the
    Authorization header lacks the key: a POST request runs the cycle
    whatever its headers, exactly as a request carrying the key does. *)
Theorem worker_authorization (o : WorkerOracle) (db : Store) :
  (forall req,
     authorization_has_key req = false ->
     worker_internal_key_ok req = false ->
     runCycle Flat o db req = (db, errorResponse 401 UNAUTHORIZED))
  /\ (forall req,
       Method_eqb (worker_method req) POST = false ->
       authorization_has_key req = false ->
       worker_internal_key_ok req = false ->
       runCycle Scheduling o db req = (db, errorResponse 401 UNAUTHORIZED))
  /\ (forall req req',
       worker_method req = POST ->
       authorization_has_key req' = true ->
       runCycle Scheduling o db req = runCycle Scheduling o db req').
Proof.
  split; [|split].
  - intros req Ha Hk. rewrite SelectionFacts.runCycle_selection.
    unfold worker_authorized. now rewrite Ha, Hk.
  - intros req Hm Ha Hk. rewrite SelectionFacts.runCycle_selection.
    unfold worker_authorized. now rewrite Hm, Ha, Hk.
  - intros req req' Hm Ha. rewrite !SelectionFacts.runCycle_selection.
    unfold worker_authorized. rewrite Hm, Ha.
    cbn [Method_eqb negb andb]. now rewrite andb_false_r.
Qed.

Lemma worker_authorization_witness :
  runCycle Scheduling (Sample.worker_oracle Sample.published_ok 5000)
    Sample.two_due
    {| worker_method := POST; authorization_has_key := false;
       worker_internal_key_ok := false |}
  = runCycle Scheduling (Sample.worker_oracle Sample.published_ok 5000)
      Sample.two_due Sample.cron_request.
Proof.
  destruct (worker_authorization (Sample.worker_oracle Sample.published_ok 5000)
              Sample.two_due) as (_ & _ & H).
  apply H; reflexivity.
Defined.

Lemma dispatch_ids v calls db targets :
  map result_targetId (snd (dispatch v calls db targets))
  = map (fun r => target_id (fst r)) targets
  /\ map result_platform (snd (dispatch v calls db targets))
     = map (fun r => platform (fst r)) targets.
Proof.
  revert db. induction targets as [|r l IH]; intros db; simpl; [now split|].
  destruct (fetch_throws _).
  - specialize (IH db). destruct (dispatch v calls db l). simpl in *.
    destruct IH as [-> ->]. now split.
  - destruct (publishPost v _ db _) as [db' res].
    specialize (IH db'). destruct (dispatch v calls db' l). simpl in *.
    destruct IH as [-> ->]. now split.
Qed.

Lemma cycle_targets_length v o db :
  (length (cycle_targets v o db) <= 2 * BATCH_SIZE)%nat.
Proof.
  unfold cycle_targets. rewrite length_app.
  assert (Hq : (length (queuedTargets v db (cycle_now o)) <= BATCH_SIZE)%nat)
    by (destruct v; apply firstn_le_length).
  assert (Hr : (length (retryingTargets db) <= BATCH_SIZE)%nat)
    by apply firstn_le_length.
  pose proof (filter_length_le
                (fun r => backoff_filter v (attempt_count (fst r))
                            (last_attempt_at (fst r)) (backoff_now o))
                (retryingTargets db)).
  eapply Nat.le_trans;
    [apply Nat.add_le_mono;
       [exact Hq | eapply Nat.le_trans; [exact H | exact Hr]]|].
  unfold BATCH_SIZE. lia.
Qed.

(** X4. A cycle report lists one entry per dispatched target, in dispatch
    order and with the target's id and platform, whether the call for it
    succeeded, failed or threw; the number processed is the number of rows
    selected, at most two batches. *)
Theorem cycle_report_covers_selection (v : Variant) (o : WorkerOracle)
    (db db' : Store) (req : WorkerRequest)
    (processed succeeded failedCount : nat) (results : list WorkerResult) :
  runCycle v o db req
  = (db', Json 200 (Some true)
            (PCycle processed succeeded failedCount results)) ->
  map result_targetId results
  = map (fun r => target_id (fst r)) (cycle_targets v o db)
  /\ map result_platform results
     = map (fun r => platform (fst r)) (cycle_targets v o db)
  /\ processed = length (cycle_targets v o db)
  /\ (processed <= 2 * BATCH_SIZE)%nat.
Proof.
  rewrite SelectionFacts.runCycle_selection.
  destruct (negb (worker_authorized v req)); [discriminate|].
  pose proof (cycle_targets_length v o db) as Hlen.
  destruct (cycle_targets v o db) as [|r l] eqn:E; [discriminate|].
  cbv zeta.
  match goal with
  | |- context [dispatch v (call o) ?d ?ts] =>
      pose proof (dispatch_ids v (call o) d ts) as [Hids Hpf];
      pose proof (WorkerFacts.dispatch_length v (call o) d ts) as Hn;
      destruct (dispatch v (call o) d ts) as [db2 rs]
  end.
  cbn [snd] in *. intros H. injection H as _ <- _ _ <-.
  split; [exact Hids|]. split; [exact Hpf|]. split; [exact Hn|].
  rewrite Hn. exact Hlen.
Qed.

Lemma cycle_report_covers_selection_witness :
  exists results,
    snd (runCycle Scheduling (Sample.worker_oracle Sample.rate_limited 5000)
           Sample.two_due Sample.cron_request)
    = Json 200 (Some true) (PCycle 2 2 0 results)
    /\ map result_targetId results = [101; 100]%nat.
Proof.
  eassert (E : runCycle Scheduling
                 (Sample.worker_oracle Sample.rate_limited 5000)
                 Sample.two_due Sample.cron_request
               = (_, Json 200 (Some true) (PCycle 2 2 0 _))).
  { vm_compute. reflexivity. }
  eexists. split; [rewrite E; reflexivity|].
  exact (proj1 (cycle_report_covers_selection _ _ _ _ _ _ _ _ _ E)).
Defined.

End CycleFacts.

(** ** Delivery executor: what one run may change *)

Module HandlerFacts.
Import DeliveryFacts.

Lemma update_twice_rows db id g1 g2 n1 n2 :
  (forall t, target_id (g1 t) = target_id t) ->
  scheduled_post_targets
    (update_targets (by_target_id id) g2 n2
       (update_targets (by_target_id id) g1 n1 db))
  = map (fun y => if by_target_id id y
                  then stamp_target n2 (g2 (stamp_target n1 (g1 y)))
                  else y)
        (scheduled_post_targets db).
Proof.
  intros Hid. unfold update_targets; cbn [scheduled_post_targets with_targets].
  rewrite map_map. apply map_ext. intros y.
  destruct (by_target_id id y) eqn:E; [|now rewrite E].
  unfold by_target_id in *. cbn [stamp_target target_id]. now rewrite Hid, E.
Qed.

Lemma publishPost_rows v o db req :
  exists f,
    scheduled_post_targets (fst (publishPost v o db req))
    = map f (scheduled_post_targets db)
    /\ forall y, In y (scheduled_post_targets db) ->
                 f y = y \/ attempted req y (f y).
Proof.
  assert (Hsame : exists f,
             scheduled_post_targets db = map f (scheduled_post_targets db)
             /\ forall y, In y (scheduled_post_targets db) ->
                          f y = y \/ attempted req y (f y)).
  { exists (fun t => t). split; [now rewrite map_id | now left]. }
  unfold publishPost.
  destruct (Method_eqb (publish_method req) OPTIONS); [exact Hsame|].
  destruct (negb (Method_eqb (publish_method req) POST)); [exact Hsame|].
  destruct (negb (internal_key_ok req)); [exact Hsame|].
  destruct (publish_body req) as [targetId|] eqn:Hbody; [|exact Hsame].
  destruct (fetch_target db targetId) as [[target parent]|] eqn:Hf;
    [|exact Hsame].
  destruct (includes TargetStatus_eqb [queued; retrying] (status target))
    eqn:Hst; [|exact Hsame].
  cbn [negb].
  destruct (Z.geb_spec (attempt_count target) Backoff.MAX_RETRY_ATTEMPTS)
    as [Hge | Hlt]; [exact Hsame|].
  destruct parent as [post|]; [|exact Hsame].
  pose proof (fun y => fetch_target_row db targetId target _ y Hf) as Huniq.
  assert (Htid : target_id target = targetId).
  { destruct (fetch_target_find _ _ _ _ Hf) as [Hfind _].
    unfold find_target in Hfind.
    assert (Hin : In target (filter (by_target_id targetId)
                               (scheduled_post_targets db))).
    { destruct (filter _ _) as [|x [|z l]]; simpl in Hfind; try discriminate.
      injection Hfind as ->. now left. }
    apply filter_In in Hin. destruct Hin as [_ Hin]. now apply Nat.eqb_eq. }
  assert (Hatt : forall t',
            target_id t' = target_id target -> post_id t' = post_id target ->
            platform t' = platform target ->
            content_final t' = content_final target ->
            attempt_count t' = attempt_count target + 1 ->
            (status t' = sent \/ status t' = failed
             \/ (status t' = retrying
                 /\ attempt_count target + 1 < Backoff.MAX_RETRY_ATTEMPTS)) ->
            attempted req target t').
  { intros t' H1 H2 H3 H4 H5 H6. unfold attempted.
    split; [now rewrite Hbody, Htid|].
    repeat (split; [assumption|]). exact H6. }
  assert (Hrow : forall y g,
            In y (scheduled_post_targets db) ->
            (attempted req target (g target)) ->
            (if by_target_id targetId y then g y else y) = y
            \/ attempted req y (if by_target_id targetId y then g y else y)).
  { intros y g Hin Hg. destruct (by_target_id targetId y) eqn:E; [|now left].
    right. now rewrite (Huniq y Hin E). }
  destruct (fetch_account db (user_id post) (platform target)).
  - cbv zeta. destruct (publish_success (platform_answer o)); cbn [fst];
      rewrite AggregatorFacts.aggregate_targets, update_twice_rows
        by reflexivity;
      eexists; (split; [reflexivity|]); intros y Hin; cbv beta;
      apply (Hrow y (fun y => stamp_target _
                                (_ (stamp_target _ (set_status publishing y))))
               Hin);
      apply Hatt; try reflexivity.
    + now left.
    + cbn. destruct (attempt_count target + 1 <? Backoff.MAX_RETRY_ATTEMPTS)
        eqn:L; [right; right; split; [reflexivity | now apply Z.ltb_lt]
               | right; now left].
  - cbn [fst]. unfold update_targets; cbn [scheduled_post_targets with_targets].
    eexists. split; [reflexivity|]. intros y Hin. cbv beta.
    apply (Hrow y (fun y => stamp_target _ (mark_no_account v target _ y)) Hin).
    apply Hatt; try reflexivity. right. now left.
Qed.

Lemma map_Forall2 {A} (R : A -> A -> Prop) (f : A -> A) (l : list A) :
  (forall y, In y l -> R y (f y)) -> Forall2 R l (map f l).
Proof. apply Forall2_map_self. Qed.

Lemma includes_publishable s :
  includes TargetStatus_eqb [queued; retrying] s = true <->
  s = queued \/ s = retrying.
Proof.
  destruct s; simpl; split; intros H; try discriminate; auto;
    destruct H as [H | H]; discriminate.
Qed.

Lemma publishPost_accounts v o db req :
  social_accounts (fst (publishPost v o db req)) = social_accounts db
  /\ media_assets (fst (publishPost v o db req)) = media_assets db
  /\ map post_row_id (scheduled_posts (fst (publishPost v o db req)))
     = map post_row_id (scheduled_posts db).
Proof.
  assert (Hagg : forall d pid now,
            social_accounts (aggregate v d pid now) = social_accounts d
            /\ media_assets (aggregate v d pid now) = media_assets d
            /\ map post_row_id (scheduled_posts (aggregate v d pid now))
               = map post_row_id (scheduled_posts d)).
  { intros d pid now. rewrite AggregatorFacts.aggregate_cases.
    destruct (target_statuses d pid) as [|s l]; [auto|].
    destruct (hasPending (s :: l)); [auto|].
    unfold update_posts; simpl. split; [reflexivity|]. split; [reflexivity|].
    rewrite map_map. apply map_ext. intros p.
    destruct (Nat.eqb (post_row_id p) pid); reflexivity. }
  unfold publishPost.
  destruct (Method_eqb (publish_method req) OPTIONS); [auto|].
  destruct (negb (Method_eqb (publish_method req) POST)); [auto|].
  destruct (negb (internal_key_ok req)); [auto|].
  destruct (publish_body req) as [targetId|]; [|auto].
  destruct (fetch_target db targetId) as [[target parent]|]; [|auto].
  destruct (negb _); [auto|].
  destruct (attempt_count target >=? Backoff.MAX_RETRY_ATTEMPTS); [auto|].
  destruct parent as [post|]; [|auto].
  destruct (fetch_account db (user_id post) (platform target)); [|auto].
  cbv zeta. destruct (publish_success (platform_answer o)); cbn [fst];
    match goal with
    | |- context [aggregate v ?d ?pid ?now] =>
        destruct (Hagg d pid now) as (-> & -> & ->)
    end; auto.
Qed.

Lemma Forall2_unchanged {A} (P : A -> Prop) (l l' : list A) :
  Forall2 (fun t t' => P t -> t' = t) l l' ->
  (forall t, In t l -> P t) -> l' = l.
Proof.
  induction 1 as [|t t' l l' H _ IH]; intros HP; [reflexivity|].
  rewrite (H (HP t (or_introl eq_refl))). f_equal.
  apply IH. intros; apply HP; now right.
Qed.

(** X5. A run of the publish handler, whatever the request, changes no
    target row other than the one requested, and does not change that one
    either unless it is queued or retrying with fewer than three attempts:
    rows that are sent, failed, cancelled, publishing or exhausted stay
    exactly as they are.  It never adds or removes a row, and never touches
    the social accounts or the set of posts. *)
Theorem publish_changes_only_the_pending_row (v : Variant) (o : PublishOracle)
    (db : Store) (req : PublishRequest) :
  Forall2
    (fun t t' =>
       (publish_body req <> Some (target_id t)
        \/ (status t <> queued /\ status t <> retrying)
        \/ Backoff.MAX_RETRY_ATTEMPTS <= attempt_count t) ->
       t' = t)
    (scheduled_post_targets db)
    (scheduled_post_targets (fst (publishPost v o db req)))
  /\ social_accounts (fst (publishPost v o db req)) = social_accounts db
  /\ map post_row_id (scheduled_posts (fst (publishPost v o db req)))
     = map post_row_id (scheduled_posts db).
Proof.
  split.
  - destruct (publishPost_rows v o db req) as (f & -> & Hf).
    apply Forall2_map_self. intros y Hin Hcond.
    destruct (Hf y Hin) as [H | (Hb & Hs & Hc & _)]; [exact H|].
    apply includes_publishable in Hs.
    destruct Hcond as [Hn | [[Hq Hr] | Hge]];
      [contradiction | destruct Hs; contradiction | lia].
  - destruct (publishPost_accounts v o db req) as (Ha & _ & Hp). now split.
Qed.

Lemma publish_changes_only_the_pending_row_witness :
  scheduled_post_targets
    (fst (publishPost Flat (Sample.oracle Sample.published_ok 5000)
            Sample.delivered (publish_request 100)))
  = scheduled_post_targets Sample.delivered.
Proof.
  destruct (publish_changes_only_the_pending_row Flat
              (Sample.oracle Sample.published_ok 5000) Sample.delivered
              (publish_request 100)) as [Hrows _].
  apply (Forall2_unchanged _ _ _ Hrows).
  intros t [<- | [<- | []]].
  - right. left. split; discriminate.
  - left. discriminate.
Defined.

(** X6. The publish handler writes to the store only when it answers 200
    or the no-account error: with any other answer (wrong method, missing
    key, invalid body, unknown target, target not queued or retrying,
    attempts exhausted, parent missing) the store is exactly as before.  For
    a well-formed request the answer is 404 when no row has the id, 400
    invalid-status when the row is not queued or retrying, and 400
    max-retries when it is but has three or more attempts. *)
Theorem publish_rejections_write_nothing (v : Variant) (o : PublishOracle)
    (db : Store) :
  (forall req,
     (exists payload, snd (publishPost v o db req) = Json 200 (Some true) payload)
     \/ snd (publishPost v o db req) = errorResponse 400 NO_ACCOUNT
     \/ fst (publishPost v o db req) = db)
  /\ (forall targetId,
       fetch_target db targetId = None ->
       publishPost v o db (publish_request targetId)
       = (db, errorResponse 404 NOT_FOUND))
  /\ (forall targetId target parent,
       fetch_target db targetId = Some (target, parent) ->
       status target <> queued -> status target <> retrying ->
       publishPost v o db (publish_request targetId)
       = (db, errorResponse 400 INVALID_STATUS))
  /\ (forall targetId target parent,
       fetch_target db targetId = Some (target, parent) ->
       status target = queued \/ status target = retrying ->
       Backoff.MAX_RETRY_ATTEMPTS <= attempt_count target ->
       publishPost v o db (publish_request targetId)
       = (db, errorResponse 400 MAX_RETRIES_EXCEEDED)).
Proof.
  split; [|split; [|split]].
  - intros req. unfold publishPost.
    destruct (Method_eqb (publish_method req) OPTIONS); [auto|].
    destruct (negb (Method_eqb (publish_method req) POST)); [auto|].
    destruct (negb (internal_key_ok req)); [auto|].
    destruct (publish_body req) as [targetId|]; [|auto].
    destruct (fetch_target db targetId) as [[target parent]|]; [|auto].
    destruct (negb _); [auto|].
    destruct (attempt_count target >=? Backoff.MAX_RETRY_ATTEMPTS); [auto|].
    destruct parent as [post|]; [|auto].
    destruct (fetch_account db (user_id post) (platform target)); [|auto].
    cbv zeta. destruct (publish_success (platform_answer o)); left;
      eexists; reflexivity.
  - intros targetId Hf. now rewrite publishPost_valid_request, Hf.
  - intros targetId target parent Hf Hq Hr.
    rewrite publishPost_valid_request, Hf.
    destruct (status target); try congruence; reflexivity.
  - intros targetId target parent Hf Hs Hge.
    rewrite publishPost_valid_request, Hf.
    apply includes_publishable in Hs. rewrite Hs. cbn [negb].
    destruct (Z.geb_spec (attempt_count target) Backoff.MAX_RETRY_ATTEMPTS);
      [reflexivity | lia].
Qed.

(** A second attempt on the sample target that is already sent. *)
Lemma publish_rejections_write_nothing_witness :
  publishPost Scheduling (Sample.oracle Sample.published_ok 5000)
    Sample.delivered (publish_request 100)
  = (Sample.delivered, errorResponse 400 INVALID_STATUS).
Proof.
  destruct (publish_rejections_write_nothing Scheduling
              (Sample.oracle Sample.published_ok 5000) Sample.delivered)
    as (_ & _ & H & _).
  apply (H 100%nat (Sample.mk_target 100 10 twitter sent 1 (Some 2000))
           (Some (Sample.mk_post 10 1 1000 PostPublishing)));
    [reflexivity | discriminate | discriminate].
Defined.

End HandlerFacts.

(** ** An invariant of the attempt bookkeeping *)

Module RangeFacts.
Import DeliveryFacts.

Lemma attempted_in_range req y y' :
  attempts_in_range y -> attempted req y y' -> attempts_in_range y'.
Proof.
  unfold attempts_in_range, attempted, Backoff.MAX_RETRY_ATTEMPTS.
  intros (Hb & Hq & Hr) (_ & Hs & Hlt & _ & _ & _ & _ & Hc & Hst).
  apply HandlerFacts.includes_publishable in Hs.
  assert (0 <= attempt_count y <= 2) by lia.
  destruct Hst as [E | [E | [E Hl]]]; rewrite E, Hc;
    (split; [lia|]); split; intros; try discriminate; lia.
Qed.

Lemma publishPost_in_range v o db req :
  Forall attempts_in_range (scheduled_post_targets db) ->
  Forall attempts_in_range
    (scheduled_post_targets (fst (publishPost v o db req))).
Proof.
  intros Hall. destruct (HandlerFacts.publishPost_rows v o db req) as (f & -> & Hf).
  rewrite Forall_forall in *. intros y' Hin. apply in_map_iff in Hin.
  destruct Hin as (y & <- & Hy).
  destruct (Hf y Hy) as [-> | Hatt]; [now apply Hall|].
  eapply attempted_in_range; [apply Hall, Hy | exact Hatt].
Qed.

Lemma dispatch_in_range v calls db l :
  Forall attempts_in_range (scheduled_post_targets db) ->
  Forall attempts_in_range
    (scheduled_post_targets (fst (dispatch v calls db l))).
Proof.
  revert db. induction l as [|r l IH]; intros db Hall; simpl; [exact Hall|].
  destruct (fetch_throws _).
  - specialize (IH db Hall). destruct (dispatch v calls db l). exact IH.
  - pose proof (publishPost_in_range v (endpoint (calls (target_id (fst r))))
                  db (publish_request (target_id (fst r))) Hall) as Hone.
    destruct (publishPost v _ db _) as [db' res]. cbn [fst] in Hone.
    specialize (IH db' Hone). destruct (dispatch v calls db' l). exact IH.
Qed.

Lemma runCycle_in_range v o db req :
  Forall attempts_in_range (scheduled_post_targets db) ->
  Forall attempts_in_range (scheduled_post_targets (fst (runCycle v o db req))).
Proof.
  intros Hall. rewrite SelectionFacts.runCycle_selection.
  destruct (negb (worker_authorized v req)); [exact Hall|].
  destruct (cycle_targets v o db) as [|r l]; [exact Hall|].
  cbv zeta.
  match goal with
  | |- context [dispatch v (call o) ?d ?ts] =>
      pose proof (dispatch_in_range v (call o) d ts Hall) as H;
      destruct (dispatch v (call o) d ts) as [db2 results]
  end.
  exact H.
Qed.

Lemma cancel_in_range v now db req :
  Forall attempts_in_range (scheduled_post_targets db) ->
  Forall attempts_in_range
    (scheduled_post_targets (fst (cancelScheduledPost v now db req))).
Proof.
  intros Hall. unfold cancelScheduledPost.
  destruct (Method_eqb (cancel_method req) OPTIONS); [exact Hall|].
  destruct (negb (Method_eqb (cancel_method req) PATCH)); [exact Hall|].
  destruct (cancel_user req) as [userId|]; [|exact Hall].
  destruct (cancel_body req) as [postId|]; [|exact Hall].
  destruct (find_post db postId) as [p|]; [|exact Hall].
  destruct (negb (Nat.eqb (user_id p) userId)); [exact Hall|].
  destruct (includes PostStatus_eqb _ (post_status p)); [exact Hall|].
  cbn [fst]. unfold update_targets; simpl.
  rewrite Forall_forall in *. intros y' Hin. apply in_map_iff in Hin.
  destruct Hin as (y & <- & Hy). specialize (Hall y Hy).
  destruct (cancellable_target postId y); [|exact Hall].
  destruct Hall as (Hb & _ & _). unfold attempts_in_range. cbn.
  split; [exact Hb|]. split; discriminate.
Qed.

Lemma insert_target_rows_forall (P : DbScheduledPostTarget -> Prop)
    now posts rows :
  (forall r p, P (new_target now r p)) ->
  forall table table',
    Forall P table ->
    insert_target_rows now posts table rows = Some table' ->
    Forall P table'.
Proof.
  intros Hnew. induction rows as [|r rows IH]; intros table table' Hall; simpl.
  - intros H. now injection H as <-.
  - destruct (platform_of_string (ins_platform r)) as [pf|]; [|discriminate].
    destruct (_ || _); [discriminate|].
    apply IH. apply Forall_app. split; [exact Hall|].
    constructor; [apply Hnew | constructor].
Qed.

Lemma Forall_filter_keep {A} (P : A -> Prop) (f : A -> bool) (l : list A) :
  Forall P l -> Forall P (filter f l).
Proof.
  rewrite !Forall_forall. intros H x Hx. apply filter_In in Hx. now apply H.
Qed.

Lemma create_targets_forall (P : DbScheduledPostTarget -> Prop) v o db req :
  (forall now r p, P (new_target now r p)) ->
  Forall P (scheduled_post_targets db) ->
  Forall P (scheduled_post_targets (fst (createScheduledPost v o db req))).
Proof.
  intros Hnew Hall.
  assert (Hcore : forall userId b,
            Forall P (scheduled_post_targets
                        (fst (insert_post_and_targets v o db userId b)))).
  { intros userId b. unfold insert_post_and_targets.
    destruct (if post_insert_fault o then None
              else insert_post db (new_post v o userId b)) as [db1|] eqn:Hpost;
      [|exact Hall].
    assert (Hdb1 : scheduled_post_targets db1 = scheduled_post_targets db).
    { destruct (post_insert_fault o); [discriminate|].
      now destruct (CreateFacts.insert_post_some _ _ _ Hpost) as [-> _]. }
    destruct (if targets_insert_fault o then None else _) as [db2|] eqn:Ht.
    - destruct (targets_insert_fault o); [discriminate|].
      unfold insert_targets in Ht.
      destruct (insert_target_rows _ _ _ _) as [table|] eqn:Hrows;
        [|discriminate].
      injection Ht as <-. cbn [fst scheduled_post_targets with_targets].
      eapply insert_target_rows_forall; [apply Hnew | | exact Hrows].
      now rewrite Hdb1.
    - cbn [fst]. unfold delete_post. cbn [scheduled_post_targets with_targets].
      apply Forall_filter_keep. now rewrite Hdb1. }
  unfold createScheduledPost.
  destruct (Method_eqb (create_method req) OPTIONS); [exact Hall|].
  destruct (negb (Method_eqb (create_method req) POST)); [exact Hall|].
  destruct (create_user req) as [userId|]; [|exact Hall].
  destruct (create_body req) as [b|]; [|exact Hall].
  destruct (negb (validate_create v b)); [exact Hall|].
  destruct (scheduledAt b <=? create_now o); [exact Hall|].
  destruct v; [apply Hcore|].
  destruct (Nat.ltb 0 (length (missingPlatforms db userId (platforms b))));
    [exact Hall|].
  destruct (match mediaAssetIds b with Some _ => _ | None => false end);
    [exact Hall | apply Hcore].
Qed.

(** X7. If every target row has an attempt count between 0 and 3, is at 0
    while queued and between 1 and 2 while retrying, the same holds after
    any creation request, any publish request, any cancellation request and
    any worker cycle.  The handlers therefore keep the count within the
    limit and keep an attempt in hand for every retrying target. *)
Theorem attempts_stay_in_range (v : Variant) (db : Store) :
  Forall attempts_in_range (scheduled_post_targets db) ->
  (forall o req,
     Forall attempts_in_range
       (scheduled_post_targets (fst (createScheduledPost v o db req))))
  /\ (forall o req,
       Forall attempts_in_range
         (scheduled_post_targets (fst (publishPost v o db req))))
  /\ (forall now req,
       Forall attempts_in_range
         (scheduled_post_targets (fst (cancelScheduledPost v now db req))))
  /\ (forall o req,
       Forall attempts_in_range
         (scheduled_post_targets (fst (runCycle v o db req)))).
Proof.
  intros Hall. split; [|split; [|split]].
  - intros o req. apply create_targets_forall; [|exact Hall].
    intros now r p. unfold attempts_in_range, Backoff.MAX_RETRY_ATTEMPTS. cbn.
    split; [lia|]. split; [reflexivity | discriminate].
  - intros o req. now apply publishPost_in_range.
  - intros now req. now apply cancel_in_range.
  - intros o req. now apply runCycle_in_range.
Qed.

Lemma attempts_stay_in_range_witness :
  Forall attempts_in_range
    (scheduled_post_targets
       (fst (runCycle Flat (Sample.worker_oracle Sample.rate_limited 5000)
               Sample.two_due Sample.cron_request))).
Proof.
  destruct (attempts_stay_in_range Flat Sample.two_due) as (_ & _ & _ & H).
  - repeat constructor; unfold Backoff.MAX_RETRY_ATTEMPTS; simpl;
      try lia; try discriminate.
  - apply H.
Defined.

End RangeFacts.

(** ** Delivery executor: what an attempt means for the post and for the
    next retry *)

Module OutcomeFacts.
Import DeliveryFacts.

Lemma fetch_target_facts db id t post :
  fetch_target db id = Some (t, Some post) ->
  In t (scheduled_post_targets db)
  /\ target_id t = id
  /\ find_post db (post_row_id post) = Some post
  /\ post_id t = post_row_id post.
Proof.
  intros Hf. destruct (fetch_target_find _ _ _ _ Hf) as [Hfind Hparent].
  unfold find_target in Hfind.
  assert (Hin : In t (filter (by_target_id id) (scheduled_post_targets db))).
  { destruct (filter _ _) as [|x [|z l]]; simpl in Hfind; try discriminate.
    injection Hfind as ->. now left. }
  apply filter_In in Hin. destruct Hin as [Hin Hid].
  symmetry in Hparent. pose proof (find_post_id _ _ _ Hparent) as Hpid.
  split; [exact Hin|]. split; [now apply Nat.eqb_eq|].
  split; [now rewrite Hpid | now symmetry].
Qed.

Lemma update_twice_rows_eq db id g1 g2 n1 n2 :
  (forall t, target_id (g1 t) = target_id t) ->
  scheduled_post_targets
    (update_targets (by_target_id id) g2 n2
       (update_targets (by_target_id id) g1 n1 db))
  = map (fun y => if by_target_id id y
                  then stamp_target n2 (g2 (stamp_target n1 (g1 y)))
                  else y)
        (scheduled_post_targets db).
Proof. apply HandlerFacts.update_twice_rows. Qed.

(** The statuses the aggregator reads after the result of an attempt has
    been written: the new status of the attempted row, and the statuses
    of the post's other targets as they were. *)
Lemma statuses_after_write db targetId target post g1 g2 n1 n2 st' :
  fetch_target db targetId = Some (target, Some post) ->
  (forall t, target_id (g1 t) = target_id t) ->
  (forall t, post_id (g2 (stamp_target n1 (g1 t))) = post_id t
             /\ status (g2 (stamp_target n1 (g1 t))) = st') ->
  forall s,
    In s (target_statuses
            (update_targets (by_target_id targetId) g2 n2
               (update_targets (by_target_id targetId) g1 n1 db))
            (post_row_id post))
    <-> s = st' \/ In s (sibling_statuses db (post_row_id post) targetId).
Proof.
  intros Hf Hg1 Hg2 s.
  destruct (fetch_target_facts _ _ _ _ Hf) as (Hin & Htid & _ & Hpid).
  pose proof (fun y => fetch_target_row db targetId target _ y Hf) as Huniq.
  unfold target_statuses, sibling_statuses.
  rewrite update_twice_rows_eq by exact Hg1.
  rewrite !in_map_iff. split.
  - intros (y' & Hs & Hy'). apply filter_In in Hy'. destruct Hy' as [Hy' Hsel].
    apply in_map_iff in Hy'. destruct Hy' as (y & <- & Hy).
    destruct (by_target_id targetId y) eqn:E.
    + left. rewrite <- Hs. cbn [stamp_target status]. apply Hg2.
    + right. exists y. split; [exact Hs|]. apply filter_In. split; [exact Hy|].
      rewrite Hsel. unfold by_target_id in E. now rewrite E.
  - intros [-> | (y & Hs & Hy)].
    + exists (stamp_target n2 (g2 (stamp_target n1 (g1 target)))).
      split; [cbn [stamp_target status]; apply Hg2|].
      apply filter_In. split.
      * apply in_map_iff. exists target. split; [|exact Hin].
        unfold by_target_id. now rewrite Htid, Nat.eqb_refl.
      * cbn [stamp_target post_id]. rewrite (proj1 (Hg2 target)), Hpid.
        apply Nat.eqb_refl.
    + apply filter_In in Hy. destruct Hy as [Hy Hsel].
      apply andb_prop in Hsel. destruct Hsel as [Hp Hn].
      exists y. split; [exact Hs|]. apply filter_In. split.
      * apply in_map_iff. exists y. split; [|exact Hy].
        unfold by_target_id. apply negb_true_iff in Hn. now rewrite Hn.
      * exact Hp.
Qed.

Section Settle.

Variables (v : Variant) (o : PublishOracle) (db : Store) (targetId : Id).
Variables (target : DbScheduledPostTarget) (post : DbScheduledPost).
Variable account : DbSocialAccount.

Hypothesis Hfetch : fetch_target db targetId = Some (target, Some post).
Hypothesis Hstate :
  includes TargetStatus_eqb [queued; retrying] (status target) = true.
Hypothesis Hattempts : attempt_count target < Backoff.MAX_RETRY_ATTEMPTS.
Hypothesis Haccount :
  fetch_account db (user_id post) (platform target) = Some account.

(** The store in which the aggregator runs, and what it reads there. *)
Lemma run_is_aggregate :
  exists db2 st',
    fst (publishPost v o db (publish_request targetId))
    = aggregate v db2 (post_row_id post) (clock_aggregate o)
    /\ scheduled_posts db2 = scheduled_posts db
    /\ find_post db2 (post_row_id post) = Some post
    /\ (forall s, In s (target_statuses db2 (post_row_id post))
                  <-> s = st'
                      \/ In s (sibling_statuses db (post_row_id post) targetId))
    /\ st' = (if publish_success (platform_answer o) then sent
              else if attempt_count target + 1 <? Backoff.MAX_RETRY_ATTEMPTS
                   then retrying else failed).
Proof.
  destruct (fetch_target_facts _ _ _ _ Hfetch) as (_ & _ & Hpost & _).
  rewrite publishPost_valid_request, Hfetch, Hstate. cbn [negb].
  destruct (Z.geb_spec (attempt_count target) Backoff.MAX_RETRY_ATTEMPTS); [lia|].
  rewrite Haccount. cbv zeta.
  destruct (publish_success (platform_answer o)); cbn [fst];
    do 2 eexists; (split; [reflexivity|]); (split; [reflexivity|]);
    (split; [exact Hpost|]); (split; [|reflexivity]);
    apply (statuses_after_write db targetId target post); auto;
    intros t; split; reflexivity.
Qed.

Lemma aggregate_pending d pid now :
  (exists s, In s (target_statuses d pid) /\ pending s) ->
  aggregate v d pid now = d.
Proof.
  intros Hp. rewrite AggregatorFacts.aggregate_cases.
  destruct (target_statuses d pid) as [|s0 l] eqn:E; [reflexivity|].
  rewrite <- E in *.
  now rewrite (proj2 (AggregatorFacts.hasPending_true _) Hp).
Qed.

Lemma aggregate_terminal d pid now p :
  target_statuses d pid <> [] ->
  (forall s, In s (target_statuses d pid) -> terminal s) ->
  find_post d pid = Some p ->
  exists p',
    find_post (aggregate v d pid now) pid = Some p'
    /\ post_status p' = newPostStatus (target_statuses d pid)
    /\ post_published_at p' = newPublishedAt (target_statuses d pid) now.
Proof.
  intros Hne Hterm Hp. rewrite AggregatorFacts.aggregate_cases.
  destruct (target_statuses d pid) as [|s0 l] eqn:E; [congruence|].
  rewrite <- E in *. rewrite (AggregatorFacts.hasPending_false _ Hterm).
  rewrite find_post_update_posts by reflexivity. rewrite Hp. cbn [option_map].
  rewrite (find_post_id _ _ _ Hp), Nat.eqb_refl.
  eexists. split; [reflexivity|]. split; reflexivity.
Qed.

(** X8. After a successful delivery: if another target of the post is
    still queued, publishing or retrying, the post rows are left as they
    were; if all the others are sent, failed or cancelled, the post is
    rewritten with the aggregator's clock as its published-at time, as
    published when all the others are sent and as partial when one of
    them is not.  A successful delivery never marks the post failed. *)
Theorem success_settles_post :
  publish_success (platform_answer o) = true ->
  let run := publishPost v o db (publish_request targetId) in
  let others := sibling_statuses db (post_row_id post) targetId in
  ((exists s, In s others /\ pending s) ->
     scheduled_posts (fst run) = scheduled_posts db)
  /\ ((forall s, In s others -> terminal s) ->
      exists p',
        find_post (fst run) (post_row_id post) = Some p'
        /\ post_published_at p' = Some (clock_aggregate o)
        /\ ((forall s, In s others -> s = sent) ->
              post_status p' = PostPublished)
        /\ ((exists s, In s others /\ s <> sent) ->
              post_status p' = PostPartial)).
Proof.
  intros Hok. cbv zeta.
  destruct run_is_aggregate as (db2 & st' & -> & Hposts & Hpost & Hst & Hst').
  rewrite Hok in Hst'. subst st'. split.
  - intros (s & Hin & Hp). rewrite aggregate_pending; [exact Hposts|].
    exists s. split; [apply Hst; now right | exact Hp].
  - intros Hterm.
    assert (Hsent : In sent (target_statuses db2 (post_row_id post)))
      by (apply Hst; now left).
    destruct (aggregate_terminal db2 (post_row_id post) (clock_aggregate o) post)
      as (p' & Hfind & Hstatus & Hpub); [| |exact Hpost|].
    + intros E. rewrite E in Hsent. contradiction.
    + intros s Hs. apply Hst in Hs. destruct Hs as [-> | Hs];
        [unfold terminal; auto | now apply Hterm].
    + exists p'. split; [exact Hfind|]. split; [|split].
      * rewrite Hpub. unfold newPublishedAt.
        now rewrite (proj2 (AggregatorFacts.count_status_pos _ _) Hsent).
      * intros Hall. rewrite Hstatus.
        apply AggregatorFacts.newPostStatus_all_sent.
        intros s Hs. apply Hst in Hs. destruct Hs as [-> | Hs]; auto.
      * intros (s & Hs & Hne). rewrite Hstatus.
        apply AggregatorFacts.newPostStatus_mixed; [exact Hsent|].
        exists s. split; [apply Hst; now right | exact Hne].
Qed.

(** X9. After a delivery the platform refused: while the target has
    attempts left it becomes retrying and the post rows are left as they
    were.  On the last attempt the target becomes failed; then, if every
    other target of the post is sent, failed or cancelled, the post is
    rewritten, as partial with the aggregator's clock as published-at
    when one of the others is sent, and as failed with published-at
    cleared when none is. *)
Theorem failure_settles_post :
  publish_success (platform_answer o) = false ->
  let run := publishPost v o db (publish_request targetId) in
  let others := sibling_statuses db (post_row_id post) targetId in
  (attempt_count target + 1 < Backoff.MAX_RETRY_ATTEMPTS ->
     scheduled_posts (fst run) = scheduled_posts db)
  /\ (Backoff.MAX_RETRY_ATTEMPTS <= attempt_count target + 1 ->
      (forall s, In s others -> terminal s) ->
      exists p',
        find_post (fst run) (post_row_id post) = Some p'
        /\ (In sent others ->
              post_status p' = PostPartial
              /\ post_published_at p' = Some (clock_aggregate o))
        /\ (~ In sent others ->
              post_status p' = PostFailed /\ post_published_at p' = None)).
Proof.
  intros Hko. cbv zeta.
  destruct run_is_aggregate as (db2 & st' & -> & Hposts & Hpost & Hst & Hst').
  rewrite Hko in Hst'. split.
  - intros Hlt. apply Z.ltb_lt in Hlt. rewrite Hlt in Hst'. subst st'.
    rewrite aggregate_pending; [exact Hposts|].
    exists retrying. split; [apply Hst; now left | unfold pending; auto].
  - intros Hge Hterm.
    destruct (Z.ltb_spec (attempt_count target + 1) Backoff.MAX_RETRY_ATTEMPTS);
      [lia|]. subst st'.
    assert (Hfailed : In failed (target_statuses db2 (post_row_id post)))
      by (apply Hst; now left).
    destruct (aggregate_terminal db2 (post_row_id post) (clock_aggregate o) post)
      as (p' & Hfind & Hstatus & Hpub); [| |exact Hpost|].
    + intros E. rewrite E in Hfailed. contradiction.
    + intros s Hs. apply Hst in Hs. destruct Hs as [-> | Hs];
        [unfold terminal; auto | now apply Hterm].
    + exists p'. split; [exact Hfind|]. split.
      * intros Hs.
        assert (Hsent : In sent (target_statuses db2 (post_row_id post)))
          by (apply Hst; now right).
        rewrite Hstatus, Hpub. split.
        -- apply AggregatorFacts.newPostStatus_mixed; [exact Hsent|].
           exists failed. split; [exact Hfailed | discriminate].
        -- unfold newPublishedAt.
           now rewrite (proj2 (AggregatorFacts.count_status_pos _ _) Hsent).
      * intros Hno.
        assert (Hnone : ~ In sent (target_statuses db2 (post_row_id post))).
        { intros Hs. apply Hst in Hs. destruct Hs as [Hs | Hs];
            [discriminate | contradiction]. }
        rewrite Hstatus, Hpub. split.
        -- apply AggregatorFacts.newPostStatus_no_sent; [|exact Hnone].
           intros E. rewrite E in Hfailed. contradiction.
        -- unfold newPublishedAt.
           destruct (Nat.ltb 0 (count_status sent
                                  (target_statuses db2 (post_row_id post))))
             eqn:E; [|reflexivity].
           now apply (proj1 (AggregatorFacts.count_status_pos _ _)) in E.
Qed.

(** X10. After a refused delivery that leaves attempts, the row the
    worker's backoff filter will look at is retrying, with the count read
    plus one and the handler's clock as last attempt, so the filter lets
    it through exactly from [60000 * 2^(count + 1)] milliseconds after that
    clock reading: 120 seconds after a first attempt, 240 after a
    second. *)
Theorem refused_delivery_backoff :
  publish_success (platform_answer o) = false ->
  0 <= attempt_count target ->
  attempt_count target + 1 < Backoff.MAX_RETRY_ATTEMPTS ->
  exists t',
    find_target (fst (publishPost v o db (publish_request targetId))) targetId
    = Some t'
    /\ status t' = retrying
    /\ attempt_count t' = attempt_count target + 1
    /\ last_attempt_at t' = Some (clock_attempt o)
    /\ (forall now,
          backoff_filter v (attempt_count t') (last_attempt_at t') now = true
          <-> now >= clock_attempt o + 60000 * 2 ^ (attempt_count target + 1))
    /\ (attempt_count target = 0 ->
        forall now,
          backoff_filter v (attempt_count t') (last_attempt_at t') now = true
          <-> now >= clock_attempt o + 120000).
Proof.
  intros Hko Hnonneg Hlt.
  destruct (failure_path v o db targetId target post Hfetch Hstate Hattempts
              account Haccount Hko) as [_ Hrow].
  apply Z.ltb_lt in Hlt. rewrite Hlt in Hrow. apply Z.ltb_lt in Hlt.
  eexists. split; [exact Hrow|]. cbn.
  split; [reflexivity|]. split; [reflexivity|]. split; [reflexivity|].
  assert (Hf : forall now,
            backoff_filter v (attempt_count target + 1)
              (Some (clock_attempt o)) now = true
            <-> now >= clock_attempt o + 60000 * 2 ^ (attempt_count target + 1)).
  { intros now. destruct v; apply BackoffFacts.after_delay; exact Hlt. }
  split; [exact Hf|].
  intros H0 now. rewrite Hf, H0. reflexivity.
Qed.

End Settle.

(** The only target of the sample post is delivered. *)
Lemma success_settles_post_witness :
  exists p',
    find_post
      (fst (publishPost Flat (Sample.oracle Sample.published_ok 5000)
              Sample.one_queued (publish_request 100))) 10 = Some p'
    /\ post_published_at p' = Some 5000
    /\ post_status p' = PostPublished.
Proof.
  destruct (success_settles_post Flat (Sample.oracle Sample.published_ok 5000)
              Sample.one_queued 100%nat
              (Sample.mk_target 100 10 twitter queued 0 None)
              (Sample.mk_post 10 1 1000 PostPublishing)
              Scenario.twitter_account
              eq_refl eq_refl ltac:(reflexivity) eq_refl eq_refl)
    as [_ Hterm].
  destruct (Hterm ltac:(intros s [])) as (p' & Hfind & Hpub & Hall & _).
  exists p'. split; [exact Hfind|]. split; [exact Hpub|].
  apply Hall. intros s [].
Defined.

(** The third refusal for the only target of the sample post. *)
Lemma failure_settles_post_witness :
  exists p',
    find_post
      (fst (publishPost Flat (Sample.oracle Sample.rate_limited 900000)
              Scenario.last_try (publish_request 100))) 10 = Some p'
    /\ post_status p' = PostFailed /\ post_published_at p' = None.
Proof.
  destruct (failure_settles_post Flat (Sample.oracle Sample.rate_limited 900000)
              Scenario.last_try 100%nat
              (Sample.mk_target 100 10 twitter retrying 2 (Some 1000))
              (Sample.mk_post 10 1 1000 PostPublishing)
              Scenario.twitter_account
              eq_refl eq_refl ltac:(reflexivity) eq_refl eq_refl)
    as [_ Hlast].
  destruct (Hlast ltac:(unfold Backoff.MAX_RETRY_ATTEMPTS; simpl; lia)
                  ltac:(intros s []))
    as (p' & Hfind & _ & Hnone).
  exists p'. split; [exact Hfind|]. apply Hnone. intros [].
Defined.

(** The first refusal for the sample queued target, at time 5000. *)
Lemma refused_delivery_backoff_witness :
  Backoff.shouldRetryTarget 1 (Some 5000) 124999 = false
  /\ Backoff.shouldRetryTarget 1 (Some 5000) 125000 = true.
Proof.
  destruct (refused_delivery_backoff Scheduling
              (Sample.oracle Sample.rate_limited 5000)
              Sample.one_queued 100%nat
              (Sample.mk_target 100 10 twitter queued 0 None)
              (Sample.mk_post 10 1 1000 PostPublishing)
              Scenario.twitter_account
              eq_refl eq_refl ltac:(reflexivity) eq_refl eq_refl
              ltac:(simpl; lia) ltac:(reflexivity))
    as (t' & Hrow & _ & _ & _ & _ & H120).
  vm_compute in Hrow. injection Hrow as <-.
  specialize (H120 eq_refl). cbn in H120. split.
  - destruct (Backoff.shouldRetryTarget 1 (Some 5000) 124999) eqn:E;
      [|reflexivity].
    apply (proj1 (H120 124999)) in E. lia.
  - apply (proj2 (H120 125000)). lia.
Defined.

End OutcomeFacts.

(** ** Cancellation handler: refusals, and what a cancellation closes *)

Module ClosedFacts.
Import DeliveryFacts.

Lemma pending_or_terminal s : pending s \/ terminal s.
Proof. unfold pending, terminal. destruct s; auto. Qed.



Section Closed.

Variables (v : Variant) (now : Z) (db : Store) (userId postId : Id).
Variable p : DbScheduledPost.

Hypothesis Hpost : find_post db postId = Some p.
Hypothesis Howner : user_id p = userId.
Hypothesis Hnot_published : post_status p <> PostPublished.
Hypothesis Hnot_cancelled : post_status p <> PostCancelled.

Let db' := fst (cancelScheduledPost v now db (cancel_request userId postId)).

Lemma cancelled_store :
  db' = update_targets (cancellable_target postId) mark_cancelled now
          (update_posts (fun q => Nat.eqb (post_row_id q) postId)
             (cancel_post_payload v p userId now) now db).
Proof.
  unfold db'.
  now rewrite (CancelFacts.cancelScheduledPost_accepted v now db userId postId p).
Qed.

Lemma children_terminal t' :
  In t' (scheduled_post_targets db') -> post_id t' = postId ->
  terminal (status t').
Proof.
  rewrite cancelled_store. unfold update_targets; simpl.
  intros Hin Hid. apply in_map_iff in Hin. destruct Hin as (y & <- & Hy).
  unfold cancellable_target in *.
  destruct (Nat.eqb_spec (post_id y) postId) as [E | E]; cbn [andb] in *.
  - destruct (includes TargetStatus_eqb [queued; retrying; publishing] (status y))
      eqn:Hs.
    + unfold terminal. cbn. auto.
    + destruct (pending_or_terminal (status y)) as [Hp | Ht]; [|exact Ht].
      apply CancelFacts.includes_pending in Hp. congruence.
  - contradiction.
Qed.

Lemma cancelled_post :
  exists p', find_post db' postId = Some p'
             /\ post_status p' = PostCancelled /\ user_id p' = user_id p.
Proof.
  rewrite cancelled_store. rewrite find_post_update_targets.
  rewrite find_post_update_posts by (intros q; destruct v; reflexivity).
  rewrite Hpost. cbn [option_map].
  rewrite (find_post_id _ _ _ Hpost), Nat.eqb_refl.
  eexists. split; [reflexivity|]. destruct v; split; reflexivity.
Qed.

(** X12. After an accepted cancellation every target of the post is sent,
    failed or cancelled.  From then on a second cancellation by the owner is
    refused with invalid-status, and a publish request for any target of
    the post is refused with invalid-status; both leave the store as the
    cancellation left it. *)
Theorem cancelled_post_is_closed :
  (forall t', In t' (scheduled_post_targets db') -> post_id t' = postId ->
              terminal (status t'))
  /\ (forall now2,
       cancelScheduledPost v now2 db' (cancel_request userId postId)
       = (db', errorResponse 400 INVALID_STATUS))
  /\ (forall o targetId t' parent,
       fetch_target db' targetId = Some (t', parent) ->
       post_id t' = postId ->
       publishPost v o db' (publish_request targetId)
       = (db', errorResponse 400 INVALID_STATUS)).
Proof.
  split; [exact children_terminal|]. split.
  - intros now2. destruct cancelled_post as (p' & Hfind & Hst & Hu).
    unfold cancelScheduledPost, cancel_request; simpl.
    rewrite Hfind, Hu, Howner, Nat.eqb_refl, Hst. reflexivity.
  - intros o targetId t' parent Hf Hid.
    rewrite publishPost_valid_request, Hf.
    destruct (fetch_target_find _ _ _ _ Hf) as [Hfind _].
    assert (Hin : In t' (scheduled_post_targets db')).
    { unfold find_target in Hfind.
      destruct (filter (by_target_id targetId) (scheduled_post_targets db'))
        as [|x [|z l]] eqn:E; simpl in Hfind; try discriminate.
      injection Hfind as ->.
      assert (Hx : In t' (filter (by_target_id targetId)
                            (scheduled_post_targets db')))
        by (rewrite E; now left).
      now apply filter_In in Hx. }
    destruct (children_terminal t' Hin Hid) as [-> | [-> | ->]]; reflexivity.
Qed.

(** X13. A worker cycle that meets the store as an accepted cancellation
    left it selects no target of the cancelled post for dispatch, whatever
    its clock readings.  (Nothing is said of a store that a delivery in
    flight at the time of the cancellation has written to since.) *)
Theorem cancelled_post_is_not_dispatched (o : WorkerOracle) (r : TargetWithPost) :
  In r (cycle_targets v o db') -> post_id (fst r) <> postId.
Proof.
  intros Hin Hid.
  destruct (SelectionFacts.selected_row v o db' r Hin) as (Ht & _ & Hcase).
  pose proof (children_terminal (fst r) Ht Hid) as Hterm.
  destruct Hcase as [(Hs & _) | (Hs & _)]; rewrite Hs in Hterm;
    destruct Hterm as [H | [H | H]]; discriminate.
Qed.

End Closed.

(** The cancellation scenario, then a second cancellation. *)
Lemma cancelled_post_is_closed_witness :
  let db' := fst (cancelScheduledPost Flat 7000 Sample.half_done
                    (cancel_request 1 10)) in
  cancelScheduledPost Flat 8000 db' (cancel_request 1 10)
  = (db', errorResponse 400 INVALID_STATUS).
Proof.
  cbv zeta.
  destruct (cancelled_post_is_closed Flat 7000 Sample.half_done 1%nat 10%nat
              (Sample.mk_post 10 1 1000 PostPublishing)
              eq_refl eq_refl ltac:(discriminate) ltac:(discriminate))
    as (_ & Hagain & _).
  apply Hagain.
Defined.

(** Of two due posts the first is cancelled before the cycle: the target
    of the other one is dispatched, and it is not a target of the first. *)
Lemma cancelled_post_is_not_dispatched_witness :
  let db' := fst (cancelScheduledPost Scheduling 900 Sample.two_due
                    (cancel_request 1 10)) in
  let o := Sample.worker_oracle Sample.published_ok 5000 in
  let r := (Sample.mk_target 101 11 twitter queued 0 None,
            Sample.mk_post 11 1 1000 PostQueued) in
  In r (cycle_targets Scheduling o db') /\ post_id (fst r) <> 10%nat.
Proof.
  cbv zeta.
  assert (Hin : In (Sample.mk_target 101 11 twitter queued 0 None,
                    Sample.mk_post 11 1 1000 PostQueued)
                  (cycle_targets Scheduling
                     (Sample.worker_oracle Sample.published_ok 5000)
                     (fst (cancelScheduledPost Scheduling 900 Sample.two_due
                             (cancel_request 1 10)))))
    by (vm_compute; left; reflexivity).
  split; [exact Hin|].
  exact (cancelled_post_is_not_dispatched Scheduling 900 Sample.two_due
           1%nat 10%nat (Sample.mk_post 10 1 2000 PostQueued)
           eq_refl eq_refl ltac:(discriminate) ltac:(discriminate)
           (Sample.worker_oracle Sample.published_ok 5000) _ Hin).
Defined.

End ClosedFacts.

(** ** Creation handler: what an accepted request has passed *)

Module AcceptedFacts.

Lemma existsb_app_false {A} (f : A -> bool) (l1 l2 : list A) :
  existsb f (l1 ++ l2) = false -> existsb f l1 = false /\ existsb f l2 = false.
Proof. rewrite existsb_app. apply orb_false_elim. Qed.

Lemma inserted_names o pid b now posts names :
  forall i table table',
    insert_target_rows now posts table (targetInserts_from o pid b i names)
    = Some table' ->
    NoDup names
    /\ forall name, In name names ->
         exists pf, platform_of_string name = Some pf
                    /\ existsb (fun t => Nat.eqb (post_id t) pid
                                         && Platform_eqb (platform t) pf)
                               table = false.
Proof.
  induction names as [|name names IH]; intros i table table'; simpl.
  - intros _. split; [constructor | intros ? []].
  - destruct (platform_of_string name) as [pf|] eqn:Hpf; [|discriminate].
    destruct (existsb _ table || existsb _ table || _) eqn:Hchk; [discriminate|].
    apply orb_false_elim in Hchk. destruct Hchk as [Hchk _].
    apply orb_false_elim in Hchk. destruct Hchk as [_ Hfree].
    intros H. apply IH in H. destruct H as [Hnd Hrest]. split.
    + constructor; [|exact Hnd]. intros Hin.
      destruct (Hrest name Hin) as (pf' & Hpf' & Hex).
      apply existsb_app_false in Hex. destruct Hex as [_ Hex].
      rewrite Hpf in Hpf'. injection Hpf' as <-.
      simpl in Hex. rewrite Nat.eqb_refl in Hex.
      assert (Platform_eqb pf pf = true) by now apply Platform_eqb_eq.
      simpl in Hex. rewrite H in Hex. discriminate.
    + intros name' [<- | Hin].
      * exists pf. split; [exact Hpf | exact Hfree].
      * destruct (Hrest name' Hin) as (pf' & Hpf' & Hex).
        apply existsb_app_false in Hex. exists pf'. tauto.
Qed.

Lemma insert_post_and_targets_created v o db userId b s payload :
  snd (insert_post_and_targets v o db userId b) = Json 201 s payload ->
  NoDup (platforms b)
  /\ (forall name, In name (platforms b) ->
        exists pf, platform_of_string name = Some pf)
  /\ existsb (fun q => Nat.eqb (post_row_id q) (new_post_id o))
             (scheduled_posts db) = false.
Proof.
  unfold insert_post_and_targets.
  destruct (if post_insert_fault o then None
            else insert_post db (new_post v o userId b)) as [db1|] eqn:Hpost;
    [|destruct v; discriminate].
  destruct (if targets_insert_fault o then None else _) as [db2|] eqn:Ht;
    [|destruct v; discriminate].
  intros _. destruct (targets_insert_fault o); [discriminate|].
  destruct (post_insert_fault o); [discriminate|].
  unfold insert_targets in Ht.
  destruct (insert_target_rows _ _ _ _) as [table|] eqn:Hrows; [|discriminate].
  apply inserted_names in Hrows. destruct Hrows as [Hnd Hnames].
  split; [exact Hnd|]. split.
  - intros name Hin. destruct (Hnames name Hin) as (pf & Hpf & _). eauto.
  - now destruct (CreateFacts.insert_post_some _ _ _ Hpost) as [_ Hfresh].
Qed.

Lemma missingPlatforms_none db userId names :
  missingPlatforms db userId names = [] ->
  forall name, In name names ->
    exists pf a,
      platform_of_string name = Some pf /\ In a (social_accounts db)
      /\ account_user_id a = userId /\ account_platform a = pf.
Proof.
  unfold missingPlatforms. intros Hnone name Hin.
  destruct (existsb
              (fun a => Nat.eqb (account_user_id a) userId
                        && match platform_of_string name with
                           | Some p => Platform_eqb (account_platform a) p
                           | None => false
                           end)
              (social_accounts db)) eqn:E.
  - apply existsb_exists in E. destruct E as (a & Ha & Hsel).
    apply andb_prop in Hsel. destruct Hsel as [Hu Hp].
    destruct (platform_of_string name) as [pf|]; [|discriminate].
    exists pf, a. apply Nat.eqb_eq in Hu. apply Platform_eqb_eq in Hp. auto.
  - exfalso.
    assert (Hm : In name (filter
                 (fun name0 =>
                    negb (existsb
                            (fun a => Nat.eqb (account_user_id a) userId
                                      && match platform_of_string name0 with
                                         | Some p =>
                                             Platform_eqb (account_platform a) p
                                         | None => false
                                         end)
                            (social_accounts db))) names)).
    { apply filter_In. split; [exact Hin | now rewrite E]. }
    rewrite Hnone in Hm. contradiction.
Qed.

(** X14. A creation request is answered 201 only if it is a POST by an
    authenticated user with a body that validates, whose scheduled time is
    strictly after the handler's clock, whose content is not empty, and
    whose platform list is not empty, names no platform twice and names
    only platforms of the enumeration; the new post id was not in use.  In
    the [scheduling/] handler the requester moreover has a connected
    account for every platform named. *)
Theorem created_only_if_checked (v : Variant) (o : CreateOracle) (db : Store)
    (req : CreateRequest) (s : option bool) (payload : Payload) :
  snd (createScheduledPost v o db req) = Json 201 s payload ->
  exists userId b,
    create_method req = POST
    /\ create_user req = Some userId /\ create_body req = Some b
    /\ create_now o < scheduledAt b
    /\ contentRaw b <> EmptyString
    /\ platforms b <> [] /\ NoDup (platforms b)
    /\ (forall name, In name (platforms b) ->
          exists pf, platform_of_string name = Some pf)
    /\ (forall q, In q (scheduled_posts db) -> post_row_id q <> new_post_id o)
    /\ (v = Scheduling ->
        forall name, In name (platforms b) ->
          exists pf a,
            platform_of_string name = Some pf /\ In a (social_accounts db)
            /\ account_user_id a = userId /\ account_platform a = pf).
Proof.
  unfold createScheduledPost.
  destruct (Method_eqb (create_method req) OPTIONS); [discriminate|].
  destruct (Method_eqb (create_method req) POST) eqn:Hm; [|discriminate].
  cbn [negb].
  destruct (create_user req) as [userId|]; [|discriminate].
  destruct (create_body req) as [b|]; [|discriminate].
  destruct (validate_create v b) eqn:Hv; [|discriminate]. cbn [negb].
  destruct (Z.leb_spec (scheduledAt b) (create_now o)) as [|Hfuture];
    [discriminate|].
  assert (Hshape : contentRaw b <> EmptyString /\ platforms b <> []).
  { destruct v; unfold validate_create in Hv;
      repeat (apply andb_prop in Hv; destruct Hv as [Hv ?]);
      (split; [intros E; rewrite E in *; discriminate|]);
      intros E; rewrite E in *; discriminate. }
  assert (Hcore :
    snd (insert_post_and_targets v o db userId b) = Json 201 s payload ->
    (v = Scheduling ->
       forall name, In name (platforms b) ->
         exists pf a,
           platform_of_string name = Some pf /\ In a (social_accounts db)
           /\ account_user_id a = userId /\ account_platform a = pf) ->
    exists userId0 b0,
      create_method req = POST
      /\ Some userId = Some userId0 /\ Some b = Some b0
      /\ create_now o < scheduledAt b0
      /\ contentRaw b0 <> EmptyString
      /\ platforms b0 <> [] /\ NoDup (platforms b0)
      /\ (forall name, In name (platforms b0) ->
            exists pf, platform_of_string name = Some pf)
      /\ (forall q, In q (scheduled_posts db) -> post_row_id q <> new_post_id o)
      /\ (v = Scheduling ->
          forall name, In name (platforms b0) ->
            exists pf a,
              platform_of_string name = Some pf /\ In a (social_accounts db)
              /\ account_user_id a = userId0 /\ account_platform a = pf)).
  { intros Hres Hconn.
    destruct (insert_post_and_targets_created _ _ _ _ _ _ _ Hres)
      as (Hnd & Hvalid & Hfresh).
    exists userId, b. destruct Hshape as [Hc Hp].
    split; [destruct (create_method req); simpl in Hm; congruence|].
    repeat (split; [first [reflexivity | assumption | lia]|]).
    split; [|exact Hconn].
    intros q Hq E.
    pose proof (CreateFacts.existsb_false _ _ q Hfresh Hq) as Hne.
    cbv beta in Hne. rewrite E, Nat.eqb_refl in Hne. discriminate. }
  destruct v.
  - intros Hres. apply Hcore; [exact Hres | discriminate].
  - destruct (Nat.ltb 0 (length (missingPlatforms db userId (platforms b))))
      eqn:Hmiss; [discriminate|].
    destruct (match mediaAssetIds b with Some _ => _ | None => false end);
      [discriminate|].
    intros Hres. apply Hcore; [exact Hres|]. intros _.
    apply missingPlatforms_none.
    apply Nat.ltb_ge in Hmiss.
    destruct (missingPlatforms db userId (platforms b)); [reflexivity|].
    simpl in Hmiss. lia.
Qed.

Lemma created_only_if_checked_witness :
  exists userId b,
    create_user (Sample.create_request ["twitter"%string]) = Some userId
    /\ create_body (Sample.create_request ["twitter"%string]) = Some b
    /\ NoDup (platforms b).
Proof.
  eassert (E : snd (createScheduledPost Scheduling Sample.create_oracle
                      Sample.one_queued
                      (Sample.create_request ["twitter"%string]))
               = Json 201 _ _) by (vm_compute; reflexivity).
  destruct (created_only_if_checked _ _ _ _ _ _ E)
    as (userId & b & _ & Hu & Hb & _ & _ & _ & Hnd & _).
  exists userId, b. auto.
Defined.

Lemma created_runs_inserts v o db req s payload :
  snd (createScheduledPost v o db req) = Json 201 s payload ->
  exists userId b,
    create_body req = Some b
    /\ createScheduledPost v o db req = insert_post_and_targets v o db userId b.
Proof.
  unfold createScheduledPost.
  destruct (Method_eqb (create_method req) OPTIONS); [discriminate|].
  destruct (negb (Method_eqb (create_method req) POST)); [discriminate|].
  destruct (create_user req) as [userId|]; [|discriminate].
  destruct (create_body req) as [b|]; [|discriminate].
  destruct (negb (validate_create v b)); [discriminate|].
  destruct (scheduledAt b <=? create_now o); [discriminate|].
  destruct v; [eauto|].
  destruct (Nat.ltb 0 (length (missingPlatforms db userId (platforms b))));
    [discriminate|].
  destruct (match mediaAssetIds b with Some _ => _ | None => false end);
    [discriminate | eauto].
Qed.

Lemma lookup_variant_in vs name text :
  NoDup (map fst vs) -> In (name, text) vs ->
  lookup_variant vs name = Some text.
Proof.
  induction vs as [|[k c] vs IH]; simpl; [intros _ []|].
  intros Hnd [Heq | Hin].
  - injection Heq as -> ->. now rewrite String.eqb_refl.
  - inversion Hnd as [|? ? Hk Hnd']; subst.
    destruct (String.eqb_spec k name) as [-> | _]; [|now apply IH].
    exfalso. apply Hk. now apply (in_map fst) in Hin.
Qed.

Lemma lookup_variant_absent vs name :
  ~ In name (map fst vs) -> lookup_variant vs name = None.
Proof.
  induction vs as [|[k c] vs IH]; simpl; [reflexivity|].
  intros Hno. destruct (String.eqb_spec k name) as [-> | _].
  - exfalso. apply Hno. now left.
  - apply IH. intros H. apply Hno. now right.
Qed.

Lemma content_for_variant b name :
  variant_keys_distinct b ->
  (forall text, variant_given b name text -> content_for b name = text)
  /\ (no_variant b name -> content_for b name = contentRaw b).
Proof.
  unfold variant_keys_distinct, variant_given, no_variant, content_for.
  destruct (body_variants b) as [vs|]; intros Hnd.
  - split.
    + intros text (vs' & Hvs & Hin). injection Hvs as <-.
      now rewrite (lookup_variant_in vs name text Hnd Hin).
    + intros Hno. now rewrite (lookup_variant_absent vs name Hno).
  - split; [intros text (vs' & Hvs & _); discriminate | reflexivity].
Qed.

Lemma inserted_rows_fresh o pid b now posts names :
  variant_keys_distinct b ->
  forall i table table',
    insert_target_rows now posts table (targetInserts_from o pid b i names)
    = Some table' ->
    exists news,
      table' = table ++ news /\ Forall2 (fresh_target b now) names news.
Proof.
  intros Hkeys.
  induction names as [|name names IH]; intros i table table'; simpl.
  - intros H. injection H as <-. exists [].
    split; [now rewrite app_nil_r | constructor].
  - destruct (platform_of_string name) as [pf|]; [|discriminate].
    destruct (_ || _); [discriminate|].
    intros H. apply IH in H. destruct H as (news & -> & Hall).
    eexists (_ :: news). split; [now rewrite <- app_assoc|].
    constructor; [|exact Hall].
    destruct (content_for_variant b name Hkeys) as [Hgiven Hnone].
    split; [exact Hgiven|]. split; [exact Hnone|]. repeat split.
Qed.

(** X15. When a creation is answered 201 the target table is the old one
    followed by one new row per platform named, in the order named.  The
    content of a new row is the text the request's [variants] object holds
    for its platform, whatever that text is, and the raw content when the
    request has no [variants] or [variants] has no entry for the platform;
    its [created_at] and [updated_at] are the store's clock at the insert,
    and it has no attempt, error or publication recorded. *)
Theorem created_targets_content (v : Variant) (o : CreateOracle) (db : Store)
    (req : CreateRequest) (b : CreateBody) (s : option bool)
    (payload : Payload) :
  create_body req = Some b ->
  variant_keys_distinct b ->
  snd (createScheduledPost v o db req) = Json 201 s payload ->
  exists news,
    scheduled_post_targets (fst (createScheduledPost v o db req))
    = scheduled_post_targets db ++ news
    /\ Forall2 (fresh_target b (targets_insert_now o)) (platforms b) news.
Proof.
  intros Hbody Hkeys Hres.
  destruct (created_runs_inserts _ _ _ _ _ _ Hres) as (userId & b' & Hb & Hrun).
  rewrite Hbody in Hb. injection Hb as <-.
  rewrite Hrun in *. clear Hrun.
  unfold insert_post_and_targets in *.
  destruct (if post_insert_fault o then None
            else insert_post db (new_post v o userId b)) as [db1|] eqn:Hpost;
    [|destruct v; discriminate].
  destruct (post_insert_fault o); [discriminate|].
  destruct (CreateFacts.insert_post_some _ _ _ Hpost) as [-> _].
  destruct (if targets_insert_fault o then None else _) as [db2|] eqn:Ht;
    [|destruct v; discriminate].
  destruct (targets_insert_fault o); [discriminate|].
  unfold insert_targets in Ht.
  destruct (insert_target_rows _ _ _ _) as [table|] eqn:Hrows; [|discriminate].
  injection Ht as <-. apply (inserted_rows_fresh _ _ _ _ _ _ Hkeys) in Hrows.
  destruct Hrows as (news & -> & Hall).
  exists news. split; [reflexivity | exact Hall].
Qed.

(** A request for two platforms with a variant for the first only. *)
Lemma created_targets_content_witness :
  let b := {| contentRaw := "hello"%string;
              platforms := ["twitter"%string; "linkedin"%string];
              scheduledAt := 9000; body_timezone := "UTC"%string;
              mediaAssetIds := None;
              body_variants := Some [("twitter"%string, "short"%string)] |} in
  let req := {| create_method := POST; create_user := Some 1%nat;
                create_body := Some b |} in
  exists news,
    scheduled_post_targets
      (fst (createScheduledPost Flat Sample.create_oracle
              Sample.one_queued req))
    = scheduled_post_targets Sample.one_queued ++ news
    /\ Forall2 (fresh_target b 520) (platforms b) news.
Proof.
  pose (b := {| contentRaw := "hello"%string;
                platforms := ["twitter"%string; "linkedin"%string];
                scheduledAt := 9000; body_timezone := "UTC"%string;
                mediaAssetIds := None;
                body_variants := Some [("twitter"%string, "short"%string)] |}).
  pose (req := {| create_method := POST; create_user := Some 1%nat;
                  create_body := Some b |}).
  eassert (E : snd (createScheduledPost Flat Sample.create_oracle
                      Sample.one_queued req) = Json 201 _ _)
    by (vm_compute; reflexivity).
  assert (Hkeys : variant_keys_distinct b)
    by (repeat constructor; simpl; intros []).
  exact (created_targets_content Flat Sample.create_oracle Sample.one_queued
           req b _ _ eq_refl Hkeys E).
Defined.

End AcceptedFacts.

(** ** Helpers: distinct ids, bearer tokens, log levels *)

Module UtilFacts.

Lemma existsb_eqb_in x l : existsb (Nat.eqb x) l = true <-> In x l.
Proof.
  rewrite existsb_exists. split.
  - intros (y & Hy & E). apply Nat.eqb_eq in E. now subst.
  - intros H. exists x. split; [exact H | apply Nat.eqb_refl].
Qed.

Lemma unique_from_spec ids :
  forall seen,
    NoDup (unique_from seen ids)
    /\ forall x, In x (unique_from seen ids) <-> In x ids /\ ~ In x seen.
Proof.
  induction ids as [|a ids IH]; intros seen; simpl.
  - split; [constructor | intros x; tauto].
  - destruct (existsb (Nat.eqb a) seen) eqn:E.
    + apply existsb_eqb_in in E. destruct (IH seen) as [Hnd Hmem].
      split; [exact Hnd|]. intros x. rewrite Hmem. split.
      * intros [H1 H2]. auto.
      * intros [[<- | H1] H2]; [contradiction | auto].
    + assert (Ha : ~ In a seen).
      { intros H. apply existsb_eqb_in in H. congruence. }
      destruct (IH (a :: seen)) as [Hnd Hmem]. split.
      * constructor; [|exact Hnd]. intros H. apply Hmem in H.
        destruct H as [_ H]. apply H. now left.
      * intros x. simpl. rewrite Hmem. simpl. split.
        -- intros [<- | [H1 H2]]; [auto | split; [now right | tauto]].
        -- intros [[<- | H1] H2]; [now left|].
           destruct (Nat.eq_dec a x) as [<- | Hne]; [now left|].
           right. split; [exact H1 | tauto].
Qed.

Lemma unique_from_nodup ids :
  forall seen,
    NoDup ids -> (forall x, In x ids -> ~ In x seen) ->
    unique_from seen ids = ids.
Proof.
  induction ids as [|a ids IH]; intros seen Hnd Hdis; simpl; [reflexivity|].
  inversion Hnd as [|? ? Hna Hnd']; subst.
  destruct (existsb (Nat.eqb a) seen) eqn:E.
  - apply existsb_eqb_in in E. exfalso. apply (Hdis a); [now left | exact E].
  - f_equal. apply IH; [exact Hnd'|].
    intros x Hx [<- | Hs]; [contradiction|].
    apply (Hdis x); [now right | exact Hs].
Qed.

(** X16. The list of distinct post ids the worker builds has no
    repetition and has exactly the members of the list it is built from; a
    list without repetition comes back unchanged, so building it twice
    changes nothing. *)
Theorem unique_is_the_set (ids : list Id) :
  NoDup (unique ids)
  /\ (forall x, In x (unique ids) <-> In x ids)
  /\ (length (unique ids) <= length ids)%nat
  /\ (NoDup ids -> unique ids = ids)
  /\ unique (unique ids) = unique ids.
Proof.
  unfold unique. destruct (unique_from_spec ids []) as [Hnd Hmem].
  split; [exact Hnd|]. split; [|split; [|split]].
  - intros x. rewrite Hmem. simpl. tauto.
  - apply NoDup_incl_length; [exact Hnd|].
    intros x Hx. now apply Hmem in Hx.
  - intros H. apply unique_from_nodup; [exact H | intros x _ []].
  - apply unique_from_nodup; [exact Hnd | intros x _ []].
Qed.

Lemma unique_is_the_set_witness :
  NoDup (unique [10; 11; 10]%nat) /\ unique [10; 11]%nat = [10; 11]%nat.
Proof.
  split.
  - exact (proj1 (unique_is_the_set [10; 11; 10]%nat)).
  - destruct (unique_is_the_set [10; 11]%nat) as (_ & _ & _ & H & _).
    apply H. repeat constructor; simpl; intuition discriminate.
Defined.

(** *** Bearer tokens *)

Import Auth.

Lemma split_space_not_nil s : split_space s <> [].
Proof.
  destruct s as [|c s]; simpl; [discriminate|].
  destruct (Ascii.eqb c space); [discriminate|].
  destruct (split_space s); discriminate.
Qed.

Lemma split_space_before a b :
  has_space a = false ->
  split_space (String.append a (String space b)) = a :: split_space b.
Proof.
  induction a as [|c a IH]; simpl; intros H.
  - reflexivity.
  - apply orb_false_elim in H. destruct H as [Hc Ha].
    rewrite Hc, (IH Ha). reflexivity.
Qed.

Lemma split_space_whole a : has_space a = false -> split_space a = [a].
Proof.
  induction a as [|c a IH]; simpl; intros H; [reflexivity|].
  apply orb_false_elim in H. destruct H as [Hc Ha].
  now rewrite Hc, (IH Ha).
Qed.

Lemma split_space_pieces s piece :
  In piece (split_space s) -> has_space piece = false.
Proof.
  revert piece. induction s as [|c s IH]; simpl; intros piece.
  - intros [<- | []]. reflexivity.
  - destruct (Ascii.eqb c space) eqn:Hc.
    + intros [<- | H]; [reflexivity | now apply IH].
    + pose proof (split_space_not_nil s) as Hne.
      destruct (split_space s) as [|first others]; [congruence|].
      intros [<- | H].
      * simpl. rewrite Hc. apply IH. now left.
      * apply IH. now right.
Qed.

Lemma append_space_not_empty a b :
  String.eqb (String.append a (String space b)) "" = false.
Proof. destruct a; reflexivity. Qed.

(** X17. [extractToken] returns the text between the first and the second
    space of the header when the text before the first space is "bearer"
    in any letter case and the token is not empty; anything after a second
    space is dropped.  A token it returns is never empty and contains no
    space.  It returns nothing for an absent header, for a header without
    a space, and when two spaces follow the scheme. *)
Theorem extractToken_bearer :
  (forall scheme token,
     has_space scheme = false -> toLowerCase scheme = "bearer"%string ->
     has_space token = false -> token <> EmptyString ->
     extractToken (Some (String.append scheme (String space token)))
     = Some token
     /\ forall rest,
          extractToken
            (Some (String.append scheme
                     (String space
                        (String.append token (String space rest)))))
          = Some token)
  /\ (forall h token,
        extractToken h = Some token ->
        token <> EmptyString /\ has_space token = false)
  /\ extractToken None = None
  /\ (forall h, has_space h = false -> extractToken (Some h) = None)
  /\ (forall scheme rest,
        has_space scheme = false ->
        extractToken
          (Some (String.append scheme (String space (String space rest))))
        = None).
Proof.
  split; [|split; [|split; [|split]]].
  - intros scheme token Hs Hl Ht Hne.
    assert (Htok : String.eqb token "" = false)
      by (destruct token; [congruence | reflexivity]).
    split.
    + unfold extractToken. rewrite append_space_not_empty.
      rewrite (split_space_before _ _ Hs), (split_space_whole _ Ht).
      now rewrite Hl, Htok.
    + intros rest. unfold extractToken. rewrite append_space_not_empty.
      rewrite (split_space_before _ _ Hs), (split_space_before _ _ Ht).
      now rewrite Hl, Htok.
  - intros [h|] token; [|discriminate]. unfold extractToken.
    destruct (String.eqb h ""); [discriminate|].
    destruct (split_space h) as [|scheme [|tok others]] eqn:E; try discriminate.
    destruct (negb _ || String.eqb tok "") eqn:C; [discriminate|].
    intros H. injection H as <-.
    apply orb_false_elim in C. destruct C as [_ C]. split.
    + intros ->. discriminate.
    + apply (split_space_pieces h). rewrite E. right. now left.
  - reflexivity.
  - intros h Hh. unfold extractToken.
    destruct (String.eqb h ""); [reflexivity|].
    now rewrite (split_space_whole _ Hh).
  - intros scheme rest Hs. unfold extractToken.
    rewrite append_space_not_empty, (split_space_before _ _ Hs).
    simpl. now rewrite orb_true_r.
Qed.

Lemma extractToken_bearer_witness :
  extractToken (Some "BEARER abc.def"%string) = Some "abc.def"%string
  /\ extractToken (Some "Bearer abc.def trailing"%string)
     = Some "abc.def"%string.
Proof.
  destruct extractToken_bearer as [H _].
  destruct (H "BEARER"%string "abc.def"%string eq_refl eq_refl eq_refl
              ltac:(discriminate)) as [H1 _].
  destruct (H "Bearer"%string "abc.def"%string eq_refl eq_refl eq_refl
              ltac:(discriminate)) as [_ H2].
  split; [exact H1 | exact (H2 "trailing"%string)].
Defined.

(** *** Log levels *)

Import Logger.





End UtilFacts.

(** ** Delivery executor: the no-account path, and the handler step by step *)

Module AttemptFacts.
Import DeliveryFacts.

Lemma find_target_fetch db id t :
  find_target db id = Some t ->
  fetch_target db id = Some (t, find_post db (post_id t)).
Proof.
  unfold find_target, fetch_target. fold (by_target_id id).
  now intros ->.
Qed.

(** X19. When the owner of the post has no account for the target's
    platform, an attempt on a queued or retrying target with attempts left
    answers the no-account error, leaves the post rows as they are, and
    rewrites the target row as failed with one more attempt counted, the
    handler's clock as last attempt and an error text, keeping its other
    columns; this does not depend on how many attempts were left.  A
    further attempt on that target is refused with invalid-status. *)
Theorem no_account_is_final (v : Variant) (o : PublishOracle) (db : Store)
    (targetId : Id) (target : DbScheduledPostTarget) (post : DbScheduledPost) :
  fetch_target db targetId = Some (target, Some post) ->
  includes TargetStatus_eqb [queued; retrying] (status target) = true ->
  attempt_count target < Backoff.MAX_RETRY_ATTEMPTS ->
  fetch_account db (user_id post) (platform target) = None ->
  let run := publishPost v o db (publish_request targetId) in
  snd run = errorResponse 400 NO_ACCOUNT
  /\ scheduled_posts (fst run) = scheduled_posts db
  /\ (exists t',
        find_target (fst run) targetId = Some t'
        /\ status t' = failed
        /\ attempt_count t' = attempt_count target + 1
        /\ last_attempt_at t' = Some (clock_no_account o)
        /\ last_error t' = Some (no_account_message v)
        /\ post_id t' = post_id target /\ platform t' = platform target
        /\ content_final t' = content_final target
        /\ published_at t' = published_at target)
  /\ (forall o2,
        publishPost v o2 (fst run) (publish_request targetId)
        = (fst run, errorResponse 400 INVALID_STATUS)).
Proof.
  intros Hf Hs Ha Hacc. cbv zeta.
  destruct (no_account_path v o db targetId target post Hf Hs Ha Hacc)
    as (Hres & Hposts & Hrow).
  split; [exact Hres|]. split; [exact Hposts|]. split.
  - eexists. split; [exact Hrow|]. cbn. repeat split.
  - intros o2. rewrite publishPost_valid_request.
    rewrite (find_target_fetch _ _ _ Hrow). reflexivity.
Qed.

Lemma no_account_is_final_witness :
  let run := publishPost Flat (Sample.oracle Sample.published_ok 5000)
               Sample.unconnected (publish_request 101) in
  snd run = errorResponse 400 NO_ACCOUNT
  /\ publishPost Flat (Sample.oracle Sample.published_ok 9000) (fst run)
       (publish_request 101)
     = (fst run, errorResponse 400 INVALID_STATUS).
Proof.
  cbv zeta.
  destruct (no_account_is_final Flat (Sample.oracle Sample.published_ok 5000)
              Sample.unconnected 101%nat
              (Sample.mk_target 101 10 linkedin queued 0 None)
              (Sample.mk_post 10 1 1000 PostPublishing)
              eq_refl eq_refl ltac:(reflexivity) eq_refl)
    as (Hres & _ & _ & Hagain).
  split; [exact Hres | apply Hagain].
Defined.

Lemma find_target_steps v db id g n o pid :
  (forall t, target_id (g t) = target_id t) ->
  find_target
    (aggregate v (update_targets (by_target_id id) g n db) pid
       (clock_aggregate o)) id
  = option_map (fun t => stamp_target n (g t)) (find_target db id).
Proof.
  intros Hg. rewrite find_target_aggregate. now apply find_target_update_same.
Qed.

(** X21. Two runs of the handler for the same queued or retrying target,
    their calls served alternately up to the write of [publishing] and then
    each run to its end: neither run is refused, both call the platform and
    both answer 200, and the target row ends with the count read plus one,
    one attempt counted for two deliveries. *)
Theorem interleaved_runs_both_deliver (v : Variant) (o1 o2 : PublishOracle)
    (db : Store) (targetId : Id) (target : DbScheduledPostTarget)
    (post : DbScheduledPost) (account : DbSocialAccount) :
  fetch_target db targetId = Some (target, Some post) ->
  includes TargetStatus_eqb [queued; retrying] (status target) = true ->
  attempt_count target < Backoff.MAX_RETRY_ATTEMPTS ->
  fetch_account db (user_id post) (platform target) = Some account ->
  let final :=
    interleave v o1 o2
      ([First; Second; First; Second; First; Second]
       ++ [First; First; First; Second; Second; Second])
      db (AStart targetId) (AStart targetId) in
  (exists p1 p2,
     snd (fst final) = ADone (Json 200 (Some true) p1)
     /\ snd final = ADone (Json 200 (Some true) p2))
  /\ (exists t',
        find_target (fst (fst final)) targetId = Some t'
        /\ attempt_count t' = attempt_count target + 1).
Proof.
  intros Hf Hs Ha Hacc. cbv zeta.
  assert (Happ : forall l1 l2 d a b,
            interleave v o1 o2 (l1 ++ l2) d a b
            = let '(d', a', b') := interleave v o1 o2 l1 d a b in
              interleave v o1 o2 l2 d' a' b').
  { induction l1 as [|w l1 IH]; intros l2 d a b; simpl.
    - reflexivity.
    - destruct w.
      + destruct (attempt_step v o1 d a) as [d' a']. apply IH.
      + destruct (attempt_step v o2 d b) as [d' b']. apply IH. }
  rewrite Happ.
  rewrite (alternating_runs_both_marked v o1 o2 db targetId target post account
             Hf Hs Ha Hacc).
  destruct (fetch_target_find _ _ _ _ Hf) as [Hfind _].
  cbn [interleave attempt_step].
  destruct (publish_success (platform_answer o1));
    destruct (publish_success (platform_answer o2));
    cbn [interleave attempt_step fst snd];
    (split; [do 2 eexists; split; reflexivity|]);
    rewrite !find_target_steps by reflexivity;
    rewrite !find_target_update_same by reflexivity;
    rewrite Hfind; eexists; (split; [reflexivity|]); reflexivity.
Qed.

Lemma interleaved_runs_both_deliver_witness :
  exists t',
    find_target
      (fst (fst (interleave Flat
                   (Sample.oracle Sample.published_ok 5000)
                   (Sample.oracle Sample.rate_limited 6000)
                   ([First; Second; First; Second; First; Second]
                    ++ [First; First; First; Second; Second; Second])
                   Sample.one_queued (AStart 100) (AStart 100)))) 100
    = Some t'
    /\ attempt_count t' = 0 + 1.
Proof.
  exact (proj2 (interleaved_runs_both_deliver Flat
                  (Sample.oracle Sample.published_ok 5000)
                  (Sample.oracle Sample.rate_limited 6000)
                  Sample.one_queued 100%nat
                  (Sample.mk_target 100 10 twitter queued 0 None)
                  (Sample.mk_post 10 1 1000 PostPublishing)
                  Scenario.twitter_account
                  eq_refl eq_refl ltac:(reflexivity) eq_refl)).
Defined.

End AttemptFacts.

(** ** A delivery in flight when its post is cancelled *)

Module InFlightFacts.
Import DeliveryFacts.

Lemma find_target_update_any sel g now db id :
  (forall t, target_id (g t) = target_id t) ->
  find_target (update_targets sel g now db) id
  = option_map (fun t => if sel t then stamp_target now (g t) else t)
               (find_target db id).
Proof.
  intros Hg. unfold find_target, update_targets; simpl.
  rewrite filter_map_commute, single_map; [reflexivity|].
  intros t. unfold by_target_id. destruct (sel t); [|reflexivity].
  cbn [stamp_target target_id]. now rewrite Hg.
Qed.

Lemma find_target_in db id t :
  find_target db id = Some t ->
  In t (scheduled_post_targets db) /\ by_target_id id t = true.
Proof.
  unfold find_target. intros H.
  assert (Hin : In t (filter (by_target_id id) (scheduled_post_targets db))).
  { destruct (filter _ _) as [|x [|z l]]; simpl in H; try discriminate.
    injection H as ->. now left. }
  now apply filter_In in Hin.
Qed.

Lemma newPostStatus_with_sent statuses :
  In sent statuses ->
  newPostStatus statuses = PostPublished \/ newPostStatus statuses = PostPartial.
Proof.
  intros Hs. unfold newPostStatus.
  destruct (Nat.eqb _ (length statuses)); [now left|].
  destruct (Nat.eqb_spec (count_status failed statuses) (length statuses))
    as [F | F].
  - pose proof (proj1 (AggregatorFacts.count_status_all _ _) F sent Hs).
    discriminate.
  - rewrite (proj2 (AggregatorFacts.count_status_pos _ _) Hs). now right.
Qed.

(** X22. A delivery that has written [publishing] and is waiting for the
    platform when the owner cancels the post: the cancellation is accepted
    and marks the target cancelled; when the platform then answers
    success, the handler's write by id makes the target sent with the
    attempt counted, answers 200, and the aggregator it calls rewrites the
    cancelled post as published or partial. *)
Theorem in_flight_delivery_overrides_cancellation
    (v : Variant) (now : Z) (o : PublishOracle) (db : Store)
    (userId postId targetId : Id) (p post : DbScheduledPost)
    (target row : DbScheduledPostTarget) (account : DbSocialAccount) :
  find_post db postId = Some p ->
  user_id p = userId ->
  post_status p <> PostPublished -> post_status p <> PostCancelled ->
  find_target db targetId = Some row ->
  post_id row = postId -> status row = publishing ->
  post_row_id post = postId ->
  publish_success (platform_answer o) = true ->
  let cancelled_run :=
    cancelScheduledPost v now db (cancel_request userId postId) in
  let final :=
    attempt_run v o 3 (fst cancelled_run)
      (AMarked targetId target post account) in
  (exists n, snd cancelled_run = successResponse 200 (PCancelled postId n))
  /\ option_map status (find_target (fst cancelled_run) targetId)
     = Some cancelled
  /\ (exists payload, snd final = ADone (Json 200 (Some true) payload))
  /\ (exists t',
        find_target (fst final) targetId = Some t'
        /\ status t' = sent
        /\ attempt_count t' = attempt_count target + 1)
  /\ (exists p',
        find_post (fst final) postId = Some p'
        /\ (post_status p' = PostPublished \/ post_status p' = PostPartial)).
Proof.
  intros Hp Hown Hnp Hnc Hrow Hpid Hst Hpost Hok. cbv zeta.
  pose proof (ClosedFacts.children_terminal v now db userId postId p
                Hp Hown Hnp Hnc) as Hterm.
  pose proof (ClosedFacts.cancelled_post v now db userId postId p
                Hp Hown Hnp Hnc) as (pc & Hpc & _).
  assert (Hrowc : find_target
                    (fst (cancelScheduledPost v now db
                            (cancel_request userId postId))) targetId
                  = Some (stamp_target now (mark_cancelled row))).
  { rewrite (CancelFacts.cancelScheduledPost_accepted v now db userId postId p)
      by assumption.
    cbn [fst]. rewrite find_target_update_any by reflexivity.
    assert (Hr : find_target
                   (update_posts (fun q => Nat.eqb (post_row_id q) postId)
                      (cancel_post_payload v p userId now) now db) targetId
                 = Some row) by exact Hrow.
    rewrite Hr. cbn [option_map]. unfold cancellable_target.
    now rewrite Hpid, Nat.eqb_refl, Hst. }
  split.
  { rewrite (CancelFacts.cancelScheduledPost_accepted v now db userId postId p)
      by assumption. eexists. reflexivity. }
  split; [now rewrite Hrowc|].
  set (dbc := fst (cancelScheduledPost v now db
                     (cancel_request userId postId))) in *.
  cbn [attempt_run attempt_step]. rewrite Hok.
  cbn [attempt_run attempt_step fst snd].
  split; [eexists; reflexivity|]. split.
  - rewrite find_target_aggregate, find_target_update_same by reflexivity.
    rewrite Hrowc. eexists. split; [reflexivity|]. split; reflexivity.
  - rewrite Hpost.
    set (dbw := update_targets (by_target_id targetId)
                  (mark_sent target (platform_answer o) (clock_attempt o))
                  (clock_attempt o) dbc).
    destruct (find_target_in _ _ _ Hrowc) as [Hin Hby].
    assert (Hsent : In sent (target_statuses dbw postId)).
    { unfold target_statuses, dbw, update_targets; simpl.
      apply in_map_iff.
      exists (stamp_target (clock_attempt o)
                (mark_sent target (platform_answer o) (clock_attempt o)
                   (stamp_target now (mark_cancelled row)))).
      split; [reflexivity|]. apply filter_In. split.
      - apply in_map_iff. exists (stamp_target now (mark_cancelled row)).
        split; [now rewrite Hby | exact Hin].
      - cbn. rewrite Hpid. apply Nat.eqb_refl. }
    assert (Hall : forall s, In s (target_statuses dbw postId) -> terminal s).
    { intros s Hs. unfold target_statuses, dbw, update_targets in Hs.
      simpl in Hs. apply in_map_iff in Hs. destruct Hs as (t' & <- & Ht').
      apply filter_In in Ht'. destruct Ht' as [Ht' Hsel].
      apply in_map_iff in Ht'. destruct Ht' as (y & <- & Hy).
      destruct (by_target_id targetId y).
      - unfold terminal. cbn. auto.
      - apply (Hterm y Hy). now apply Nat.eqb_eq. }
    destruct (OutcomeFacts.aggregate_terminal v dbw postId (clock_aggregate o) pc)
      as (p' & Hfind & Hstatus & _).
    + intros E. rewrite E in Hsent. contradiction.
    + exact Hall.
    + exact Hpc.
    + exists p'. split; [exact Hfind|]. rewrite Hstatus.
      now apply newPostStatus_with_sent.
Qed.

Lemma in_flight_delivery_overrides_cancellation_witness :
  let db := Sample.store [Sample.mk_post 10 1 1000 PostPublishing]
              [Sample.mk_target 100 10 twitter publishing 0 None] in
  let final :=
    attempt_run Flat (Sample.oracle Sample.published_ok 8000) 3
      (fst (cancelScheduledPost Flat 7000 db (cancel_request 1 10)))
      (AMarked 100 (Sample.mk_target 100 10 twitter queued 0 None)
         (Sample.mk_post 10 1 1000 PostPublishing) Scenario.twitter_account) in
  exists p',
    find_post (fst final) 10 = Some p'
    /\ (post_status p' = PostPublished \/ post_status p' = PostPartial).
Proof.
  cbv zeta.
  exact (proj2 (proj2 (proj2 (proj2
    (in_flight_delivery_overrides_cancellation Flat 7000
       (Sample.oracle Sample.published_ok 8000)
       (Sample.store [Sample.mk_post 10 1 1000 PostPublishing]
          [Sample.mk_target 100 10 twitter publishing 0 None])
       1%nat 10%nat 100%nat
       (Sample.mk_post 10 1 1000 PostPublishing)
       (Sample.mk_post 10 1 1000 PostPublishing)
       (Sample.mk_target 100 10 twitter queued 0 None)
       (Sample.mk_target 100 10 twitter publishing 0 None)
       Scenario.twitter_account
       eq_refl eq_refl ltac:(discriminate) ltac:(discriminate)
       eq_refl eq_refl eq_refl eq_refl eq_refl))))).
Defined.

End InFlightFacts.

(** ** Aggregator frame, and completeness of the worker's selection *)

Module CoverageFacts.

(** X23. The aggregator changes nothing but the row of the post it is
    called for: the targets, the accounts and every other post row are as
    before, and the row it rewrites keeps its id, owner, content, schedule
    and metadata.  Called for a post without targets, or for an id no post
    has, it leaves the whole store as it is. *)
Theorem aggregate_frame (v : Variant) (db : Store) (postId : Id) (now : Z) :
  scheduled_post_targets (aggregate v db postId now) = scheduled_post_targets db
  /\ social_accounts (aggregate v db postId now) = social_accounts db
  /\ media_assets (aggregate v db postId now) = media_assets db
  /\ Forall2
       (fun q q' =>
          post_row_id q' = post_row_id q /\ user_id q' = user_id q
          /\ content_raw q' = content_raw q /\ scheduled_at q' = scheduled_at q
          /\ timezone q' = timezone q /\ metadata q' = metadata q
          /\ post_created_at q' = post_created_at q
          /\ (post_row_id q <> postId -> q' = q))
       (scheduled_posts db) (scheduled_posts (aggregate v db postId now))
  /\ (target_statuses db postId = [] -> aggregate v db postId now = db)
  /\ ((forall q, In q (scheduled_posts db) -> post_row_id q <> postId) ->
      aggregate v db postId now = db).
Proof.
  rewrite AggregatorFacts.aggregate_cases.
  assert (Hsame : Forall2
       (fun q q' =>
          post_row_id q' = post_row_id q /\ user_id q' = user_id q
          /\ content_raw q' = content_raw q /\ scheduled_at q' = scheduled_at q
          /\ timezone q' = timezone q /\ metadata q' = metadata q
          /\ post_created_at q' = post_created_at q
          /\ (post_row_id q <> postId -> q' = q))
       (scheduled_posts db) (scheduled_posts db)).
  { apply DeliveryFacts.Forall2_same. intros q. repeat split. }
  assert (Hnoop : scheduled_post_targets db = scheduled_post_targets db
       /\ social_accounts db = social_accounts db
       /\ media_assets db = media_assets db
       /\ Forall2
            (fun q q' =>
               post_row_id q' = post_row_id q /\ user_id q' = user_id q
               /\ content_raw q' = content_raw q
               /\ scheduled_at q' = scheduled_at q
               /\ timezone q' = timezone q /\ metadata q' = metadata q
               /\ post_created_at q' = post_created_at q
               /\ (post_row_id q <> postId -> q' = q))
            (scheduled_posts db) (scheduled_posts db)
       /\ (target_statuses db postId = [] -> db = db)
       /\ ((forall q, In q (scheduled_posts db) -> post_row_id q <> postId) ->
           db = db)).
  { split; [reflexivity|]. split; [reflexivity|]. split; [reflexivity|].
    split; [exact Hsame|]. split; intros; reflexivity. }
  destruct (target_statuses db postId) as [|s0 l] eqn:E; [exact Hnoop|].
  assert (Hne : target_statuses db postId <> []) by (rewrite E; discriminate).
  rewrite <- E in *. clear E.
  destruct (hasPending (target_statuses db postId)); [exact Hnoop|].
  split; [reflexivity|]. split; [reflexivity|]. split; [reflexivity|].
  split; [|split].
  - unfold update_posts; simpl. apply DeliveryFacts.Forall2_map_self.
    intros q _. destruct (Nat.eqb_spec (post_row_id q) postId) as [Hq | Hq];
      repeat split; intros; congruence.
  - intros E. contradiction.
  - intros Hnone. unfold update_posts.
    rewrite (map_ext_in _ (fun q => q)).
    + rewrite map_id. destruct db; reflexivity.
    + intros q Hq. specialize (Hnone q Hq).
      destruct (Nat.eqb_spec (post_row_id q) postId);
        [contradiction | reflexivity].
Qed.

Lemma aggregate_frame_witness :
  aggregate Flat Sample.delivered 99 5000 = Sample.delivered.
Proof.
  destruct (aggregate_frame Flat Sample.delivered 99%nat 5000)
    as (_ & _ & _ & _ & _ & H).
  apply H. intros q [<- | []]. discriminate.
Defined.

Lemma join_length_le db (sel : TargetWithPost -> bool)
    (sel' : DbScheduledPostTarget -> bool) :
  (forall t p, sel (t, p) = true -> sel' t = true) ->
  (length (filter sel (inner_join db))
   <= length (filter sel' (scheduled_post_targets db)))%nat.
Proof.
  intros Himp. unfold inner_join.
  induction (scheduled_post_targets db) as [|t l IH]; simpl; [lia|].
  rewrite filter_app, length_app.
  destruct (find_post db (post_id t)) as [p|]; simpl.
  - destruct (sel (t, p)) eqn:E; simpl.
    + rewrite (Himp t p E). simpl. apply le_n_S. exact IH.
    + destruct (sel' t); simpl; [apply le_S|]; exact IH.
  - destruct (sel' t); simpl; [apply le_S|]; exact IH.
Qed.

Lemma in_inner_join db t p :
  In t (scheduled_post_targets db) -> find_post db (post_id t) = Some p ->
  In (t, p) (inner_join db).
Proof.
  intros Ht Hp. unfold inner_join. apply in_flat_map. exists t.
  split; [exact Ht|]. rewrite Hp. now left.
Qed.

(** Rows the queries cannot leave out: with at most one batch of targets
    queued (resp. retrying), every due queued target (resp. every retrying
    target that passes the retry conditions) is among the rows selected. *)
Lemma eligible_is_selected (v : Variant) (o : WorkerOracle)
    (db : Store) (t : DbScheduledPostTarget) (p : DbScheduledPost) :
  In t (scheduled_post_targets db) ->
  find_post db (post_id t) = Some p ->
  (status t = queued -> post_status p = PostQueued ->
   scheduled_at p <= cycle_now o ->
   (length (filter (fun x => TargetStatus_eqb (status x) queued)
              (scheduled_post_targets db)) <= BATCH_SIZE)%nat ->
   In (t, p) (cycle_targets v o db))
  /\ (status t = retrying ->
      attempt_count t < Backoff.MAX_RETRY_ATTEMPTS ->
      post_status p = PostQueued \/ post_status p = PostPublishing
      \/ post_status p = PostPartial ->
      Backoff.shouldRetryTarget (attempt_count t) (last_attempt_at t)
        (backoff_now o) = true ->
      (length (filter (fun x => TargetStatus_eqb (status x) retrying)
                 (scheduled_post_targets db)) <= BATCH_SIZE)%nat ->
      In (t, p) (cycle_targets v o db)).
Proof.
  intros Ht Hp. pose proof (in_inner_join db t p Ht Hp) as Hjoin.
  unfold cycle_targets. split.
  - intros Hs Hps Hdue Hcount. apply in_or_app. left.
    assert (Hsel : In (t, p) (filter (is_due (cycle_now o)) (inner_join db))).
    { apply filter_In. split; [exact Hjoin|]. unfold is_due. cbn [fst snd].
      rewrite Hs, Hps. simpl. now apply Z.leb_le. }
    assert (Hlen : (length (filter (is_due (cycle_now o)) (inner_join db))
                    <= BATCH_SIZE)%nat).
    { eapply Nat.le_trans; [|exact Hcount].
      apply join_length_le. intros t0 p0 H. unfold is_due in H. cbn [fst] in H.
      apply andb_prop in H. destruct H as [H _].
      apply andb_prop in H. now destruct H as [H _]. }
    unfold queuedTargets. destruct v.
    + now rewrite firstn_all2.
    + rewrite firstn_all2.
      * eapply Permutation_in; [symmetry; apply QueryFacts.order_perm|].
        exact Hsel.
      * now rewrite (Permutation_length (QueryFacts.order_perm _)).
  - intros Hs Hc Hps Hback Hcount. apply in_or_app. right.
    apply filter_In. split; [|destruct v; exact Hback].
    unfold retryingTargets.
    set (sel := fun r : TargetWithPost =>
                  TargetStatus_eqb (status (fst r)) retrying
                  && (attempt_count (fst r) <? Backoff.MAX_RETRY_ATTEMPTS)
                  && includes PostStatus_eqb
                       [PostQueued; PostPublishing; PostPartial]
                       (post_status (snd r))).
    assert (Hsel : In (t, p) (filter sel (inner_join db))).
    { apply filter_In. split; [exact Hjoin|]. unfold sel. cbn [fst snd].
      rewrite Hs. simpl. rewrite (proj2 (Z.ltb_lt _ _) Hc). simpl.
      destruct Hps as [-> | [-> | ->]]; reflexivity. }
    rewrite firstn_all2; [exact Hsel|].
    eapply Nat.le_trans; [|exact Hcount].
    apply join_length_le. intros t0 p0 H. unfold sel in H. cbn [fst] in H.
    apply andb_prop in H. destruct H as [H _].
    apply andb_prop in H. now destruct H as [H _].
Qed.

(** X24. An authorized cycle dispatches every target that is due for it:
    while at most one batch of targets is queued, every queued target of a
    queued post that is due, and while at most one batch is retrying, every
    retrying target with attempts left whose post is queued, publishing or
    partial and whose backoff has elapsed.  For such a target the cycle
    answers with a report that has an entry for it, at its place in the
    selection, and that entry is the outcome of the call made for it: a
    failure if the call threw, otherwise what the publish endpoint, run for
    this target on the store the loop had reached, replied. *)
Theorem eligible_work_is_dispatched (v : Variant) (o : WorkerOracle)
    (db : Store) (req : WorkerRequest)
    (t : DbScheduledPostTarget) (p : DbScheduledPost) :
  worker_authorized v req = true ->
  In t (scheduled_post_targets db) ->
  find_post db (post_id t) = Some p ->
  (status t = queued /\ post_status p = PostQueued
   /\ scheduled_at p <= cycle_now o
   /\ (length (filter (fun x => TargetStatus_eqb (status x) queued)
                 (scheduled_post_targets db)) <= BATCH_SIZE)%nat)
  \/ (status t = retrying
      /\ attempt_count t < Backoff.MAX_RETRY_ATTEMPTS
      /\ (post_status p = PostQueued \/ post_status p = PostPublishing
          \/ post_status p = PostPartial)
      /\ Backoff.shouldRetryTarget (attempt_count t) (last_attempt_at t)
           (backoff_now o) = true
      /\ (length (filter (fun x => TargetStatus_eqb (status x) retrying)
                    (scheduled_post_targets db)) <= BATCH_SIZE)%nat) ->
  exists db' results before after,
    runCycle v o db req
    = (db', Json 200 (Some true)
              (PCycle (length results)
                 (length (filter result_success results))
                 (length (filter (fun r => negb (result_success r)) results))
                 results))
    /\ cycle_targets v o db = before ++ (t, p) :: after
    /\ nth_error results (length before)
       = Some {| result_targetId := target_id t;
                 result_platform := platform t;
                 result_success :=
                   negb (fetch_throws (call o (target_id t)))
                   && envelope_success
                        (snd (publishPost v (endpoint (call o (target_id t)))
                                (store_at_turn v o db before)
                                (publish_request (target_id t)))) |}.
Proof.
  intros Hauth Ht Hp Hcase.
  assert (Hin : In (t, p) (cycle_targets v o db)).
  { destruct (eligible_is_selected v o db t p Ht Hp) as [Hq Hr].
    destruct Hcase as [(Hs & Hps & Hdue & Hn) | (Hs & Hc & Hps & Hb & Hn)];
      [now apply Hq | now apply Hr]. }
  destruct (in_split _ _ Hin) as (before & after & Hsplit).
  assert (Hsome : cycle_targets v o db <> [])
    by (rewrite Hsplit; destruct before; discriminate).
  destruct (WorkerFacts.runCycle_report v o db req Hauth Hsome)
    as (db' & results & Hrun & _ & Hentries).
  exists db', results, before, after.
  split; [exact Hrun|]. split; [exact Hsplit|].
  exact (Hentries before (t, p) after Hsplit).
Qed.

(** The target stored first in the sample with two due posts. *)
Lemma eligible_work_is_dispatched_witness :
  let o := Sample.worker_oracle Sample.published_ok 5000 in
  let t := Sample.mk_target 100 10 twitter queued 0 None in
  exists db' results before after,
    runCycle Flat o Sample.two_due Sample.cron_request
    = (db', Json 200 (Some true)
              (PCycle (length results)
                 (length (filter result_success results))
                 (length (filter (fun r => negb (result_success r)) results))
                 results))
    /\ cycle_targets Flat o Sample.two_due
       = before ++ (t, Sample.mk_post 10 1 2000 PostQueued) :: after
    /\ nth_error results (length before)
       = Some {| result_targetId := 100%nat;
                 result_platform := twitter;
                 result_success :=
                   negb (fetch_throws (call o 100%nat))
                   && envelope_success
                        (snd (publishPost Flat (endpoint (call o 100%nat))
                                (store_at_turn Flat o Sample.two_due before)
                                (publish_request 100))) |}.
Proof.
  cbv zeta.
  assert (Hdue : 2000 <= 5000) by lia.
  assert (Hbatch : (length
                      (filter (fun x => TargetStatus_eqb (status x) queued)
                         (scheduled_post_targets Sample.two_due))
                    <= BATCH_SIZE)%nat)
    by (unfold BATCH_SIZE; simpl; lia).
  exact (eligible_work_is_dispatched Flat
           (Sample.worker_oracle Sample.published_ok 5000) Sample.two_due
           Sample.cron_request
           (Sample.mk_target 100 10 twitter queued 0 None)
           (Sample.mk_post 10 1 2000 PostQueued)
           eq_refl (or_introl eq_refl) eq_refl
           (or_introl (conj eq_refl (conj eq_refl (conj Hdue Hbatch))))).
Defined.

(** X25. The fresh-work query of the [scheduling/] worker returns only
    target rows that are queued under a queued post due at the given time,
    never more than one batch, earliest due first; a due row it leaves out
    is due no earlier than any row it returns, and when at most one batch
    is due it returns them all. *)
Theorem scheduling_query_earliest_first (db : Store) (now : Z) :
  let rows := queuedTargets Scheduling db now in
  (forall r, In r rows -> In r (inner_join db) /\ is_due now r = true)
  /\ (length rows <= BATCH_SIZE)%nat
  /\ StronglySorted earlier rows
  /\ (forall r, In r (inner_join db) -> is_due now r = true ->
        In r rows \/ (forall r', In r' rows -> earlier r' r))
  /\ (forall r, (length (filter (is_due now) (inner_join db)) <= BATCH_SIZE)%nat ->
        In r (inner_join db) -> is_due now r = true -> In r rows).
Proof. exact (QueryFacts.queuedTargets_scheduling db now). Qed.

Lemma scheduling_query_earliest_first_witness :
  In (Sample.mk_target 100 10 twitter queued 0 None,
      Sample.mk_post 10 1 2000 PostQueued)
     (queuedTargets Scheduling Sample.two_due 5000).
Proof.
  destruct (scheduling_query_earliest_first Sample.two_due 5000)
    as (_ & _ & _ & _ & H).
  apply H; [unfold BATCH_SIZE; simpl; lia | left; reflexivity | reflexivity].
Defined.

End CoverageFacts.
